(** * tcmalloc: per-CPU slab primitives, transfer-cache manager, NUMA topology
      and stack-trace table, embedded from the sources under [src/tcmalloc].

    The first part holds the embedding of the code and the vocabulary of the
    statements, one module per source; the second part holds the proofs. *)

From Stdlib Require Import ZArith Lia Bool Ascii String.
From stdpp Require Import base list.

Local Open Scope Z_scope.

(** Linear arithmetic with division and remainder by constants. *)
Ltac zlia := Z.div_mod_to_equations; lia.

(** * Per-CPU slab primitives ([percpu_rseq_aarch64.S], the second document of
      [transfer_cache.cc])

    The routines are embedded instruction by instruction, as one uninterrupted
    run of the critical section.  A register holds its unsigned value as a
    [Z]; 64-bit address arithmetic wraps modulo [2^64].  Memory is a map from
    the byte address of an 8-byte aligned word to the 64-bit word stored
    there; a 16-bit access is a word address plus a byte offset inside the
    word.  The header of a size class is one such word: [current] at byte
    offset 0, [begin] at offset 4, [end] at offset 6.  The caller's [batch]
    array of the batch routines is a separate object, a list of pointers.
    The store by which [START_RSEQ] registers the critical section in
    [__rseq_abi] is not part of the modelled memory. *)
Module Slab.

Definition wrap64 (x : Z) : Z := x mod 2 ^ 64.
Definition wrap32 (x : Z) : Z := x mod 2 ^ 32.

(** [add xd, xn, xm] *)
Definition add64 (a b : Z) : Z := wrap64 (a + b).
(** [lsl xd, xn, xm] and the [LSL #k] operand modifier *)
Definition lsl64 (a s : Z) : Z := wrap64 (Z.shiftl a (s mod 64)).

(** The 16-bit field at byte offset [off] of a 64-bit word. *)
Definition half (w off : Z) : Z := Z.land (Z.shiftr w (8 * off)) 65535.
(** The word [w] with the 16-bit field at byte offset [off] replaced by the
    low 16 bits of [v]. *)
Definition set_half (w off v : Z) : Z :=
  Z.lor (Z.land w (Z.lnot (Z.shiftl 65535 (8 * off))))
        (Z.shiftl (Z.land v 65535) (8 * off)).

(** Memory accesses, in program order. *)
Inductive event : Type :=
  | Ldrh (addr off : Z)
  | Strh (addr off v : Z)
  | Ldr (addr : Z)
  | Str (addr v : Z)
  | LdrBatch (index : Z).

Record machine : Type := Machine {
  cpu_id : Z;            (* __rseq_abi.cpu_id *)
  mem : Z -> Z;
  trace : list event
}.

Inductive outcome (A : Type) : Type :=
  | Ok (a : A) (m : machine)
  | Fault (m : machine)      (* access outside the caller's batch array *)
  | OutOfFuel.
Arguments Ok {A} a m.
Arguments Fault {A} m.
Arguments OutOfFuel {A}.

Definition M (A : Type) : Type := machine -> outcome A.

Definition ret {A} (a : A) : M A := fun m => Ok a m.
Definition bind {A B} (c : M A) (k : A -> M B) : M B :=
  fun m => match c m with
           | Ok a m' => k a m'
           | Fault m' => Fault m'
           | OutOfFuel => OutOfFuel
           end.

Notation "'let*' x ':=' c 'in' k" := (bind c (fun x => k))
  (at level 10, x name, c at level 100, k at level 200).
Notation "'run' c 'in' k" := (bind c (fun _ => k))
  (at level 10, c at level 100, k at level 200).

Definition log (e : event) (m : machine) : machine :=
  Machine (cpu_id m) (mem m) (trace m ++ [e]).

(** [FETCH_CPU(dest)]: [ldr dest, [x5, #4]], the 32-bit cpu id. *)
Definition FETCH_CPU : M Z := fun m => Ok (wrap32 (cpu_id m)) m.

Definition ldrh (addr off : Z) : M Z :=
  fun m => Ok (half (mem m addr) off) (log (Ldrh addr off) m).

Definition strh (v addr off : Z) : M unit :=
  fun m =>
    Ok tt (Machine (cpu_id m)
             (fun a => if a =? addr then set_half (mem m addr) off v else mem m a)
             (trace m ++ [Strh addr off (Z.land v 65535)])).

Definition ldr (addr : Z) : M Z :=
  fun m => Ok (mem m addr) (log (Ldr addr) m).

Definition str (v addr : Z) : M unit :=
  fun m =>
    Ok tt (Machine (cpu_id m)
             (fun a => if a =? addr then wrap64 v else mem m a)
             (trace m ++ [Str addr (wrap64 v)])).

(** A load from element [index] of the caller's batch array. *)
Definition ldr_batch (batch : list Z) (index : Z) : M Z :=
  fun m =>
    if (0 <=? index) && (index <? Z.of_nat (length batch))
    then Ok (nth (Z.to_nat index) batch 0) (log (LdrBatch index) m)
    else Fault m.

(** How a routine leaves: [ret] with a value in [x0], or the tail call
    [TAILCALL(f)] that branches to the handler [f] with [x0] set. *)
Inductive exit : Type :=
  | Return (x0 : Z)
  | TailCall (f x0 : Z).

(** [TCMALLOC_PERCPU_TCMALLOC_FIXED_SLAB_SHIFT]: "multiply cpu by 256k". *)
Definition FIXED_SLAB_SHIFT : Z := 18.

(** [TcmallocSlab_Internal_Push(x0 = slabs, x1 = cl, x2 = p, w3 = shift,
    x4 = f)] *)
Definition TcmallocSlab_Internal_Push (x0 x1 x2 x3 x4 : Z) : M exit :=
  let* x8 := FETCH_CPU in
  let x9 := lsl64 x8 x3 in
  let x9 := add64 x0 x9 in
  let x10 := add64 x9 (lsl64 x1 3) in
  let* w12 := ldrh x10 0 in                    (* current *)
  let* w11 := ldrh x10 6 in                    (* end *)
  if w11 <=? w12                          (* cmp w11, w12; ble no_capacity *)
  then ret (TailCall x4 x8)
  else
    run str x2 (add64 x9 (lsl64 w12 3)) in
    let w12 := wrap32 (w12 + 1) in
    run strh w12 x10 0 in
    ret (Return x8).

(** [TcmallocSlab_Internal_Pop(x0 = slabs, x1 = cl, x2 = f, w3 = shift)] *)
Definition TcmallocSlab_Internal_Pop (x0 x1 x2 x3 : Z) : M exit :=
  let* x8 := FETCH_CPU in
  let x9 := lsl64 x8 x3 in
  let x9 := add64 x0 x9 in
  let x10 := add64 x9 (lsl64 x1 3) in
  let* w12 := ldrh x10 0 in                    (* current *)
  let* w11 := ldrh x10 4 in                    (* begin *)
  if w12 <=? w11                          (* cmp w11, w12; bge no_items *)
  then ret (TailCall x2 x8)
  else
    let w12 := wrap32 (w12 - 1) in
    let* x4 := ldr (add64 x9 (lsl64 w12 3)) in
    run strh w12 x10 0 in
    ret (Return x4).

(** The loop of [TcmallocSlab_Internal_PushBatch_FixedShift]: the body runs
    before the exit test.  [x11] is kept as an element index into [batch]
    (the register holds [batch + 8 * x11]). *)
Fixpoint PushBatch_loop (fuel : nat) (batch : list Z) (x9 x11 x14 : Z) : M unit :=
  match fuel with
  | O => fun _ => OutOfFuel
  | S fuel' =>
      let x11 := x11 - 1 in
      let* x12 := ldr_batch batch x11 in       (* ldr x12, [x11, #-8]! *)
      run str x12 x9 in                      (* str x12, [x9], #8 *)
      let x9 := add64 x9 8 in
      if x9 =? x14                        (* cmp x9, x14; bne loop *)
      then ret tt
      else PushBatch_loop fuel' batch x9 x11 x14
  end.

(** [TcmallocSlab_Internal_PushBatch_FixedShift(x0 = slabs, w1 = cl,
    x2 = batch, w3 = len)] *)
Definition TcmallocSlab_Internal_PushBatch_FixedShift
    (fuel : nat) (x0 x1 : Z) (batch : list Z) (x3 : Z) : M Z :=
  let* x8 := FETCH_CPU in
  let x8 := lsl64 x8 FIXED_SLAB_SHIFT in
  let x8 := add64 x0 x8 in
  let x4 := add64 x8 (lsl64 x1 3) in      (* hdr *)
  let* w9 := ldrh x4 0 in                      (* current *)
  let* w10 := ldrh x4 6 in                     (* end *)
  if w10 <=? w9                           (* cmp w9, w10; bge no_capacity *)
  then ret 0
  else
    let x11 := x3 in                      (* batch + len * 8 *)
    let w10 := wrap32 (w10 - w9) in       (* free capacity *)
    let w10 := if wrap32 x3 <=? w10 then wrap32 x3 else w10 in
    let x13 := add64 w9 w10 in
    let x9 := add64 x8 (lsl64 w9 3) in
    let x14 := add64 x8 (lsl64 x13 3) in
    run PushBatch_loop fuel batch x9 x11 x14 in
    run strh x13 x4 0 in
    ret w10.

(** A store to element [index] of the caller's batch array; the array is
    threaded through the routine and handed back with the result. *)
Definition str_batch (batch : list Z) (v index : Z) : M (list Z) :=
  fun m =>
    if (0 <=? index) && (index <? Z.of_nat (length batch))
    then Ok (<[Z.to_nat index := wrap64 v]> batch) m
    else Fault m.

(** The loop of [TcmallocSlab_Internal_PopBatch_FixedShift]: the body runs
    before the exit test.  [x12] and [x14] are kept as element indices into
    [batch] (the registers hold [batch + 8 * x12] and [batch + 8 * x14], so
    that they are equal when the two offsets are). *)
Fixpoint PopBatch_loop (fuel : nat) (batch : list Z) (x13 x12 x14 : Z)
    : M (list Z) :=
  match fuel with
  | O => fun _ => OutOfFuel
  | S fuel' =>
      let x13 := add64 x13 (-8) in
      let* x10 := ldr x13 in                   (* ldr x10, [x13, #-8]! *)
      let* batch := str_batch batch x10 x12 in   (* str x10, [x12], #8 *)
      let x12 := x12 + 1 in
      if lsl64 x12 3 =? lsl64 x14 3       (* cmp x12, x14; bne loop *)
      then ret batch
      else PopBatch_loop fuel' batch x13 x12 x14
  end.

(** [TcmallocSlab_Internal_PopBatch_FixedShift(x0 = slabs, w1 = cl,
    x2 = batch, w3 = len)]: the number of objects popped, and the batch
    array as the routine leaves it. *)
Definition TcmallocSlab_Internal_PopBatch_FixedShift
    (fuel : nat) (x0 x1 : Z) (batch : list Z) (x3 : Z) : M (Z * list Z) :=
  let* x8 := FETCH_CPU in
  let x8 := lsl64 x8 FIXED_SLAB_SHIFT in
  let x8 := add64 x0 x8 in
  let x4 := add64 x8 (lsl64 x1 3) in      (* hdr *)
  let* w9 := ldrh x4 0 in                      (* current *)
  let* w10 := ldrh x4 4 in                     (* begin *)
  if w9 <=? w10                           (* cmp w10, w9; bhs no_items *)
  then ret (0, batch)
  else
    let w11 := wrap32 (w9 - w10) in       (* available items *)
    let w11 := if wrap32 x3 <=? w11 then wrap32 x3 else w11 in
    let x13 := add64 x8 (lsl64 w9 3) in
    let x9 := wrap64 (w9 - w11) in
    let x12 := 0 in                       (* batch *)
    let x14 := w11 in                     (* batch + amount * 8 *)
    let* batch := PopBatch_loop fuel batch x13 x12 x14 in
    run strh x9 x4 0 in
    ret (w11, batch).

(** [TcmallocSlab_Internal_Push_FixedShift(x0 = slabs, x1 = cl, x2 = p,
    x3 = f)] *)
Definition TcmallocSlab_Internal_Push_FixedShift (x0 x1 x2 x3 : Z) : M exit :=
  let* x8 := FETCH_CPU in
  let x9 := lsl64 x8 FIXED_SLAB_SHIFT in
  let x9 := add64 x0 x9 in
  let x10 := add64 x9 (lsl64 x1 3) in
  let* w12 := ldrh x10 0 in                    (* current *)
  let* w11 := ldrh x10 6 in                    (* end *)
  if w11 <=? w12                          (* cmp w11, w12; ble no_capacity *)
  then ret (TailCall x3 x8)
  else
    run str x2 (add64 x9 (lsl64 w12 3)) in
    let w12 := wrap32 (w12 + 1) in
    run strh w12 x10 0 in
    ret (Return x8).

(** [TcmallocSlab_Internal_Pop_FixedShift(x0 = slabs, x1 = cl, x2 = f)] *)
Definition TcmallocSlab_Internal_Pop_FixedShift (x0 x1 x2 : Z) : M exit :=
  let* x8 := FETCH_CPU in
  let x9 := lsl64 x8 FIXED_SLAB_SHIFT in
  let x9 := add64 x0 x9 in
  let x10 := add64 x9 (lsl64 x1 3) in
  let* w12 := ldrh x10 0 in                    (* current *)
  let* w11 := ldrh x10 4 in                    (* begin *)
  if w12 <=? w11                          (* cmp w11, w12; bge no_items *)
  then ret (TailCall x2 x8)
  else
    let w12 := wrap32 (w12 - 1) in
    let* x3 := ldr (add64 x9 (lsl64 w12 3)) in
    run strh w12 x10 0 in
    ret (Return x3).

(** [TcmallocSlab_Internal_PerCpuCmpxchg64(w0 = target_cpu, x1 = p,
    x2 = old_val, x3 = new_val)]; [mov x0, #-1] leaves [2^64 - 1]. *)
Definition TcmallocSlab_Internal_PerCpuCmpxchg64 (x0 x1 x2 x3 : Z) : M Z :=
  let* x4 := FETCH_CPU in
  if negb (wrap32 x0 =? x4)               (* cmp w0, w4; bne commit *)
  then ret x4
  else
    let* x6 := ldr x1 in
    if negb (wrap64 x6 =? wrap64 x2)      (* cmp x6, x2; bne mismatch *)
    then ret (wrap64 (-1))
    else
      run str x3 x1 in
      ret x4.

(** The slab region of the executing cpu and the header of a size class, as
    the routines compute them. *)
Definition CpuMemoryStart (slabs shift : Z) (m : machine) : Z :=
  add64 slabs (lsl64 (wrap32 (cpu_id m)) shift).
Definition slot (region i : Z) : Z := add64 region (lsl64 i 3).

Definition hdr_current (m : machine) (hdr : Z) : Z := half (mem m hdr) 0.
Definition hdr_begin (m : machine) (hdr : Z) : Z := half (mem m hdr) 4.
Definition hdr_end (m : machine) (hdr : Z) : Z := half (mem m hdr) 6.

(** ** States used in the examples *)

(** Concrete states: cpu 0, slabs at address 0, size class 2 (header word at
    address 16), slots 8 and 9 of the class at addresses 64 and 72. *)
Definition pack_header (current end_copy begin end_ : Z) : Z :=
  current + 2 ^ 16 * end_copy + 2 ^ 32 * begin + 2 ^ 48 * end_.

Definition slab_with (current begin end_ : Z) : machine :=
  Machine 0 (fun a => if a =? 16 then pack_header current end_ begin end_
                      else if a =? 64 then 1001
                      else if a =? 72 then 1002 else 0) [].

End Slab.

(** * Transfer-cache manager ([transfer_cache.cc]) *)
Module TransferCache.

(** [TransferCacheImplementation]; the enumerator [None] is spelled
    [NoTransferCache] here. *)
Inductive TransferCacheImplementation : Type :=
  | Legacy
  | NoTransferCache
  | Ring.

(** A call either returns or ends in [Crash(kCrash, file, line, msg, arg)]. *)
Inductive result (A : Type) : Type :=
  | Returns (a : A)
  | Crash (msg arg : string).
Arguments Returns {A} a.
Arguments Crash {A} msg arg.

(** [e[0]] of a NUL-terminated C string. *)
Definition first_char (e : string) : ascii :=
  match e with
  | EmptyString => Ascii.zero
  | String c _ => c
  end.

(** [TransferCacheManager::ChooseImplementation].  [ring_experiment] is the
    value of [IsExperimentActive(TEST_ONLY_TCMALLOC_RING_BUFFER_TRANSFER_CACHE)]
    and [getenv] the process environment read by [thread_safe_getenv]. *)
Definition ChooseImplementation
    (ring_experiment : bool) (getenv : string -> option string)
    : result TransferCacheImplementation :=
  if ring_experiment then Returns Ring
  else
    match getenv "TCMALLOC_INTERNAL_TRANSFERCACHE_CONTROL"%string with
    | Some e =>
        if Ascii.eqb (first_char e) "0" then Returns Legacy
        else if Ascii.eqb (first_char e) "1" then Returns Ring
        else Crash "bad env var" e
    | None => Returns Legacy
    end.

(** Operations on the shared cursor and capacity queries, in program order. *)
Inductive event : Type :=
  | CursorLoad (v : Z)
  | CursorStore (v : Z)
  | SpareCapacityQuery (impl : TransferCacheImplementation) (size_class : Z).

Record manager : Type := Manager {
  next_to_evict_ : Z;                          (* std::atomic<int32_t> *)
  implementation_ : TransferCacheImplementation;
  history : list event
}.

Section Evict.

(** [kNumClasses] comes from [common.h]; [rbtc_HasSpareCapacity t] and
    [tc_HasSpareCapacity t] stand for [cache_[t].rbtc.HasSpareCapacity(t)]
    and [cache_[t].tc.HasSpareCapacity(t)]. *)
Variable kNumClasses : Z.
Variable rbtc_HasSpareCapacity : Z -> bool.
Variable tc_HasSpareCapacity : Z -> bool.

Definition load (s : manager) : Z * manager :=
  (next_to_evict_ s,
   Manager (next_to_evict_ s) (implementation_ s)
           (history s ++ [CursorLoad (next_to_evict_ s)])).

Definition store (v : Z) (s : manager) : manager :=
  Manager v (implementation_ s) (history s ++ [CursorStore v]).

(** [cache_[t].rbtc.HasSpareCapacity(t)] *)
Definition rbtc_query (t : Z) (s : manager) : bool * manager :=
  (rbtc_HasSpareCapacity t,
   Manager (next_to_evict_ s) (implementation_ s)
           (history s ++ [SpareCapacityQuery Ring t])).

(** [cache_[t].tc.HasSpareCapacity(t)] *)
Definition tc_query (t : Z) (s : manager) : bool * manager :=
  (tc_HasSpareCapacity t,
   Manager (next_to_evict_ s) (implementation_ s)
           (history s ++ [SpareCapacityQuery Legacy t])).

(** [TransferCacheManager::DetermineSizeClassToEvict].  [t + 1] cannot
    overflow: after the clamp [t < kNumClasses]. *)
Definition DetermineSizeClassToEvict (current_size_class : Z) (s : manager)
    : Z * manager :=
  let '(t, s) := load s in
  let t := if t >=? kNumClasses then 1 else t in
  let s := store (t + 1) s in
  (* Ask nicely first. *)
  let '(accepted, s) :=
    match implementation_ s with
    | Ring =>
        if t =? current_size_class then (true, s)
        else rbtc_query t s
    | _ => tc_query t s
    end in
  if accepted then (t, s)
  else
    (* But insist on the second try. *)
    let '(t, s) := load s in
    let t := if t >=? kNumClasses then 1 else t in
    let s := store (t + 1) s in
    (t, s).

End Evict.

(** Successive calls of [DetermineSizeClassToEvict], one per element of
    [args] (the [current_size_class] of the call): the classes returned, in
    order, and the manager after the last call. *)
Fixpoint DetermineSizeClassToEvict_calls
    (kNumClasses : Z) (rbtc_HasSpareCapacity tc_HasSpareCapacity : Z -> bool)
    (args : list Z) (s : manager) : list Z * manager :=
  match args with
  | [] => ([], s)
  | current_size_class :: rest =>
      let '(t, s) :=
        DetermineSizeClassToEvict kNumClasses rbtc_HasSpareCapacity
          tc_HasSpareCapacity current_size_class s in
      let '(ts, s) :=
        DetermineSizeClassToEvict_calls kNumClasses rbtc_HasSpareCapacity
          tc_HasSpareCapacity rest s in
      (t :: ts, s)
  end.

(** Number of times the cursor was read. *)
Definition is_load (e : event) : bool :=
  match e with CursorLoad _ => true | _ => false end.
Definition probes (h : list event) : nat := length (List.filter is_load h).

(** ** Vocabulary of the statements *)

(** The candidate the round-robin cursor yields: the cursor value, or class 1
    once the cursor has run past the last class. *)
Definition candidate (kNumClasses cursor : Z) : Z :=
  if cursor >=? kNumClasses then 1 else cursor.

End TransferCache.

(** * NUMA topology ([internal/numa.cc]) *)
Module Numa.

(** A call returns, dies in [CHECK_CONDITION(cond)] or in
    [Crash(kCrash, file, line, msg, arg)], runs into behaviour C++ leaves
    undefined, or exhausts the fuel of the model. *)
Inductive result (A : Type) : Type :=
  | Done (a : A)
  | CheckFailed (cond : string)
  | Crash (msg arg : string)
  | Undefined
  | OutOfFuel.
Arguments Done {A} a.
Arguments CheckFailed {A} cond.
Arguments Crash {A} msg arg.
Arguments Undefined {A}.
Arguments OutOfFuel {A}.

(** ** [OpenSysfsCpulist] *)

(** [PATH_MAX] ([<limits.h>]) and the open flags ([<fcntl.h>]) of Linux. *)
Definition PATH_MAX : Z := 4096.
Definition O_RDONLY : Z := 0.
Definition O_CLOEXEC : Z := 524288.

(** The conversion [%zu] of [snprintf]: the decimal digits of a [size_t],
    the most significant first.  [decimal fuel n acc] puts the digits of [n],
    at most [fuel] of them, in front of [acc]. *)
Fixpoint decimal (fuel : nat) (n : Z) (acc : list ascii) : list ascii :=
  match fuel with
  | O => acc
  | S fuel' =>
      let acc := ascii_of_nat (Z.to_nat (48 + n mod 10)) :: acc in
      if n / 10 =? 0 then acc else decimal fuel' (n / 10) acc
  end.
Definition format_zu (n : Z) : list ascii := decimal 20 (n mod 2 ^ 64) [].

(** [snprintf(path, sizeof(path), "/sys/devices/system/node/node%zu/cpulist",
    node)]: the text, cut to the [sizeof(path) - 1] characters that fit in
    front of the terminating NUL. *)
Definition cpulist_path (node : Z) : list ascii :=
  take (Z.to_nat (PATH_MAX - 1))
    (list_ascii_of_string "/sys/devices/system/node/node" ++ format_zu node
     ++ list_ascii_of_string "/cpulist").

(** [OpenSysfsCpulist]; [signal_safe_open path flags] stands for the call of
    that name ([util.h]). *)
Definition OpenSysfsCpulist {FD : Type} (signal_safe_open : list ascii -> Z -> FD)
    (node : Z) : FD :=
  signal_safe_open (cpulist_path node) (Z.lor O_RDONLY O_CLOEXEC).

(** ** [cpu_set_t] (glibc, [<sched.h>]): [CPU_SETSIZE] bits; the macros
    convert the cpu number to [size_t] and ignore numbers out of range. *)
Definition CPU_SETSIZE : Z := 1024.
Definition cpu_set_t : Type := Z.
Definition size_t_of_int (c : Z) : Z := c mod 2 ^ 64.

Definition CPU_ZERO : cpu_set_t := 0.
Definition CPU_SET (cpu : Z) (set : cpu_set_t) : cpu_set_t :=
  let c := size_t_of_int cpu in
  if c <? CPU_SETSIZE then Z.lor set (Z.shiftl 1 c) else set.
Definition CPU_ISSET (cpu : Z) (set : cpu_set_t) : bool :=
  let c := size_t_of_int cpu in
  (c <? CPU_SETSIZE) && Z.testbit set c.
Definition CPU_COUNT (set : cpu_set_t) : Z :=
  Z.of_nat (length (List.filter (fun c => Z.testbit set (Z.of_nat c))
                                (seq 0 (Z.to_nat CPU_SETSIZE)))).

(** ** [absl::SimpleAtoi] on a string view and an [int]: optional surrounding
    ASCII white space, an optional sign, at least one decimal digit and
    nothing else; a value outside [int] is refused. *)
Definition is_space (c : ascii) : bool :=
  let n := nat_of_ascii c in
  (n =? 32)%nat || ((9 <=? n)%nat && (n <=? 13)%nat).
Definition is_digit (c : ascii) : bool :=
  let n := nat_of_ascii c in (48 <=? n)%nat && (n <=? 57)%nat.
Definition digit_value (c : ascii) : Z := Z.of_nat (nat_of_ascii c) - 48.

Fixpoint skip_spaces (s : list ascii) : list ascii :=
  match s with
  | c :: s' => if is_space c then skip_spaces s' else s
  | [] => []
  end.
Definition strip (s : list ascii) : list ascii :=
  rev (skip_spaces (rev (skip_spaces s))).

Fixpoint digits_value (acc : Z) (s : list ascii) : option Z :=
  match s with
  | [] => Some acc
  | c :: s' => if is_digit c then digits_value (10 * acc + digit_value c) s' else None
  end.

Definition INT_MAX : Z := 2147483647.
Definition INT_MIN : Z := -2147483648.

Definition SimpleAtoi (s : list ascii) : option Z :=
  let magnitude (ds : list ascii) : option Z :=
    match ds with [] => None | _ => digits_value 0 ds end in
  match strip s with
  | "-"%char :: ds =>
      match magnitude ds with
      | Some v => if INT_MIN <=? - v then Some (- v) else None
      | None => None
      end
  | "+"%char :: ds =>
      match magnitude ds with
      | Some v => if v <=? INT_MAX then Some v else None
      | None => None
      end
  | ds =>
      match magnitude ds with
      | Some v => if v <=? INT_MAX then Some v else None
      | None => None
      end
  end.

(** [absl::string_view::find(char)]; [None] is [npos]. *)
Fixpoint find (c : ascii) (s : list ascii) : option nat :=
  match s with
  | [] => None
  | x :: s' => if Ascii.eqb x c then Some 0%nat else option_map S (find c s')
  end.

Definition found (pos : option nat) : bool :=
  match pos with Some _ => true | None => false end.

(** [for (int c = cpu_from; c <= cpu; c++) CPU_SET(c, &set);] for
    [cpu < INT_MAX]; [n] counts the iterations left. *)
Fixpoint set_range (n : nat) (c : Z) (set : cpu_set_t) : cpu_set_t :=
  match n with
  | O => set
  | S n' => set_range n' (c + 1) (CPU_SET c set)
  end.

Section ParseCpulist.

(** The [read] callback: [read r count] answers a call for up to [count]
    bytes in reader state [r]; [None] is a negative return value, [Some data]
    the bytes stored, whose number is the return value. *)
Context {R : Type} (read : R -> nat -> option (list ascii) * R).

(** The [while (true)] loop of [ParseCpulist]; [buf] holds the [carry_over]
    bytes at the front of the 16-byte buffer. *)
Fixpoint ParseCpulist_loop (fuel : nat) (r : R) (buf : list ascii)
    (cpu_from : Z) (set : cpu_set_t) : result cpu_set_t :=
  match fuel with
  | O => OutOfFuel
  | S fuel' =>
      match read r (16 - length buf)%nat with
      | (None, _) => CheckFailed "rc >= 0"
      | (Some data, r) =>
          let rc := length data in
          let current := buf ++ data in
          if (length current =? 0)%nat && (rc =? 0)%nat then Done set
          else
            let dash := find "-" current in
            let comma := find "," current in
            let dash_first :=               (* dash != npos && dash < comma *)
              match dash, comma with
              | Some d, Some c => if (d <? c)%nat then Some d else None
              | Some d, None => Some d
              | None, _ => None
              end in
            match dash_first with
            | Some d =>
                match SimpleAtoi (take d current) with
                | None =>
                    CheckFailed "absl::SimpleAtoi(current.substr(0, dash), &cpu_from)"
                | Some cpu_from =>
                    ParseCpulist_loop fuel' r (drop (d + 1) current) cpu_from set
                end
            | None =>
                if found comma || (rc =? 0)%nat then
                  let token :=
                    match comma with Some c => take c current | None => current end in
                  match SimpleAtoi token with
                  | None =>
                      CheckFailed "absl::SimpleAtoi(current.substr(0, comma), &cpu)"
                  | Some cpu =>
                      let consumed :=
                        match comma with
                        | Some c => (c + 1)%nat
                        | None => length current
                        end in
                      if cpu_from =? -1 then
                        ParseCpulist_loop fuel' r (drop consumed current) (-1)
                          (CPU_SET cpu set)
                      else if cpu =? INT_MAX then Undefined   (* [c++] overflows *)
                      else
                        ParseCpulist_loop fuel' r (drop consumed current) (-1)
                          (set_range (Z.to_nat (cpu - cpu_from + 1)) cpu_from set)
                  end
                else
                  ParseCpulist_loop fuel' r current cpu_from set
            end
      end
  end.

Definition ParseCpulist (fuel : nat) (r : R) : result cpu_set_t :=
  ParseCpulist_loop fuel r [] (-1) CPU_ZERO.

End ParseCpulist.

(** A readable text resource: the bytes not yet delivered and, per call, how
    many bytes the call is willing to deliver at most (one more than the
    list entry; the full request once the list is exhausted).  A call
    delivers at least one byte unless none is left or none was asked for. *)
Record file : Type := File {
  pending : list ascii;
  chunks : list nat
}.

Definition file_read (f : file) (count : nat) : option (list ascii) * file :=
  let want := match chunks f with [] => count | k :: _ => S k end in
  let n := Nat.min (Nat.min want count) (length (pending f)) in
  (Some (take n (pending f)), File (drop n (pending f)) (tail (chunks f))).

(** ** [InitNumaTopology] *)

Inductive NumaBindMode : Type := kNone | kAdvisory | kStrict.

(** The three objects [InitNumaTopology] writes through its pointer
    arguments. *)
Record tables : Type := Tables {
  cpu_to_scaled_partition : list Z;     (* size_t[] *)
  partition_to_nodes : list Z;          (* uint64_t[] *)
  bind_mode : NumaBindMode
}.

(** What the process sees of its surroundings. *)
Record system : Type := System {
  getenv : string -> option string;     (* thread_safe_getenv *)
  IsFast : bool;                        (* subtle::percpu::IsFast() *)
  default_want_numa_aware : bool;       (* the weak default or its override *)
  NumCPUs : Z                           (* absl::base_internal::NumCPUs() *)
}.

(** [open_node_cpulist(node)]: a descriptor on the node's cpulist, or [-1]
    with [errno] set. *)
Inductive open_result : Type :=
  | Opened (f : file)
  | OpenFailed (errno : Z).
Definition ENOENT : Z := 2.

(** [1 << node], an [int] shift, converted to [uint64_t] for the [|=]:
    bit 31 is the sign bit, a larger shift count is undefined. *)
Definition one_shl (node : Z) : option Z :=
  if node <? 31 then Some (Z.shiftl 1 node)
  else if node =? 31 then Some (2 ^ 64 - 2 ^ 31)
  else None.

(** [a[i] |= x] and [a[i] = v] on a C array; an index outside the array is
    undefined. *)
Definition or_at (a : list Z) (i x : Z) : option (list Z) :=
  match a !! Z.to_nat i with
  | Some v => Some (<[Z.to_nat i := Z.lor v x]> a)
  | None => None
  end.
Definition store_at (a : list Z) (i v : Z) : option (list Z) :=
  match a !! Z.to_nat i with
  | Some _ => Some (<[Z.to_nat i := v]> a)
  | None => None
  end.

Section InitNumaTopology.

(** [NodeToPartition] (from a node and the number of partitions to a
    partition, a [size_t]) and [kNumaCpuFudge] are declared in [numa.h],
    which is not among the sources. *)
Variable NodeToPartition : Z -> Z -> Z.
Variable kNumaCpuFudge : Z.

Variable num_partitions : Z.
Variable scale_by : Z.
Variable open_node_cpulist : Z -> open_result.
Variable parse_fuel : nat.

(** [for (size_t cpu = 0; cpu < CPU_SETSIZE; cpu++) if (CPU_ISSET(cpu,
    &node_cpus)) cpu_to_scaled_partition[cpu + kNumaCpuFudge] = value;]
    with [n] iterations left. *)
Fixpoint assign_cpus (n : nat) (cpu : Z) (node_cpus : cpu_set_t) (value : Z)
    (c2p : list Z) : option (list Z) :=
  match n with
  | O => Some c2p
  | S n' =>
      if CPU_ISSET cpu node_cpus then
        match store_at c2p (cpu + kNumaCpuFudge) value with
        | Some c2p' => assign_cpus n' (cpu + 1) node_cpus value c2p'
        | None => None
        end
      else assign_cpus n' (cpu + 1) node_cpus value c2p
  end.

(** [for (size_t node = 0;; node++)] *)
Fixpoint InitNumaTopology_nodes (fuel : nat) (node : Z) (numa_aware : bool)
    (t : tables) : result (bool * tables) :=
  match fuel with
  | O => OutOfFuel
  | S fuel' =>
      match open_node_cpulist node with
      | OpenFailed errno =>
          if errno =? ENOENT then Done (numa_aware, t)
          else CheckFailed "errno == ENOENT"
      | Opened fd =>
          let partition := NodeToPartition node num_partitions in
          match one_shl node with
          | None => Undefined
          | Some bit =>
              match or_at (partition_to_nodes t) partition bit with
              | None => Undefined
              | Some p2n =>
                  let t := Tables (cpu_to_scaled_partition t) p2n (bind_mode t) in
                  if partition =? 0 then
                    InitNumaTopology_nodes fuel' (node + 1) numa_aware t
                  else
                    match ParseCpulist file_read parse_fuel fd with
                    | Done node_cpus =>
                        match assign_cpus (Z.to_nat CPU_SETSIZE) 0 node_cpus
                                (size_t_of_int (partition * scale_by))
                                (cpu_to_scaled_partition t) with
                        | None => Undefined
                        | Some c2p =>
                            let numa_aware :=
                              if CPU_COUNT node_cpus =? 0 then numa_aware else true in
                            InitNumaTopology_nodes fuel' (node + 1) numa_aware
                              (Tables c2p p2n (bind_mode t))
                        end
                    | CheckFailed cond => CheckFailed cond
                    | Crash msg arg => Crash msg arg
                    | Undefined => Undefined
                    | OutOfFuel => OutOfFuel
                    end
              end
          end
      end
  end.

(** From the check of [num_cpus] to the end of the function. *)
Definition InitNumaTopology_enumerate (fuel : nat) (sys : system) (t : tables)
    : result (bool * tables) :=
  if NumCPUs sys <=? CPU_SETSIZE
  then InitNumaTopology_nodes fuel 0 false t
  else CheckFailed "num_cpus <= CPU_SETSIZE".

Definition InitNumaTopology (fuel : nat) (sys : system) (t : tables)
    : result (bool * tables) :=
  match or_at (partition_to_nodes t) (NodeToPartition 0 num_partitions) 1 with
  | None => Undefined
  | Some p2n =>
      let t := Tables (cpu_to_scaled_partition t) p2n (bind_mode t) in
      if num_partitions =? 1 then Done (false, t)
      else if negb (IsFast sys) then Done (false, t)
      else
        let with_mode (m : NumaBindMode) : tables :=
          Tables (cpu_to_scaled_partition t) (partition_to_nodes t) m in
        match getenv sys "TCMALLOC_NUMA_AWARE" with
        | None =>
            if negb (default_want_numa_aware sys) then Done (false, t)
            else InitNumaTopology_enumerate fuel sys t
        | Some e =>
            if String.eqb e "no-binding" then
              InitNumaTopology_enumerate fuel sys (with_mode kNone)
            else if String.eqb e "advisory-binding" || String.eqb e "1" then
              InitNumaTopology_enumerate fuel sys (with_mode kAdvisory)
            else if String.eqb e "strict-binding" then
              InitNumaTopology_enumerate fuel sys (with_mode kStrict)
            else if String.eqb e "0" then Done (false, t)
            else Crash "bad TCMALLOC_NUMA_AWARE env var" e
        end
  end.

End InitNumaTopology.

(** ** Vocabulary of the statements *)

(** A numeral: a non-empty string of decimal digits. *)
Definition numeral (ds : list ascii) : Prop :=
  ds <> [] /\ forallb is_digit ds = true.

(** Its value. *)
Definition numeral_value (ds : list ascii) : Z :=
  fold_left (fun acc c => 10 * acc + digit_value c) ds 0.

Definition is_separator (c : ascii) : bool := Ascii.eqb c "-" || Ascii.eqb c ",".

(** A token holds no separator. *)
Definition clean (tok : list ascii) : Prop :=
  forallb (fun c => negb (is_separator c)) tok = true.

(** What follows a token: a dash, a comma or the end of the input. *)
Inductive terminator : Type := TDash | TComma | TEnd.

Definition terminator_text (t : terminator) : list ascii :=
  match t with
  | TDash => ["-"%char]
  | TComma => [","%char]
  | TEnd => []
  end.

Fixpoint flatten (toks : list (list ascii * terminator)) : list ascii :=
  match toks with
  | [] => []
  | (tok, t) :: rest => tok ++ terminator_text t ++ flatten rest
  end.

(** Tokens fit the buffer with their separator; only the last token, which
    is then not empty, is ended by the end of the input. *)
Fixpoint wf_stream (toks : list (list ascii * terminator)) : Prop :=
  match toks with
  | [] => True
  | (tok, t) :: rest =>
      clean tok /\ (length tok <= 15)%nat
      /\ (t = TEnd -> tok <> [] /\ rest = [])
      /\ wf_stream rest
  end.

(** What [ParseCpulist] does to the tokens, one token at a time. *)
Fixpoint run_tokens (toks : list (list ascii * terminator)) (cpu_from : Z)
    (set : cpu_set_t) : result cpu_set_t :=
  match toks with
  | [] => Done set
  | (tok, TDash) :: rest =>
      match SimpleAtoi tok with
      | None => CheckFailed "absl::SimpleAtoi(current.substr(0, dash), &cpu_from)"
      | Some v => run_tokens rest v set
      end
  | (tok, _) :: rest =>
      match SimpleAtoi tok with
      | None => CheckFailed "absl::SimpleAtoi(current.substr(0, comma), &cpu)"
      | Some cpu =>
          if cpu_from =? -1 then run_tokens rest (-1) (CPU_SET cpu set)
          else if cpu =? INT_MAX then Undefined
          else run_tokens rest (-1)
                 (set_range (Z.to_nat (cpu - cpu_from + 1)) cpu_from set)
      end
  end.

(** An entry of a CPU list: one numeral, or two numerals joined by a dash. *)
Inductive item : Type :=
  | Single (a : list ascii)
  | Range (a b : list ascii).

Definition item_text (i : item) : list ascii :=
  match i with
  | Single a => a
  | Range a b => a ++ "-"%char :: b
  end.

(** The entries separated by commas. *)
Fixpoint cpulist_text (items : list item) : list ascii :=
  match items with
  | [] => []
  | [i] => item_text i
  | i :: rest => item_text i ++ ","%char :: cpulist_text rest
  end.

(** The cpu numbers an entry lists, and the union over a list. *)
Definition item_lists (i : item) (c : Z) : Prop :=
  match i with
  | Single a => c = numeral_value a
  | Range a b => numeral_value a <= c <= numeral_value b
  end.
Definition listed (items : list item) (c : Z) : Prop :=
  exists i, In i items /\ item_lists i c.

(** Numerals the parser can take: short enough for the 16-byte buffer, and
    with a value below [INT_MAX]. *)
Definition short_numeral (ds : list ascii) : Prop :=
  numeral ds /\ (length ds <= 15)%nat /\ numeral_value ds < INT_MAX.
Definition short_item (i : item) : Prop :=
  match i with
  | Single a => short_numeral a
  | Range a b => short_numeral a /\ short_numeral b
  end.

Definition last_terminator (rest : list item) : terminator :=
  match rest with [] => TEnd | _ => TComma end.

Fixpoint tokens_of (items : list item) : list (list ascii * terminator) :=
  match items with
  | [] => []
  | Single a :: rest => (a, last_terminator rest) :: tokens_of rest
  | Range a b :: rest => (a, TDash) :: (b, last_terminator rest) :: tokens_of rest
  end.

(** The decimal numeral of a number: the numeral of that value that does not
    start with a zero, the single digit zero apart. *)
Definition decimal_numeral (n : Z) (ds : list ascii) : Prop :=
  numeral ds /\ numeral_value ds = n /\ (head ds = Some "0"%char -> ds = ["0"%char]).

(** The tokens with [ws] appended to the last one. *)
Fixpoint pad_last (ws : list ascii) (toks : list (list ascii * terminator))
    : list (list ascii * terminator) :=
  match toks with
  | [] => []
  | [(tok, t)] => [(tok ++ ws, t)]
  | x :: rest => x :: pad_last ws rest
  end.

(** The last numeral of a CPU list. *)
Definition last_numeral (i : item) : list ascii :=
  match i with
  | Single a => a
  | Range _ b => b
  end.


(** The tokens of a CPU list that is followed by the start [a] of a range and
    its dash. *)
Fixpoint tokens_unfinished (items : list item) (a : list ascii)
    : list (list ascii * terminator) :=
  match items with
  | [] => [(a, TDash)]
  | Single x :: rest => (x, TComma) :: tokens_unfinished rest a
  | Range x y :: rest => (x, TDash) :: (y, TComma) :: tokens_unfinished rest a
  end.

(** Being written by a node from [k] on. *)
Definition assigned_from (NodeToPartition : Z -> Z -> Z)
    (kNumaCpuFudge num_partitions nodes : Z)
    (cpus : Z -> cpu_set_t) (k : Z) (i : nat) : Prop :=
  exists node cpu,
    k <= node < nodes /\ NodeToPartition node num_partitions <> 0
    /\ 0 <= cpu < CPU_SETSIZE /\ CPU_ISSET cpu (cpus node) = true
    /\ i = Z.to_nat (cpu + kNumaCpuFudge).

(** The variable asks for NUMA awareness, or is unset and the default does. *)
Definition numa_requested (sys : system) : bool :=
  match getenv sys "TCMALLOC_NUMA_AWARE" with
  | None => default_want_numa_aware sys
  | Some e =>
      String.eqb e "no-binding" || String.eqb e "advisory-binding"
      || String.eqb e "1" || String.eqb e "strict-binding"
  end.

(** The tables once node 0 has been recorded in partition 0. *)
Definition with_node0 (t : tables) : tables :=
  match partition_to_nodes t !! 0%nat with
  | Some w => Tables (cpu_to_scaled_partition t)
                (<[0%nat := Z.lor w 1]> (partition_to_nodes t)) (bind_mode t)
  | None => t
  end.
Definition with_mode (m : NumaBindMode) (t : tables) : tables :=
  Tables (cpu_to_scaled_partition t) (partition_to_nodes t) m.

(** Files of a machine given by the texts of its cpulists. *)
Definition sysfs (texts : list (list item)) (node : Z) : open_result :=
  match texts !! Z.to_nat node with
  | Some items =>
      if 0 <=? node then Opened (File (cpulist_text items) [1%nat])
      else OpenFailed ENOENT
  | None => OpenFailed ENOENT
  end.

(** A machine with three nodes: cpus 0-1, 2-3 and 4,5. *)
Definition three_nodes : list (list item) :=
  [ [Range ["0"%char] ["1"%char]];
    [Range ["2"%char] ["3"%char]];
    [Single ["4"%char]; Single ["5"%char]] ].
Definition three_nodes_items (node : Z) : list item :=
  default [] (three_nodes !! Z.to_nat node).
Definition numa_on : system := System (fun _ => Some "1"%string) true false 6.
Definition fresh_tables : tables := Tables (replicate 1026 0) [0; 0; 0] kAdvisory.


(** A machine of [n] nodes on which node [k] holds the cpu [k] alone: its
    cpulist is the numeral of [k] and a newline. *)
Definition one_cpu_per_node (n : Z) (node : Z) : open_result :=
  if (0 <=? node) && (node <? n)
  then Opened (File (format_zu node ++ ["010"%char]) [])
  else OpenFailed ENOENT.
Definition one_cpu_per_node_system (n : Z) : system :=
  System (fun _ => Some "1"%string) true false n.

End Numa.

(** * Stack-trace table ([stack_trace_table.cc]) *)
Module StackTraceTable.

(** The fields of [StackTrace] that [Iterate] reads. *)
Record StackTrace : Type := {
  requested_size : Z;
  requested_alignment : Z;
  allocated_size : Z;
  access_hint : Z;
  cold_allocated : bool;
  depth : Z;
  stack : list Z
}.

(** A bucket; [count] and [total_weight] are [double]s and enter [Iterate]
    only through the byte estimate below. *)
Record Bucket : Type := {
  hash : Z;
  trace : StackTrace
}.

Inductive Access : Type := Hot | Cold.

(** [Profile::Sample] ([malloc_extension.h]): [sum] and [count] are
    [int64_t], the sizes [size_t]. *)
Record Sample : Type := {
  sum : Z;
  count : Z;
  sample_requested_size : Z;
  sample_requested_alignment : Z;
  sample_allocated_size : Z;
  sample_access_hint : Z;
  access_allocated : Access;
  sample_depth : Z;
  sample_stack : list Z
}.

(** [StackTraceTable]: every entry of [table_] with the chain that hangs off
    it through the [next] pointers. *)
Record table : Type := {
  table_ : list (list Bucket);
  error_ : bool;
  unsample_ : bool
}.

Definition uint64 (x : Z) : Z := x mod 2 ^ 64.
Definition int64 (x : Z) : Z :=
  let y := x mod 2 ^ 64 in if y <? 2 ^ 63 then y else y - 2 ^ 64.

Section Iterate.

(** [estimated_bytes b unsample] is the value of
    [uintptr_t bytes = b->count * AllocatedBytes(b->trace, unsample_) + 0.5],
    a [double] expression truncated to 64 bits; [AllocatedBytes] belongs to
    the sampler. *)
Variable estimated_bytes : Bucket -> bool -> Z.

(** The body of the [while (b != nullptr)] loop: the sample handed to [func]. *)
Definition emit (unsample : bool) (b : Bucket) : Sample :=
  let allocated_size := allocated_size (trace b) in
  let requested_size := requested_size (trace b) in
  let bytes := uint64 (estimated_bytes b unsample) in
  let e_count := int64 (uint64 (bytes + allocated_size / 2) / allocated_size) in
  let e_sum := int64 (uint64 (uint64 e_count * allocated_size)) in
  {| sum := e_sum;
     count := e_count;
     sample_requested_size := requested_size;
     sample_requested_alignment := requested_alignment (trace b);
     sample_allocated_size := allocated_size;
     sample_access_hint := access_hint (trace b);
     access_allocated := if cold_allocated (trace b) then Cold else Hot;
     sample_depth := depth (trace b);
     sample_stack := take (Z.to_nat (depth (trace b))) (stack (trace b)) |}.

(** [while (b != nullptr) { ...; func(e); b = b->next; }] *)
Fixpoint Iterate_chain (unsample : bool) (chain : list Bucket) : list Sample :=
  match chain with
  | [] => []
  | b :: next => emit unsample b :: Iterate_chain unsample next
  end.

(** [for (int i = 0; i < num_buckets(); ++i)] *)
Fixpoint Iterate_buckets (unsample : bool) (buckets : list (list Bucket))
    : list Sample :=
  match buckets with
  | [] => []
  | chain :: rest => Iterate_chain unsample chain ++ Iterate_buckets unsample rest
  end.

(** [StackTraceTable::Iterate]: the samples passed to [func], in order. *)
Definition Iterate (t : table) : list Sample :=
  if error_ t then [] else Iterate_buckets (unsample_ t) (table_ t).

End Iterate.

(** ** A table used in the examples *)

(** Two chains of buckets; the estimates are 1000 bytes for objects of 48
    bytes and 10 bytes for objects of 4 bytes. *)
Definition sample_trace (size : Z) : StackTrace :=
  {| requested_size := size; requested_alignment := 0; allocated_size := size;
     access_hint := 0; cold_allocated := false; depth := 2; stack := [7; 8; 9] |}.
Definition sample_table : table :=
  {| table_ := [[{| hash := 1; trace := sample_trace 48 |}]; [];
                [{| hash := 2; trace := sample_trace 4 |}]];
     error_ := false; unsample_ := true |}.
Definition sample_estimate (b : Bucket) (unsample : bool) : Z :=
  if hash b =? 1 then 1000 else 10.

End StackTraceTable.

(** * Building the stack-trace table ([stack_trace_table.cc]: the
      constructor, [KeyEqual] and [AddTrace])

    A chain of buckets linked by [next] is a list, its head first.  The
    arithmetic of [double], the hash of a trace and the equality of traces
    are not defined in this source: they are parameters, and so are the
    members that [stack_trace_table.h] defines. *)
Module StackTraceTableAdd.

(** [StackTrace] ([logging.h]): the fields the table reads or writes. *)
Record StackTrace : Type := {
  requested_size : Z;
  requested_alignment : Z;
  allocated_size : Z;
  access_hint : Z;
  cold_allocated : bool;
  depth : Z;
  stack : list Z;
  weight : Z
}.

Definition with_weight (t : StackTrace) (w : Z) : StackTrace :=
  {| requested_size := requested_size t;
     requested_alignment := requested_alignment t;
     allocated_size := allocated_size t;
     access_hint := access_hint t;
     cold_allocated := cold_allocated t;
     depth := depth t;
     stack := stack t;
     weight := w |}.

Section AddTrace.

(** [double] with [+], [*], [/], the constant [0.5] and the conversions from
    and to [uintptr_t]. *)
Variable double : Type.
Variable add mul div : double -> double -> double.
Variable one_half : double.
Variable of_uintptr : Z -> double.
Variable to_uintptr : double -> Z.

(** [absl::Hash<StackTrace>()(t)], a [uintptr_t], and [operator==] on
    [StackTrace]. *)
Variable Hash : StackTrace -> Z.
Variable StackTrace_eq : StackTrace -> StackTrace -> bool.

(** [ProfileType], [num_buckets()] as a function of [bucket_mask_], and the
    conversion to the type of the counters [depth_total_] and
    [bucket_total_]: all from [stack_trace_table.h]. *)
Variable ProfileType : Type.
Variable num_buckets : Z -> Z.
Variable counter : Z -> Z.

Record Bucket : Type := {
  hash : Z;
  trace : StackTrace;
  count : double;
  total_weight : double
}.

Record StackTraceTable : Type := {
  type_ : ProfileType;
  period_ : Z;
  bucket_mask_ : Z;
  depth_total_ : Z;
  table_ : list (list Bucket);
  bucket_total_ : Z;
  merge_ : bool;
  error_ : bool;
  unsample_ : bool
}.

(** [StackTraceTable::Bucket::KeyEqual] *)
Definition KeyEqual (b : Bucket) (h : Z) (t : StackTrace) : bool :=
  (hash b =? h) && StackTrace_eq (trace b) t.

(** The constructor: [(1 << 14) - 1] or [0] for the mask, and an array of
    [num_buckets()] empty chains. *)
Definition StackTraceTable_new (type : ProfileType) (period : Z)
    (merge unsample : bool) : StackTraceTable :=
  let mask := if merge then Z.shiftl 1 14 - 1 else 0 in
  {| type_ := type;
     period_ := period;
     bucket_mask_ := mask;
     depth_total_ := 0;
     table_ := replicate (Z.to_nat (num_buckets mask)) [];
     bucket_total_ := 0;
     merge_ := merge;
     error_ := false;
     unsample_ := unsample |}.

(** The body of [if (b != nullptr)]: the bucket found takes the sample in. *)
Definition merged (b : Bucket) (c : double) (t : StackTrace) : Bucket :=
  let count := add (count b) c in
  let total_weight := add (total_weight b) (mul c (of_uintptr (weight t))) in
  {| hash := hash b;
     trace := with_weight (trace b) (to_uintptr (add (div total_weight count) one_half));
     count := count;
     total_weight := total_weight |}.

(** [while (b != nullptr && !b->KeyEqual(h, t)) b = b->next;] followed by the
    update of the bucket found; [None] when the walk ends in [nullptr]. *)
Fixpoint merge_into (chain : list Bucket) (h : Z) (c : double) (t : StackTrace)
    : option (list Bucket) :=
  match chain with
  | [] => None
  | b :: next =>
      if KeyEqual b h t then Some (merged b c t :: next)
      else option_map (cons b) (merge_into next h c t)
  end.

(** [StackTraceTable::AddTrace]; [None] is an index outside [table_]. *)
Definition AddTrace (c : double) (t : StackTrace) (s : StackTraceTable)
    : option StackTraceTable :=
  if error_ s then Some s
  else
    let h := Hash t in
    let idx := Z.to_nat (Z.land h (bucket_mask_ s)) in
    match table_ s !! idx with
    | None => None
    | Some chain =>
        match (if merge_ s then merge_into chain h c t else None) with
        | Some chain' =>
            Some {| type_ := type_ s; period_ := period_ s;
                    bucket_mask_ := bucket_mask_ s;
                    depth_total_ := depth_total_ s;
                    table_ := <[idx := chain']> (table_ s);
                    bucket_total_ := bucket_total_ s;
                    merge_ := merge_ s; error_ := error_ s;
                    unsample_ := unsample_ s |}
        | None =>
            let b := {| hash := h; trace := t; count := c;
                        total_weight := mul (of_uintptr (weight t)) c |} in
            Some {| type_ := type_ s; period_ := period_ s;
                    bucket_mask_ := bucket_mask_ s;
                    depth_total_ := counter (depth_total_ s + depth t);
                    table_ := <[idx := b :: chain]> (table_ s);
                    bucket_total_ := counter (bucket_total_ s + 1);
                    merge_ := merge_ s; error_ := error_ s;
                    unsample_ := unsample_ s |}
        end
    end.

(** A run of [AddTrace] calls, the first element of [calls] first. *)
Fixpoint AddTrace_calls (calls : list (double * StackTrace)) (s : StackTraceTable)
    : option StackTraceTable :=
  match calls with
  | [] => Some s
  | (c, t) :: rest =>
      match AddTrace c t s with
      | Some s' => AddTrace_calls rest s'
      | None => None
      end
  end.

(** The bucket [AddTrace] makes for a sample that it does not merge. *)
Definition fresh (ct : double * StackTrace) : Bucket :=
  {| hash := Hash (snd ct); trace := snd ct; count := fst ct;
     total_weight := mul (of_uintptr (weight (snd ct))) (fst ct) |}.

End AddTrace.

Arguments hash {double} b.
Arguments trace {double} b.
Arguments count {double} b.
Arguments total_weight {double} b.
Arguments bucket_mask_ {double ProfileType} s.
Arguments depth_total_ {double ProfileType} s.
Arguments table_ {double ProfileType} s.
Arguments bucket_total_ {double ProfileType} s.
Arguments merge_ {double ProfileType} s.
Arguments error_ {double ProfileType} s.
Arguments unsample_ {double ProfileType} s.

(** ** Vocabulary of the statements *)

(** Every bucket lies in the chain that its hash selects, and the mask
    selects a chain of the table. *)
Definition placed {double ProfileType : Type}
    (s : StackTraceTable double ProfileType) : Prop :=
  0 <= bucket_mask_ s < Z.of_nat (length (table_ s))
  /\ forall (i : nat) chain b,
       table_ s !! i = Some chain -> In b chain ->
       Z.to_nat (Z.land (hash b) (bucket_mask_ s)) = i.

(** Instances of the parameters for the examples: integers for [double],
    with integer division and with 0 for the constant [0.5]; the hash of a
    trace is its depth, and two traces are equal when their stacks are. *)
Definition sample (d w : Z) : StackTrace :=
  {| requested_size := 16; requested_alignment := 0; allocated_size := 16;
     access_hint := 0; cold_allocated := false; depth := d; stack := [d; 7];
     weight := w |}.
Definition stack_eq (a b : StackTrace) : bool :=
  bool_decide (stack a = stack b).

End StackTraceTableAdd.

(** * Proofs *)

Module SlabFacts.
Import Slab.

#[local] Arguments wrap64 : simpl never.
#[local] Arguments wrap32 : simpl never.
#[local] Arguments add64 : simpl never.
#[local] Arguments lsl64 : simpl never.
#[local] Arguments half : simpl never.
#[local] Arguments set_half : simpl never.
#[local] Arguments Z.mul : simpl never.
#[local] Arguments Z.add : simpl never.
#[local] Arguments Z.sub : simpl never.
#[local] Arguments Z.leb : simpl never.
#[local] Arguments Z.eqb : simpl never.
#[local] Arguments Z.land : simpl never.

Lemma testbit_65535 i : 0 <= i -> Z.testbit 65535 i = (i <? 16).
Proof. intros Hi. change 65535 with (Z.ones 16). apply Z.testbit_ones_nonneg; lia. Qed.

Lemma half_spec w off i :
  0 <= i -> 0 <= off ->
  Z.testbit (half w off) i = Z.testbit w (i + 8 * off) && (i <? 16).
Proof.
  intros Hi Ho. unfold half.
  rewrite Z.land_spec, Z.shiftr_spec, testbit_65535 by lia. reflexivity.
Qed.

Lemma set_half_spec w off v i :
  0 <= i -> 0 <= off ->
  Z.testbit (set_half w off v) i =
    if (8 * off <=? i) && (i <? 8 * off + 16) then Z.testbit v (i - 8 * off)
    else Z.testbit w i.
Proof.
  intros Hi Ho. unfold set_half.
  rewrite Z.lor_spec, Z.land_spec, Z.lnot_spec, !Z.shiftl_spec, Z.land_spec by lia.
  destruct (Z.leb_spec (8 * off) i); simpl.
  - rewrite !testbit_65535 by lia.
    destruct (Z.ltb_spec i (8 * off + 16)), (Z.ltb_spec (i - 8 * off) 16); try lia; simpl.
    + rewrite andb_false_r, andb_true_r. reflexivity.
    + rewrite andb_false_r, andb_true_r, orb_false_r. reflexivity.
  - rewrite !(Z.testbit_neg_r _ (i - 8 * off)) by lia. simpl.
    rewrite andb_true_r, orb_false_r. reflexivity.
Qed.

Lemma half_range w off : 0 <= half w off < 65536.
Proof.
  unfold half. change 65535 with (Z.ones 16). rewrite Z.land_ones by lia.
  change (2 ^ 16) with 65536. zlia.
Qed.

Lemma half_set_half_same w off v :
  0 <= off -> half (set_half w off v) off = v mod 65536.
Proof.
  intros Ho. change 65536 with (2 ^ 16). rewrite <- Z.land_ones by lia.
  apply Z.bits_inj'. intros i Hi.
  rewrite half_spec, set_half_spec, Z.land_spec by lia.
  change (Z.ones 16) with 65535. rewrite testbit_65535 by lia.
  destruct (Z.ltb_spec i 16); [| rewrite !andb_false_r; reflexivity].
  replace ((8 * off <=? i + 8 * off) && (i + 8 * off <? 8 * off + 16)) with true
    by (symmetry; apply andb_true_iff; split; [apply Z.leb_le | apply Z.ltb_lt]; lia).
  f_equal. f_equal. lia.
Qed.

Lemma half_set_half_other w off off' v :
  0 <= off -> 0 <= off' -> off + 2 <= off' \/ off' + 2 <= off ->
  half (set_half w off v) off' = half w off'.
Proof.
  intros Ho Ho' Hd. apply Z.bits_inj'. intros i Hi.
  rewrite !half_spec, set_half_spec by lia.
  destruct (Z.ltb_spec i 16); [| rewrite !andb_false_r; reflexivity].
  replace ((8 * off <=? i + 8 * off') && (i + 8 * off' <? 8 * off + 16)) with false;
    [reflexivity |].
  symmetry. apply andb_false_iff.
  destruct Hd; [right; apply Z.ltb_ge | left; apply Z.leb_gt]; lia.
Qed.

Lemma lsl64_3 i : 0 <= i < 2 ^ 61 -> lsl64 i 3 = 8 * i.
Proof.
  intros Hi. unfold lsl64, wrap64. change (3 mod 64) with 3.
  rewrite Z.shiftl_mul_pow2 by lia. change (2 ^ 3) with 8.
  change (2 ^ 61) with 2305843009213693952 in Hi.
  change (2 ^ 64) with 18446744073709551616. zlia.
Qed.

Lemma slot_inj region i j :
  0 <= i < 2 ^ 61 -> 0 <= j < 2 ^ 61 -> slot region i = slot region j -> i = j.
Proof.
  intros Hi Hj. unfold slot. rewrite !lsl64_3 by assumption.
  unfold add64, wrap64.
  change (2 ^ 61) with 2305843009213693952 in *.
  change (2 ^ 64) with 18446744073709551616. zlia.
Qed.

Lemma slot_succ region i :
  0 <= i -> i + 1 < 2 ^ 61 -> add64 (slot region i) 8 = slot region (i + 1).
Proof.
  intros Hi Hj. unfold slot. rewrite !lsl64_3 by lia.
  unfold add64, wrap64.
  change (2 ^ 61) with 2305843009213693952 in *.
  change (2 ^ 64) with 18446744073709551616. zlia.
Qed.

(** The header word of a class is not one of its slots as soon as the class
    index lies below [begin]: the header array precedes the object slots. *)
Lemma hdr_not_slot region cl i :
  0 <= cl < i -> i < 65536 -> slot region i <> slot region cl.
Proof.
  intros Hcl Hi E. apply slot_inj in E; change (2 ^ 61) with 2305843009213693952; lia.
Qed.

(** Symbolic execution of the two single-object routines. *)
Lemma Push_run (m : machine) (slabs cl p shift f : Z) :
  let cpu := wrap32 (cpu_id m) in
  let region := CpuMemoryStart slabs shift m in
  let hdr := slot region cl in
  let cur := hdr_current m hdr in
  TcmallocSlab_Internal_Push slabs cl p shift f m =
    if hdr_end m hdr <=? cur
    then Ok (TailCall f cpu)
           (Machine (cpu_id m) (mem m) (trace m ++ [Ldrh hdr 0; Ldrh hdr 6]))
    else Ok (Return cpu)
           (Machine (cpu_id m)
              (fun a => if a =? hdr
                        then set_half (if hdr =? slot region cur then wrap64 p
                                       else mem m hdr) 0 (wrap32 (cur + 1))
                        else if a =? slot region cur then wrap64 p else mem m a)
              (trace m ++ [Ldrh hdr 0; Ldrh hdr 6; Str (slot region cur) (wrap64 p);
                           Strh hdr 0 (Z.land (wrap32 (cur + 1)) 65535)])).
Proof.
  cbv zeta.
  unfold TcmallocSlab_Internal_Push, bind, FETCH_CPU, ldrh, str, strh, ret, log,
    hdr_end, hdr_current, slot, CpuMemoryStart.
  cbn [mem cpu_id trace].
  match goal with |- context [if ?c then _ else _] => destruct c end;
    cbn [mem cpu_id trace]; rewrite <- ?app_assoc; reflexivity.
Qed.

Lemma Pop_run (m : machine) (slabs cl f shift : Z) :
  let cpu := wrap32 (cpu_id m) in
  let region := CpuMemoryStart slabs shift m in
  let hdr := slot region cl in
  let cur := hdr_current m hdr in
  TcmallocSlab_Internal_Pop slabs cl f shift m =
    if cur <=? hdr_begin m hdr
    then Ok (TailCall f cpu)
           (Machine (cpu_id m) (mem m) (trace m ++ [Ldrh hdr 0; Ldrh hdr 4]))
    else Ok (Return (mem m (slot region (wrap32 (cur - 1)))))
           (Machine (cpu_id m)
              (fun a => if a =? hdr
                        then set_half (mem m hdr) 0 (wrap32 (cur - 1))
                        else mem m a)
              (trace m ++ [Ldrh hdr 0; Ldrh hdr 4;
                           Ldr (slot region (wrap32 (cur - 1)));
                           Strh hdr 0 (Z.land (wrap32 (cur - 1)) 65535)])).
Proof.
  cbv zeta.
  unfold TcmallocSlab_Internal_Pop, bind, FETCH_CPU, ldrh, ldr, strh, ret, log,
    hdr_begin, hdr_current, slot, CpuMemoryStart.
  cbn [mem cpu_id trace].
  match goal with |- context [if ?c then _ else _] => destruct c end;
    cbn [mem cpu_id trace]; rewrite <- ?app_assoc; reflexivity.
Qed.

Lemma wrap32_small x : 0 <= x < 2 ^ 32 -> wrap32 x = x.
Proof. intros H. unfold wrap32. apply Z.mod_small. exact H. Qed.

Lemma land_65535_small x : 0 <= x < 65536 -> Z.land x 65535 = x.
Proof.
  intros H. change 65535 with (Z.ones 16). rewrite Z.land_ones by lia.
  apply Z.mod_small. exact H.
Qed.

(** C2.  Take a slab header with [begin <= current <= end].  A single-object
    [Push] with [current = end] leaves by one tail call to the overflow
    handler [f] with the executing cpu id in [x0]; its only memory accesses
    are the loads of the two header fields, so it writes no slot and no
    index.  A [Pop] with [begin = current] leaves by one tail call to the
    underflow handler with the cpu id; it too only loads two header fields,
    so it reads no slot and writes no index.  Otherwise [Push] stores the
    pointer at slot [current], then stores [current + 1] into the header and
    returns the cpu id; [Pop] loads slot [current - 1], stores [current - 1]
    into the header and returns the object it loaded. *)
Theorem push_pop_boundary (m : machine) (slabs cl p shift f : Z) :
  let cpu := wrap32 (cpu_id m) in
  let region := CpuMemoryStart slabs shift m in
  let hdr := slot region cl in
  let cur := hdr_current m hdr in
  let b := hdr_begin m hdr in
  let e := hdr_end m hdr in
  b <= cur <= e ->
  (cur = e ->
     TcmallocSlab_Internal_Push slabs cl p shift f m =
       Ok (TailCall f cpu)
          (Machine (cpu_id m) (mem m) (trace m ++ [Ldrh hdr 0; Ldrh hdr 6])))
  /\ (b = cur ->
     TcmallocSlab_Internal_Pop slabs cl f shift m =
       Ok (TailCall f cpu)
          (Machine (cpu_id m) (mem m) (trace m ++ [Ldrh hdr 0; Ldrh hdr 4])))
  /\ (cur < e ->
     exists m',
       TcmallocSlab_Internal_Push slabs cl p shift f m = Ok (Return cpu) m'
       /\ trace m' = trace m ++ [Ldrh hdr 0; Ldrh hdr 6;
                                 Str (slot region cur) (wrap64 p);
                                 Strh hdr 0 (cur + 1)]
       /\ hdr_current m' hdr = cur + 1
       /\ (forall a, a <> hdr ->
             mem m' a = if a =? slot region cur then wrap64 p else mem m a)
       /\ (slot region cur <> hdr ->
             mem m' (slot region cur) = wrap64 p
             /\ hdr_begin m' hdr = b /\ hdr_end m' hdr = e))
  /\ (b < cur ->
     exists m',
       TcmallocSlab_Internal_Pop slabs cl f shift m =
         Ok (Return (mem m (slot region (cur - 1)))) m'
       /\ trace m' = trace m ++ [Ldrh hdr 0; Ldrh hdr 4;
                                 Ldr (slot region (cur - 1));
                                 Strh hdr 0 (cur - 1)]
       /\ hdr_current m' hdr = cur - 1
       /\ hdr_begin m' hdr = b /\ hdr_end m' hdr = e
       /\ (forall a, a <> hdr -> mem m' a = mem m a)).
Proof.
  intros cpu region hdr cur b e Hinv.
  pose proof (half_range (mem m hdr) 0) as Hc.
  pose proof (half_range (mem m hdr) 4) as Hb.
  pose proof (half_range (mem m hdr) 6) as He.
  change (half (mem m hdr) 0) with cur in Hc.
  change (half (mem m hdr) 4) with b in Hb.
  change (half (mem m hdr) 6) with e in He.
  pose proof (Push_run m slabs cl p shift f) as HPush.
  pose proof (Pop_run m slabs cl f shift) as HPop.
  cbv zeta in HPush, HPop.
  change (wrap32 (cpu_id m)) with cpu in HPush, HPop.
  change (CpuMemoryStart slabs shift m) with region in HPush, HPop.
  change (slot region cl) with hdr in HPush, HPop.
  change (hdr_current m hdr) with cur in HPush, HPop.
  change (hdr_end m hdr) with e in HPush.
  change (hdr_begin m hdr) with b in HPop.
  assert (Hw1 : wrap32 (cur + 1) = cur + 1)
    by (apply wrap32_small; change (2 ^ 32) with 4294967296; lia).
  split; [| split; [| split]].
  - intros Hfull. rewrite HPush.
    replace (e <=? cur) with true by (symmetry; apply Z.leb_le; lia). reflexivity.
  - intros Hempty. rewrite HPop.
    replace (cur <=? b) with true by (symmetry; apply Z.leb_le; lia). reflexivity.
  - intros Hroom. rewrite HPush.
    replace (e <=? cur) with false by (symmetry; apply Z.leb_gt; lia).
    rewrite Hw1, (land_65535_small (cur + 1)) by lia.
    eexists. split; [reflexivity |]. cbn [mem trace].
    split; [reflexivity |]. split; [| split].
    + unfold hdr_current. cbn [mem]. rewrite Z.eqb_refl.
      rewrite half_set_half_same by lia. apply Z.mod_small. lia.
    + intros a Ha. replace (a =? hdr) with false by (symmetry; apply Z.eqb_neq; exact Ha).
      reflexivity.
    + intros Hne. unfold hdr_begin, hdr_end. cbn [mem].
      replace (slot region cur =? hdr) with false by (symmetry; apply Z.eqb_neq; exact Hne).
      replace (hdr =? slot region cur) with false
        by (symmetry; apply Z.eqb_neq; congruence).
      rewrite !Z.eqb_refl. rewrite !half_set_half_other by lia. auto.
  - intros Hitems. rewrite HPop.
    replace (cur <=? b) with false by (symmetry; apply Z.leb_gt; lia).
    assert (Hw2 : wrap32 (cur - 1) = cur - 1)
      by (apply wrap32_small; change (2 ^ 32) with 4294967296; lia).
    rewrite Hw2, (land_65535_small (cur - 1)) by lia.
    eexists. split; [reflexivity |]. cbn [mem trace].
    split; [reflexivity |].
    unfold hdr_current, hdr_begin, hdr_end. cbn [mem]. rewrite !Z.eqb_refl.
    rewrite half_set_half_same, !half_set_half_other by lia.
    split; [apply Z.mod_small; lia |]. split; [reflexivity |]. split; [reflexivity |].
    intros a Ha. replace (a =? hdr) with false by (symmetry; apply Z.eqb_neq; exact Ha).
    reflexivity.
Qed.

(** The push loop, started with [k >= 1] elements to move: it copies
    [batch[i-1], batch[i-2], ..., batch[i-k]] into slots [c, c+1, ..., c+k-1]. *)
Lemma PushBatch_loop_spec (batch : list Z) (region : Z) (k : nat) :
  forall (fuel : nat) (c i : Z) (m : machine),
    (1 <= k <= fuel)%nat ->
    0 <= c -> c + Z.of_nat k < 2 ^ 61 ->
    Z.of_nat k <= i <= Z.of_nat (length batch) ->
    exists m',
      PushBatch_loop fuel batch (slot region c) i (slot region (c + Z.of_nat k)) m
        = Ok tt m'
      /\ cpu_id m' = cpu_id m
      /\ (forall j, 0 <= j < Z.of_nat k ->
            mem m' (slot region (c + j)) = wrap64 (nth (Z.to_nat (i - 1 - j)) batch 0))
      /\ (forall a, (forall j, 0 <= j < Z.of_nat k -> a <> slot region (c + j)) ->
            mem m' a = mem m a).
Proof.
  induction k as [| k IH]; intros fuel c i m Hk Hc Hck Hi; [lia |].
  destruct fuel as [| fuel]; [lia |].
  cbn [PushBatch_loop]. unfold bind at 1. unfold ldr_batch.
  replace ((0 <=? i - 1) && (i - 1 <? Z.of_nat (length batch))) with true
    by (symmetry; apply andb_true_iff; split; [apply Z.leb_le | apply Z.ltb_lt]; lia).
  unfold bind at 1. unfold str at 1. cbn [mem cpu_id trace log].
  rewrite slot_succ by lia.
  destruct (Nat.eq_dec k 0%nat) as [-> | Hk0].
  - (* last element *)
    change (Z.of_nat 1) with 1. rewrite Z.eqb_refl. unfold ret.
    eexists. split; [reflexivity |]. cbn [mem cpu_id]. split; [reflexivity |]. split.
    + intros j Hj. assert (j = 0) as -> by lia. rewrite Z.add_0_r, Z.sub_0_r.
      rewrite Z.eqb_refl. reflexivity.
    + intros a Ha. specialize (Ha 0 ltac:(lia)). rewrite Z.add_0_r in Ha.
      replace (a =? slot region c) with false by (symmetry; apply Z.eqb_neq; exact Ha).
      reflexivity.
  - replace (slot region (c + 1) =? slot region (c + Z.of_nat (S k))) with false.
    2:{ symmetry. apply Z.eqb_neq. intros E. apply slot_inj in E; lia. }
    replace (c + Z.of_nat (S k)) with (c + 1 + Z.of_nat k) by lia.
    edestruct (IH fuel (c + 1) (i - 1)) as (m' & Hrun & Hcpu & Hslots & Hframe);
      [lia | lia | lia | lia | rewrite Hrun].
    exists m'. split; [reflexivity |]. split; [exact Hcpu |]. split.
    + intros j Hj. destruct (Z.eq_dec j 0) as [-> | Hj0].
      * rewrite Z.add_0_r, Z.sub_0_r, Hframe.
        -- cbn [mem]. rewrite Z.eqb_refl. reflexivity.
        -- intros j Hj' E. apply slot_inj in E; lia.
      * replace (c + j) with (c + 1 + (j - 1)) by lia.
        rewrite Hslots by lia. do 3 f_equal. lia.
    + intros a Ha. rewrite Hframe.
      * cbn [mem]. specialize (Ha 0 ltac:(lia)). rewrite Z.add_0_r in Ha.
        replace (a =? slot region c) with false by (symmetry; apply Z.eqb_neq; exact Ha).
        reflexivity.
      * intros j Hj. replace (c + 1 + j) with (c + (j + 1)) by lia. apply Ha. lia.
Qed.

Lemma PushBatch_run (m : machine) (slabs cl : Z) (batch : list Z) (x3 : Z) (fuel : nat) :
  let region := CpuMemoryStart slabs FIXED_SLAB_SHIFT m in
  let hdr := slot region cl in
  let cur := hdr_current m hdr in
  let e := hdr_end m hdr in
  let amount := if wrap32 x3 <=? wrap32 (e - cur) then wrap32 x3 else wrap32 (e - cur) in
  let m0 := Machine (cpu_id m) (mem m) (trace m ++ [Ldrh hdr 0; Ldrh hdr 6]) in
  TcmallocSlab_Internal_PushBatch_FixedShift fuel slabs cl batch x3 m =
    if e <=? cur then Ok 0 m0
    else
      match PushBatch_loop fuel batch (slot region cur) x3
              (slot region (add64 cur amount)) m0 with
      | Ok _ m1 =>
          Ok amount
             (Machine (cpu_id m1)
                (fun a => if a =? hdr then set_half (mem m1 hdr) 0 (add64 cur amount)
                          else mem m1 a)
                (trace m1 ++ [Strh hdr 0 (Z.land (add64 cur amount) 65535)]))
      | Fault m1 => Fault m1
      | OutOfFuel => OutOfFuel
      end.
Proof.
  cbv zeta.
  unfold TcmallocSlab_Internal_PushBatch_FixedShift, hdr_end, hdr_current, slot,
    CpuMemoryStart.
  unfold bind at 1. unfold FETCH_CPU at 1.
  unfold bind at 1. unfold ldrh at 1.
  unfold bind at 1. unfold ldrh at 1. unfold log. cbn [mem cpu_id trace].
  rewrite <- app_assoc. cbn [app].
  match goal with |- context [if ?c then ret 0 else _] => destruct c end;
    [reflexivity |].
  unfold bind at 1.
  match goal with |- context [PushBatch_loop ?f ?b ?x ?y ?z ?mm] =>
    destruct (PushBatch_loop f b x y z mm) end; reflexivity.
Qed.

(** C1, as amended.  Take a slab header with [begin <= current <= end] and a
    batch of [n] pointers.  When [current >= end], [PushBatch] returns 0 and
    writes nothing.  Otherwise, for [1 <= n < 2^32] and a header word that
    lies below the slots of its class, it stores the last
    [k = min(n, end - current)] pointers of the batch into the slots
    [current, current + k): the last-supplied pointer into slot [current],
    the one before it into the next slot, and so on; it sets [current] to
    [current + k], changes nothing else, and returns [k]. *)
Theorem PushBatch_pushes_end_of_batch
    (m : machine) (slabs cl : Z) (batch : list Z) (fuel : nat) :
  let n := Z.of_nat (length batch) in
  let region := CpuMemoryStart slabs FIXED_SLAB_SHIFT m in
  let hdr := slot region cl in
  let cur := hdr_current m hdr in
  let b := hdr_begin m hdr in
  let e := hdr_end m hdr in
  let k := Z.min n (e - cur) in
  b <= cur <= e ->
  (e <= cur ->
     TcmallocSlab_Internal_PushBatch_FixedShift fuel slabs cl batch n m =
       Ok 0 (Machine (cpu_id m) (mem m) (trace m ++ [Ldrh hdr 0; Ldrh hdr 6])))
  /\ (cur < e -> 1 <= n < 2 ^ 32 -> 0 <= cl < b -> (Z.to_nat k <= fuel)%nat ->
     exists m',
       TcmallocSlab_Internal_PushBatch_FixedShift fuel slabs cl batch n m = Ok k m'
       /\ hdr_current m' hdr = cur + k
       /\ hdr_begin m' hdr = b /\ hdr_end m' hdr = e
       /\ (forall j, 0 <= j < k ->
             mem m' (slot region (cur + j)) =
               wrap64 (nth (Z.to_nat (n - 1 - j)) batch 0))
       /\ (forall a, a <> hdr -> (forall j, 0 <= j < k -> a <> slot region (cur + j)) ->
             mem m' a = mem m a)).
Proof.
  intros n region hdr cur b e k Hinv.
  pose proof (half_range (mem m hdr) 0) as Hc.
  pose proof (half_range (mem m hdr) 4) as Hb.
  pose proof (half_range (mem m hdr) 6) as He.
  change (half (mem m hdr) 0) with cur in Hc.
  change (half (mem m hdr) 4) with b in Hb.
  change (half (mem m hdr) 6) with e in He.
  pose proof (PushBatch_run m slabs cl batch n fuel) as Hrun0. cbv zeta in Hrun0.
  change (CpuMemoryStart slabs FIXED_SLAB_SHIFT m) with region in Hrun0.
  change (slot region cl) with hdr in Hrun0.
  change (hdr_current m hdr) with cur in Hrun0.
  change (hdr_end m hdr) with e in Hrun0.
  rewrite Hrun0. clear Hrun0.
  split.
  - intros Hfull. replace (e <=? cur) with true by (symmetry; apply Z.leb_le; lia).
    reflexivity.
  - intros Hroom Hn Hcl Hfuel.
    replace (e <=? cur) with false by (symmetry; apply Z.leb_gt; lia).
    change (2 ^ 32) with 4294967296 in Hn.
    rewrite (wrap32_small (e - cur)) by (change (2 ^ 32) with 4294967296; lia).
    rewrite (wrap32_small n) by (change (2 ^ 32) with 4294967296; lia).
    assert (Hk : (if n <=? e - cur then n else e - cur) = k).
    { unfold k. destruct (Z.leb_spec n (e - cur)); lia. }
    rewrite Hk.
    assert (Hk1 : 1 <= k <= e - cur) by (unfold k; lia).
    assert (Hadd : add64 cur k = cur + k).
    { unfold add64, wrap64. apply Z.mod_small. change (2 ^ 64) with 18446744073709551616. lia. }
    rewrite Hadd.
    set (m0 := {| cpu_id := cpu_id m; mem := mem m;
                  trace := trace m ++ [Ldrh hdr 0; Ldrh hdr 6] |}).
    destruct (PushBatch_loop_spec batch region (Z.to_nat k) fuel cur n m0)
      as (m1 & Hrun & Hcpu & Hslots & Hframe);
      [lia | lia | change (2 ^ 61) with 2305843009213693952; lia | lia |].
    rewrite Z2Nat.id in Hrun, Hslots, Hframe by lia.
    rewrite Hrun.
    eexists. split; [reflexivity |].
    assert (Hhdr : forall j, 0 <= j < k -> hdr <> slot region (cur + j)).
    { intros j Hj E. symmetry in E. revert E. apply hdr_not_slot; lia. }
    unfold hdr_current, hdr_begin, hdr_end. cbn [mem]. rewrite !Z.eqb_refl.
    rewrite half_set_half_same, !half_set_half_other by lia.
    rewrite (Hframe hdr Hhdr).
    split; [apply Z.mod_small; lia |]. split; [reflexivity |]. split; [reflexivity |].
    split.
    + intros j Hj.
      replace (slot region (cur + j) =? hdr) with false
        by (symmetry; apply Z.eqb_neq; intros E; apply (Hhdr j Hj); congruence).
      apply Hslots. exact Hj.
    + intros a Ha Hs.
      replace (a =? hdr) with false by (symmetry; apply Z.eqb_neq; exact Ha).
      apply Hframe. exact Hs.
Qed.

Lemma push_pop_boundary_witness :
  (hdr_begin (slab_with 10 8 10) 16 <= hdr_current (slab_with 10 8 10) 16
     <= hdr_end (slab_with 10 8 10) 16)
  /\ TcmallocSlab_Internal_Push 0 2 77 18 4096 (slab_with 10 8 10)
       = Ok (TailCall 4096 0)
            (Machine 0 (mem (slab_with 10 8 10)) [Ldrh 16 0; Ldrh 16 6])
  /\ TcmallocSlab_Internal_Pop 0 2 4096 18 (slab_with 8 8 10)
       = Ok (TailCall 4096 0)
            (Machine 0 (mem (slab_with 8 8 10)) [Ldrh 16 0; Ldrh 16 4])
  /\ (exists m', TcmallocSlab_Internal_Push 0 2 77 18 4096 (slab_with 9 8 10)
                   = Ok (Return 0) m'
                 /\ hdr_current m' 16 = 10 /\ mem m' 72 = 77)
  /\ (exists m', TcmallocSlab_Internal_Pop 0 2 4096 18 (slab_with 9 8 10)
                   = Ok (Return 1001) m'
                 /\ hdr_current m' 16 = 8).
Proof.
  assert (H1 : hdr_begin (slab_with 10 8 10) 16 <= hdr_current (slab_with 10 8 10) 16
                 <= hdr_end (slab_with 10 8 10) 16) by (vm_compute; intuition discriminate).
  assert (H2 : hdr_begin (slab_with 8 8 10) 16 <= hdr_current (slab_with 8 8 10) 16
                 <= hdr_end (slab_with 8 8 10) 16) by (vm_compute; intuition discriminate).
  assert (H3 : hdr_begin (slab_with 9 8 10) 16 <= hdr_current (slab_with 9 8 10) 16
                 <= hdr_end (slab_with 9 8 10) 16) by (vm_compute; intuition discriminate).
  split; [exact H1 |].
  split; [exact (proj1 (push_pop_boundary (slab_with 10 8 10) 0 2 77 18 4096 H1) eq_refl) |].
  split; [exact (proj1 (proj2 (push_pop_boundary (slab_with 8 8 10) 0 2 77 18 4096 H2)) eq_refl) |].
  split.
  - destruct (proj1 (proj2 (proj2 (push_pop_boundary (slab_with 9 8 10) 0 2 77 18 4096 H3))))
      as (m' & Hrun & _ & Hcur & _ & Hslot); [vm_compute; reflexivity |].
    exists m'. split; [exact Hrun |]. split; [exact Hcur |].
    apply Hslot. vm_compute. discriminate.
  - destruct (proj2 (proj2 (proj2 (push_pop_boundary (slab_with 9 8 10) 0 2 77 18 4096 H3))))
      as (m' & Hrun & _ & Hcur & _); [vm_compute; reflexivity |].
    exists m'. split; [exact Hrun |]. exact Hcur.
Defined.

(** C1 as stated fails: with three pointers offered and room for two, the
    routine stores the last two, [33] then [22]; the first pointer [11], which
    is among "the first min(n, end - current)", is not stored, and [33], which
    is not among them, is.  With an empty batch and spare capacity the loop
    body runs before its exit test and loads [batch[-1]]. *)
Lemma PushBatch_first_pointers_counterexample :
  (exists m',
     TcmallocSlab_Internal_PushBatch_FixedShift 3 0 2 [11; 22; 33] 3 (slab_with 8 8 10)
       = Ok 2 m'
     /\ mem m' 64 = 33 /\ mem m' 72 = 22 /\ hdr_current m' 16 = 10
     /\ ~ In (mem m' 64) (firstn 2 [11; 22; 33])
     /\ ~ In 11 [mem m' 64; mem m' 72])
  /\ (forall fuel,
        TcmallocSlab_Internal_PushBatch_FixedShift (S fuel) 0 2 [] 0 (slab_with 8 8 10)
          = Fault (Machine 0 (mem (slab_with 8 8 10)) [Ldrh 16 0; Ldrh 16 6])).
Proof.
  split.
  - eexists. split; [vm_compute; reflexivity |].
    cbn [mem]. repeat split; try (vm_compute; reflexivity).
    + vm_compute. intuition discriminate.
    + vm_compute. intuition discriminate.
  - intros fuel. rewrite PushBatch_run. reflexivity.
Qed.

Lemma PushBatch_pushes_end_of_batch_witness :
  (hdr_begin (slab_with 8 8 10) 16 <= hdr_current (slab_with 8 8 10) 16
     <= hdr_end (slab_with 8 8 10) 16)
  /\ exists m',
       TcmallocSlab_Internal_PushBatch_FixedShift 5 0 2 [11; 22; 33] 3 (slab_with 8 8 10)
         = Ok 2 m'
       /\ hdr_current m' 16 = 10
       /\ mem m' 64 = 33 /\ mem m' 72 = 22.
Proof.
  assert (H : hdr_begin (slab_with 8 8 10) 16 <= hdr_current (slab_with 8 8 10) 16
                <= hdr_end (slab_with 8 8 10) 16) by (vm_compute; intuition discriminate).
  split; [exact H |].
  destruct (proj2 (PushBatch_pushes_end_of_batch (slab_with 8 8 10) 0 2 [11; 22; 33] 5%nat H))
    as (m' & Hrun & Hcur & _ & _ & Hslots & _).
  - vm_compute. reflexivity.
  - vm_compute. intuition discriminate.
  - vm_compute. intuition discriminate.
  - vm_compute. lia.
  - exists m'. split; [exact Hrun |]. split; [exact Hcur |].
    split; [exact (Hslots 0 ltac:(vm_compute; intuition discriminate))
           | exact (Hslots 1 ltac:(vm_compute; intuition discriminate))].
Defined.

(** ** The compare-and-exchange, the fixed-shift routines and [PopBatch] *)

Lemma wrap32_range x : 0 <= wrap32 x < 2 ^ 32.
Proof. unfold wrap32. apply Z.mod_pos_bound. reflexivity. Qed.

(** X1.  [PerCpuCmpxchg64] returns the target cpu exactly when it ran on
    that cpu and [*p] held [old_val]; it has then stored [new_val] at [p]
    and changed nothing else.  In every other case it leaves memory as it
    was: run on another cpu it returns that cpu's id without touching [p] at
    all, and on the target cpu with another value in [*p] it returns [-1]. *)
Theorem PerCpuCmpxchg64_exchanges_on_match (m : machine) (target p old new : Z) :
  let cpu := wrap32 (cpu_id m) in
  let success := (wrap32 target =? cpu) && (wrap64 (mem m p) =? wrap64 old) in
  exists r m',
    TcmallocSlab_Internal_PerCpuCmpxchg64 target p old new m = Ok r m'
    /\ cpu_id m' = cpu_id m
    /\ (r = wrap32 target <-> success = true)
    /\ (success = true ->
          (forall a, mem m' a = if a =? p then wrap64 new else mem m a)
          /\ trace m' = trace m ++ [Ldr p; Str p (wrap64 new)])
    /\ (success = false ->
          mem m' = mem m
          /\ (cpu <> wrap32 target -> r = cpu /\ trace m' = trace m)
          /\ (cpu = wrap32 target -> r = 2 ^ 64 - 1 /\ trace m' = trace m ++ [Ldr p])).
Proof.
  intros cpu success. subst success.
  pose proof (wrap32_range (cpu_id m)) as Hcpu. fold cpu in Hcpu.
  change (2 ^ 32) with 4294967296 in Hcpu.
  unfold TcmallocSlab_Internal_PerCpuCmpxchg64.
  unfold bind at 1. unfold FETCH_CPU at 1. fold cpu.
  destruct (Z.eqb_spec (wrap32 target) cpu) as [Hsame | Hother]; cbn [negb andb].
  - unfold bind at 1. unfold ldr at 1. unfold log. cbn [mem cpu_id trace].
    destruct (Z.eqb_spec (wrap64 (mem m p)) (wrap64 old)) as [Hval | Hval]; cbn [negb].
    + unfold bind, str, ret. cbn [mem cpu_id trace].
      eexists _, _. split; [reflexivity |]. cbn [mem cpu_id trace].
      split; [reflexivity |]. split; [split; auto |]. split; [| discriminate].
      intros _. split; [reflexivity |]. rewrite <- app_assoc. reflexivity.
    + unfold ret. eexists _, _. split; [reflexivity |]. cbn [mem cpu_id trace].
      split; [reflexivity |]. split.
      * split; [| discriminate]. intros E. rewrite Hsame in E.
        change (wrap64 (-1)) with 18446744073709551615 in E. lia.
      * split; [discriminate |]. intros _. split; [reflexivity |].
        split; [congruence |]. intros _. split; reflexivity.
  - unfold ret. exists cpu, m. split; [reflexivity |]. split; [reflexivity |].
    split; [split; [congruence | discriminate] |]. split; [discriminate |].
    intros _. split; [reflexivity |]. split; [auto | congruence].
Qed.

Lemma slot_pred region i :
  1 <= i < 2 ^ 61 -> add64 (slot region i) (-8) = slot region (i - 1).
Proof.
  intros Hi. unfold slot. rewrite !lsl64_3 by lia.
  unfold add64, wrap64.
  change (2 ^ 61) with 2305843009213693952 in *.
  change (2 ^ 64) with 18446744073709551616. zlia.
Qed.

Lemma lsl64_3_inj i j :
  0 <= i < 2 ^ 61 -> 0 <= j < 2 ^ 61 -> lsl64 i 3 = lsl64 j 3 -> i = j.
Proof. intros Hi Hj. rewrite !lsl64_3 by assumption. lia. Qed.

(** The pop loop, started with [k >= 1] elements to move: it copies the
    slots [c-1, c-2, ..., c-k] into [batch[i], batch[i+1], ..., batch[i+k-1]]
    and changes neither memory nor the cpu. *)
Lemma PopBatch_loop_spec (region : Z) (k : nat) :
  forall (fuel : nat) (batch : list Z) (c i : Z) (m : machine),
    (1 <= k <= fuel)%nat ->
    Z.of_nat k <= c < 2 ^ 61 ->
    0 <= i -> i + Z.of_nat k <= Z.of_nat (length batch) -> i + Z.of_nat k < 2 ^ 61 ->
    exists out m',
      PopBatch_loop fuel batch (slot region c) i (i + Z.of_nat k) m = Ok out m'
      /\ cpu_id m' = cpu_id m /\ mem m' = mem m
      /\ length out = length batch
      /\ (forall j, 0 <= j < Z.of_nat k ->
            out !! Z.to_nat (i + j) = Some (wrap64 (mem m (slot region (c - 1 - j)))))
      /\ (forall q : nat, ~ (i <= Z.of_nat q < i + Z.of_nat k) -> out !! q = batch !! q).
Proof.
  induction k as [| k IH]; intros fuel batch c i m Hk Hc Hi Hlen Hik; [lia |].
  destruct fuel as [| fuel]; [lia |].
  cbn [PopBatch_loop]. rewrite slot_pred by lia.
  unfold bind at 1. unfold ldr at 1. unfold log.
  unfold bind at 1. unfold str_batch at 1.
  replace ((0 <=? i) && (i <? Z.of_nat (length batch))) with true
    by (symmetry; apply andb_true_iff; split; [apply Z.leb_le | apply Z.ltb_lt]; lia).
  cbn [mem cpu_id trace].
  set (v := wrap64 (mem m (slot region (c - 1)))).
  destruct (Nat.eq_dec k 0%nat) as [-> | Hk0].
  - change (Z.of_nat 1) with 1. rewrite Z.eqb_refl. unfold ret.
    eexists _, _. split; [reflexivity |]. cbn [mem cpu_id].
    split; [reflexivity |]. split; [reflexivity |].
    split; [apply length_insert |]. split.
    + intros j Hj. assert (j = 0) as -> by lia. rewrite Z.add_0_r, Z.sub_0_r.
      apply list_lookup_insert_eq. lia.
    + intros q Hq. apply list_lookup_insert_ne. lia.
  - replace (lsl64 (i + 1) 3 =? lsl64 (i + Z.of_nat (S k)) 3) with false.
    2:{ symmetry. apply Z.eqb_neq. intros E. apply lsl64_3_inj in E; lia. }
    replace (i + Z.of_nat (S k)) with (i + 1 + Z.of_nat k) by lia.
    edestruct (IH fuel (<[Z.to_nat i := v]> batch) (c - 1) (i + 1))
      as (out & m' & Hrun & Hcpu & Hmem & Hlen' & Hout & Hframe);
      [lia | lia | lia | rewrite length_insert; lia | lia | rewrite Hrun].
    cbn [mem cpu_id] in Hcpu, Hmem, Hout.
    exists out, m'. split; [reflexivity |]. split; [exact Hcpu |]. split; [exact Hmem |].
    split; [rewrite Hlen'; apply length_insert |]. split.
    + intros j Hj. destruct (Z.eq_dec j 0) as [-> | Hj0].
      * rewrite Z.add_0_r, Z.sub_0_r, Hframe by lia.
        apply list_lookup_insert_eq. lia.
      * replace (i + j) with (i + 1 + (j - 1)) by lia.
        rewrite Hout by lia. do 4 f_equal. lia.
    + intros q Hq. rewrite Hframe by lia. apply list_lookup_insert_ne. lia.
Qed.

Lemma PopBatch_run (m : machine) (slabs cl : Z) (batch : list Z) (x3 : Z) (fuel : nat) :
  let region := CpuMemoryStart slabs FIXED_SLAB_SHIFT m in
  let hdr := slot region cl in
  let cur := hdr_current m hdr in
  let b := hdr_begin m hdr in
  let amount := if wrap32 x3 <=? wrap32 (cur - b) then wrap32 x3 else wrap32 (cur - b) in
  let m0 := Machine (cpu_id m) (mem m) (trace m ++ [Ldrh hdr 0; Ldrh hdr 4]) in
  TcmallocSlab_Internal_PopBatch_FixedShift fuel slabs cl batch x3 m =
    if cur <=? b then Ok (0, batch) m0
    else
      match PopBatch_loop fuel batch (slot region cur) 0 amount m0 with
      | Ok out m1 =>
          Ok (amount, out)
             (Machine (cpu_id m1)
                (fun a => if a =? hdr then set_half (mem m1 hdr) 0 (wrap64 (cur - amount))
                          else mem m1 a)
                (trace m1 ++ [Strh hdr 0 (Z.land (wrap64 (cur - amount)) 65535)]))
      | Fault m1 => Fault m1
      | OutOfFuel => OutOfFuel
      end.
Proof.
  cbv zeta.
  unfold TcmallocSlab_Internal_PopBatch_FixedShift, hdr_begin, hdr_current, slot,
    CpuMemoryStart.
  unfold bind at 1. unfold FETCH_CPU at 1.
  unfold bind at 1. unfold ldrh at 1.
  unfold bind at 1. unfold ldrh at 1. unfold log. cbn [mem cpu_id trace].
  rewrite <- app_assoc. cbn [app].
  match goal with |- context [if ?c then ret (0, batch) else _] => destruct c end;
    [reflexivity |].
  unfold bind at 1.
  match goal with |- context [PopBatch_loop ?f ?b ?x ?y ?z ?mm] =>
    destruct (PopBatch_loop f b x y z mm) end; reflexivity.
Qed.

(** What [PopBatch] does when there are objects to pop and room for at least
    one in the batch. *)
Lemma PopBatch_effect (m : machine) (slabs cl : Z) (batch : list Z) (fuel : nat) :
  let n := Z.of_nat (length batch) in
  let region := CpuMemoryStart slabs FIXED_SLAB_SHIFT m in
  let hdr := slot region cl in
  let cur := hdr_current m hdr in
  let b := hdr_begin m hdr in
  let e := hdr_end m hdr in
  let k := Z.min n (cur - b) in
  b < cur -> 1 <= n < 2 ^ 32 -> (Z.to_nat k <= fuel)%nat ->
  exists out m',
    TcmallocSlab_Internal_PopBatch_FixedShift fuel slabs cl batch n m = Ok (k, out) m'
    /\ cpu_id m' = cpu_id m
    /\ length out = length batch
    /\ (forall j, 0 <= j < k ->
          out !! Z.to_nat j = Some (wrap64 (mem m (slot region (cur - 1 - j)))))
    /\ (forall j, k <= j -> out !! Z.to_nat j = batch !! Z.to_nat j)
    /\ hdr_current m' hdr = cur - k
    /\ hdr_begin m' hdr = b /\ hdr_end m' hdr = e
    /\ (forall a, a <> hdr -> mem m' a = mem m a).
Proof.
  intros n region hdr cur b e k Hitems Hn Hfuel.
  pose proof (half_range (mem m hdr) 0) as Hc.
  pose proof (half_range (mem m hdr) 4) as Hb.
  change (half (mem m hdr) 0) with cur in Hc.
  change (half (mem m hdr) 4) with b in Hb.
  pose proof (PopBatch_run m slabs cl batch n fuel) as Hrun0. cbv zeta in Hrun0.
  change (CpuMemoryStart slabs FIXED_SLAB_SHIFT m) with region in Hrun0.
  change (slot region cl) with hdr in Hrun0.
  change (hdr_current m hdr) with cur in Hrun0.
  change (hdr_begin m hdr) with b in Hrun0.
  rewrite Hrun0. clear Hrun0.
  replace (cur <=? b) with false by (symmetry; apply Z.leb_gt; lia).
  change (2 ^ 32) with 4294967296 in Hn.
  rewrite (wrap32_small (cur - b)) by (change (2 ^ 32) with 4294967296; lia).
  rewrite (wrap32_small n) by (change (2 ^ 32) with 4294967296; lia).
  assert (Hk : (if n <=? cur - b then n else cur - b) = k).
  { unfold k. destruct (Z.leb_spec n (cur - b)); lia. }
  rewrite Hk.
  assert (Hk1 : 1 <= k <= cur - b) by (unfold k; lia).
  assert (Hkn : k <= n) by (unfold k; lia).
  assert (Hsub : wrap64 (cur - k) = cur - k).
  { unfold wrap64. apply Z.mod_small. change (2 ^ 64) with 18446744073709551616. lia. }
  rewrite Hsub.
  set (m0 := {| cpu_id := cpu_id m; mem := mem m;
                trace := trace m ++ [Ldrh hdr 0; Ldrh hdr 4] |}).
  destruct (PopBatch_loop_spec region (Z.to_nat k) fuel batch cur 0 m0)
    as (out & m1 & Hrun & Hcpu & Hmem & Hlen & Hout & Hframe);
    [lia | change (2 ^ 61) with 2305843009213693952; lia | lia | fold n; lia
    | change (2 ^ 61) with 2305843009213693952; lia |].
  rewrite Z2Nat.id in Hrun, Hout, Hframe by lia. rewrite Z.add_0_l in Hrun.
  rewrite Hrun. cbn [mem cpu_id] in Hcpu, Hmem, Hout.
  eexists _, _. split; [reflexivity |]. cbn [mem cpu_id].
  split; [exact Hcpu |]. split; [exact Hlen |]. split; [| split].
  - intros j Hj. specialize (Hout j Hj). rewrite Z.add_0_l in Hout. exact Hout.
  - intros j Hj. apply Hframe. lia.
  - unfold hdr_current, hdr_begin, hdr_end. cbn [mem]. rewrite !Z.eqb_refl.
    rewrite half_set_half_same, !half_set_half_other by lia.
    rewrite Hmem. split; [apply Z.mod_small; lia |].
    split; [reflexivity |]. split; [reflexivity |].
    intros a Ha. replace (a =? hdr) with false by (symmetry; apply Z.eqb_neq; exact Ha).
    reflexivity.
Qed.

(** X2.  [PopBatch] on a (cpu, size class) pair whose [current] is not above
    [begin] returns 0 and writes nothing.  Otherwise, given a batch array of
    [1 <= n < 2^32] elements, it pops [k = min(n, current - begin)] objects:
    it copies the slots [current - 1, current - 2, ..., current - k], top of
    the stack first, into the first [k] elements of the batch, leaves the
    other elements of the batch as they were, sets [current] to
    [current - k], changes nothing else in memory and returns [k].  Called
    with an empty batch array while objects are stored, it accesses the
    array outside its bounds: the loop body runs before its exit test. *)
Theorem PopBatch_pops_top_of_stack
    (m : machine) (slabs cl : Z) (batch : list Z) (fuel : nat) :
  let n := Z.of_nat (length batch) in
  let region := CpuMemoryStart slabs FIXED_SLAB_SHIFT m in
  let hdr := slot region cl in
  let cur := hdr_current m hdr in
  let b := hdr_begin m hdr in
  let e := hdr_end m hdr in
  let k := Z.min n (cur - b) in
  (cur <= b ->
     TcmallocSlab_Internal_PopBatch_FixedShift fuel slabs cl batch n m =
       Ok (0, batch) (Machine (cpu_id m) (mem m) (trace m ++ [Ldrh hdr 0; Ldrh hdr 4])))
  /\ (b < cur -> 1 <= n < 2 ^ 32 -> (Z.to_nat k <= fuel)%nat ->
     exists out m',
       TcmallocSlab_Internal_PopBatch_FixedShift fuel slabs cl batch n m = Ok (k, out) m'
       /\ length out = length batch
       /\ (forall j, 0 <= j < k ->
             out !! Z.to_nat j = Some (wrap64 (mem m (slot region (cur - 1 - j)))))
       /\ (forall j, k <= j -> out !! Z.to_nat j = batch !! Z.to_nat j)
       /\ hdr_current m' hdr = cur - k
       /\ hdr_begin m' hdr = b /\ hdr_end m' hdr = e
       /\ (forall a, a <> hdr -> mem m' a = mem m a))
  /\ (b < cur -> n = 0 -> (1 <= fuel)%nat ->
     exists m',
       TcmallocSlab_Internal_PopBatch_FixedShift fuel slabs cl batch n m = Fault m').
Proof.
  intros n region hdr cur b e k. split; [| split].
  - intros Hempty.
    pose proof (PopBatch_run m slabs cl batch n fuel) as Hrun0. cbv zeta in Hrun0.
    rewrite Hrun0. fold region. fold hdr. fold cur. fold b.
    replace (cur <=? b) with true by (symmetry; apply Z.leb_le; lia). reflexivity.
  - intros Hitems Hn Hfuel.
    destruct (PopBatch_effect m slabs cl batch fuel Hitems Hn Hfuel)
      as (out & m' & Hrun & _ & Hrest).
    exists out, m'. split; [exact Hrun | exact Hrest].
  - intros Hitems Hn Hfuel.
    pose proof (PopBatch_run m slabs cl batch n fuel) as Hrun0. cbv zeta in Hrun0.
    rewrite Hrun0. fold region. fold hdr. fold cur. fold b.
    replace (cur <=? b) with false by (symmetry; apply Z.leb_gt; lia).
    destruct fuel as [| fuel]; [lia |].
    cbn [PopBatch_loop]. unfold bind at 1. unfold ldr at 1.
    unfold bind at 1. unfold str_batch at 1.
    replace ((0 <=? 0) && (0 <? Z.of_nat (length batch))) with false
      by (fold n; rewrite Hn; reflexivity).
    eexists. reflexivity.
Qed.

(** What [PushBatch] does when there is room: the content of C1's theorem,
    with the cpu id. *)
Lemma PushBatch_effect (m : machine) (slabs cl : Z) (batch : list Z) (fuel : nat) :
  let n := Z.of_nat (length batch) in
  let region := CpuMemoryStart slabs FIXED_SLAB_SHIFT m in
  let hdr := slot region cl in
  let cur := hdr_current m hdr in
  let b := hdr_begin m hdr in
  let e := hdr_end m hdr in
  let k := Z.min n (e - cur) in
  b <= cur < e -> 1 <= n < 2 ^ 32 -> 0 <= cl < b -> (Z.to_nat k <= fuel)%nat ->
  exists m',
    TcmallocSlab_Internal_PushBatch_FixedShift fuel slabs cl batch n m = Ok k m'
    /\ cpu_id m' = cpu_id m
    /\ hdr_current m' hdr = cur + k
    /\ hdr_begin m' hdr = b /\ hdr_end m' hdr = e
    /\ (forall j, 0 <= j < k ->
          mem m' (slot region (cur + j)) =
            wrap64 (nth (Z.to_nat (n - 1 - j)) batch 0))
    /\ (forall a, a <> hdr -> (forall j, 0 <= j < k -> a <> slot region (cur + j)) ->
          mem m' a = mem m a).
Proof.
  intros n region hdr cur b e k Hinv Hn Hcl Hfuel.
  pose proof (half_range (mem m hdr) 0) as Hc.
  pose proof (half_range (mem m hdr) 4) as Hb.
  pose proof (half_range (mem m hdr) 6) as He.
  change (half (mem m hdr) 0) with cur in Hc.
  change (half (mem m hdr) 4) with b in Hb.
  change (half (mem m hdr) 6) with e in He.
  pose proof (PushBatch_run m slabs cl batch n fuel) as Hrun0. cbv zeta in Hrun0.
  change (CpuMemoryStart slabs FIXED_SLAB_SHIFT m) with region in Hrun0.
  change (slot region cl) with hdr in Hrun0.
  change (hdr_current m hdr) with cur in Hrun0.
  change (hdr_end m hdr) with e in Hrun0.
  rewrite Hrun0. clear Hrun0.
  replace (e <=? cur) with false by (symmetry; apply Z.leb_gt; lia).
  change (2 ^ 32) with 4294967296 in Hn.
  rewrite (wrap32_small (e - cur)) by (change (2 ^ 32) with 4294967296; lia).
  rewrite (wrap32_small n) by (change (2 ^ 32) with 4294967296; lia).
  assert (Hk : (if n <=? e - cur then n else e - cur) = k).
  { unfold k. destruct (Z.leb_spec n (e - cur)); lia. }
  rewrite Hk.
  assert (Hk1 : 1 <= k <= e - cur) by (unfold k; lia).
  assert (Hadd : add64 cur k = cur + k).
  { unfold add64, wrap64. apply Z.mod_small. change (2 ^ 64) with 18446744073709551616. lia. }
  rewrite Hadd.
  set (m0 := {| cpu_id := cpu_id m; mem := mem m;
                trace := trace m ++ [Ldrh hdr 0; Ldrh hdr 6] |}).
  destruct (PushBatch_loop_spec batch region (Z.to_nat k) fuel cur n m0)
    as (m1 & Hrun & Hcpu & Hslots & Hframe);
    [lia | lia | change (2 ^ 61) with 2305843009213693952; lia | lia |].
  rewrite Z2Nat.id in Hrun, Hslots, Hframe by lia.
  rewrite Hrun.
  eexists. split; [reflexivity |]. cbn [cpu_id]. split; [exact Hcpu |].
  assert (Hhdr : forall j, 0 <= j < k -> hdr <> slot region (cur + j)).
  { intros j Hj E. symmetry in E. revert E. apply hdr_not_slot; lia. }
  unfold hdr_current, hdr_begin, hdr_end. cbn [mem]. rewrite !Z.eqb_refl.
  rewrite half_set_half_same, !half_set_half_other by lia.
  rewrite (Hframe hdr Hhdr).
  split; [apply Z.mod_small; lia |]. split; [reflexivity |]. split; [reflexivity |].
  split.
  - intros j Hj.
    replace (slot region (cur + j) =? hdr) with false
      by (symmetry; apply Z.eqb_neq; intros E; apply (Hhdr j Hj); congruence).
    apply Hslots. exact Hj.
  - intros a Ha Hs.
    replace (a =? hdr) with false by (symmetry; apply Z.eqb_neq; exact Ha).
    apply Hframe. exact Hs.
Qed.

(** X3.  A batch pushed by [PushBatch] comes back from [PopBatch].  Take a
    slab header with [begin <= current <= end] that lies below the slots of
    its class, and a batch of [n >= 1] pointers (64-bit values) for which
    there is room, [n <= end - current].  [PushBatch] pushes all [n], and a
    [PopBatch] of [n] objects that follows hands back the same pointers in
    the same order, whatever the array it is given held; the header is then
    what it was, and memory has changed at most in the [n] slots above
    [current]. *)
Theorem PushBatch_PopBatch_round_trip
    (m : machine) (slabs cl : Z) (batch scratch : list Z) (fuel : nat) :
  let n := Z.of_nat (length batch) in
  let region := CpuMemoryStart slabs FIXED_SLAB_SHIFT m in
  let hdr := slot region cl in
  let cur := hdr_current m hdr in
  let b := hdr_begin m hdr in
  let e := hdr_end m hdr in
  b <= cur <= e -> 0 <= cl < b -> 1 <= n <= e - cur ->
  Forall (fun p => 0 <= p < 2 ^ 64) batch ->
  length scratch = length batch -> (length batch <= fuel)%nat ->
  exists m1 m2,
    TcmallocSlab_Internal_PushBatch_FixedShift fuel slabs cl batch n m = Ok n m1
    /\ TcmallocSlab_Internal_PopBatch_FixedShift fuel slabs cl scratch n m1
         = Ok (n, batch) m2
    /\ hdr_current m2 hdr = cur /\ hdr_begin m2 hdr = b /\ hdr_end m2 hdr = e
    /\ (forall a, a <> hdr -> (forall j, 0 <= j < n -> a <> slot region (cur + j)) ->
          mem m2 a = mem m a).
Proof.
  intros n region hdr cur b e Hinv Hcl Hn Hptr Hlen Hfuel.
  pose proof (half_range (mem m hdr) 6) as He.
  change (half (mem m hdr) 6) with e in He.
  pose proof (half_range (mem m hdr) 0) as Hc.
  change (half (mem m hdr) 0) with cur in Hc.
  assert (Hn32 : 1 <= n < 2 ^ 32) by (change (2 ^ 32) with 4294967296; lia).
  destruct (PushBatch_effect m slabs cl batch fuel)
    as (m1 & Hpush & Hcpu & Hcur1 & Hb1 & He1 & Hslots & Hframe1);
    [fold region hdr cur b e; lia | exact Hn32 | exact Hcl
    | fold n region hdr cur e; lia |].
  fold n region hdr cur b e in Hpush, Hcur1, Hb1, He1, Hslots, Hframe1.
  replace (Z.min n (e - cur)) with n in Hpush, Hcur1, Hslots, Hframe1 by lia.
  assert (Hreg : CpuMemoryStart slabs FIXED_SLAB_SHIFT m1 = region).
  { unfold region, CpuMemoryStart. rewrite Hcpu. reflexivity. }
  pose proof (PopBatch_effect m1 slabs cl scratch fuel) as Hpop. cbv zeta in Hpop.
  rewrite Hreg, Hlen in Hpop. fold hdr n in Hpop. rewrite Hcur1, Hb1, He1 in Hpop.
  replace (Z.min n (cur + n - b)) with n in Hpop by lia.
  destruct Hpop as (out & m2 & Hpop & _ & Hlen2 & Hout & _ & Hcur2 & Hb2 & He2 & Hframe2);
    [lia | exact Hn32 | lia |].
  assert (Hsame : out = batch).
  { apply list_eq. intros q.
    destruct (Nat.lt_ge_cases q (length batch)) as [Hq | Hq].
    - specialize (Hout (Z.of_nat q) ltac:(lia)). rewrite Nat2Z.id in Hout.
      rewrite Hout.
      replace (cur + n - 1 - Z.of_nat q) with (cur + (n - 1 - Z.of_nat q)) by lia.
      rewrite Hslots by lia.
      replace (n - 1 - (n - 1 - Z.of_nat q)) with (Z.of_nat q) by lia.
      rewrite Nat2Z.id.
      destruct (lookup_lt_is_Some_2 batch q Hq) as [p Hp].
      rewrite Hp. f_equal.
      rewrite (nth_lookup_Some _ _ _ _ Hp).
      pose proof (Forall_lookup_1 _ _ _ _ Hptr Hp) as Hrange. cbv beta in Hrange.
      unfold wrap64. rewrite Z.mod_mod by lia. apply Z.mod_small. exact Hrange.
    - rewrite !lookup_ge_None_2 by lia. reflexivity. }
  exists m1, m2. split; [exact Hpush |]. split; [rewrite Hpop, Hsame; reflexivity |].
  split; [rewrite Hcur2; lia |]. split; [exact Hb2 |]. split; [exact He2 |].
  intros a Ha Hs. rewrite Hframe2 by exact Ha. apply Hframe1; assumption.
Qed.

Lemma set_half_set_half w off v v' :
  0 <= off -> set_half (set_half w off v) off v' = set_half w off v'.
Proof.
  intros Ho. apply Z.bits_inj'. intros i Hi. rewrite !set_half_spec by lia.
  destruct ((8 * off <=? i) && (i <? 8 * off + 16)); reflexivity.
Qed.

Lemma set_half_half w off : 0 <= off -> set_half w off (half w off) = w.
Proof.
  intros Ho. apply Z.bits_inj'. intros i Hi. rewrite set_half_spec by lia.
  destruct (Z.leb_spec (8 * off) i); cbn [andb]; [| reflexivity].
  destruct (Z.ltb_spec i (8 * off + 16)); [| reflexivity].
  rewrite half_spec by lia.
  replace (i - 8 * off <? 16) with true by (symmetry; apply Z.ltb_lt; lia).
  rewrite andb_true_r. f_equal. lia.
Qed.

(** X4.  An object pushed by [Push] comes back from [Pop].  Take a slab
    header with [begin <= current < end] whose word is not the slot at
    [current].  [Push] stores the pointer and returns the cpu id; a [Pop]
    that follows returns the pointer pushed (as a 64-bit value) and leaves
    memory as it was before the push, the header word included, except that
    the slot at [current] still holds the pointer.  This holds for every
    shift, and the fixed-shift routines are the general ones at the shift
    [TCMALLOC_PERCPU_TCMALLOC_FIXED_SLAB_SHIFT]. *)
Theorem Push_Pop_round_trip (m : machine) (slabs cl p shift f g : Z) :
  let cpu := wrap32 (cpu_id m) in
  let region := CpuMemoryStart slabs shift m in
  let hdr := slot region cl in
  let cur := hdr_current m hdr in
  let b := hdr_begin m hdr in
  let e := hdr_end m hdr in
  b <= cur < e -> slot region cur <> hdr ->
  (exists m1 m2,
     TcmallocSlab_Internal_Push slabs cl p shift f m = Ok (Return cpu) m1
     /\ TcmallocSlab_Internal_Pop slabs cl g shift m1 = Ok (Return (wrap64 p)) m2
     /\ cpu_id m2 = cpu_id m
     /\ (forall a, mem m2 a = if a =? slot region cur then wrap64 p else mem m a))
  /\ TcmallocSlab_Internal_Push_FixedShift slabs cl p f
       = TcmallocSlab_Internal_Push slabs cl p FIXED_SLAB_SHIFT f
  /\ TcmallocSlab_Internal_Pop_FixedShift slabs cl g
       = TcmallocSlab_Internal_Pop slabs cl g FIXED_SLAB_SHIFT.
Proof.
  intros cpu region hdr cur b e Hinv Hne.
  split; [| split; reflexivity].
  pose proof (half_range (mem m hdr) 0) as Hc.
  pose proof (half_range (mem m hdr) 4) as Hb.
  pose proof (half_range (mem m hdr) 6) as He.
  change (half (mem m hdr) 0) with cur in Hc.
  change (half (mem m hdr) 4) with b in Hb.
  change (half (mem m hdr) 6) with e in He.
  pose proof (Push_run m slabs cl p shift f) as HPush. cbv zeta in HPush.
  change (wrap32 (cpu_id m)) with cpu in HPush.
  change (CpuMemoryStart slabs shift m) with region in HPush.
  change (slot region cl) with hdr in HPush.
  change (hdr_current m hdr) with cur in HPush.
  change (hdr_end m hdr) with e in HPush.
  replace (e <=? cur) with false in HPush by (symmetry; apply Z.leb_gt; lia).
  replace (hdr =? slot region cur) with false in HPush
    by (symmetry; apply Z.eqb_neq; congruence).
  rewrite (wrap32_small (cur + 1)) in HPush by (change (2 ^ 32) with 4294967296; lia).
  match type of HPush with _ = Ok _ ?mm => set (m1 := mm) in HPush end.
  assert (Hreg : CpuMemoryStart slabs shift m1 = region) by reflexivity.
  assert (Hword : mem m1 hdr = set_half (mem m hdr) 0 (cur + 1)).
  { unfold m1. cbn [mem]. rewrite Z.eqb_refl. reflexivity. }
  assert (Hcur1 : hdr_current m1 hdr = cur + 1).
  { unfold hdr_current. rewrite Hword, half_set_half_same by lia.
    apply Z.mod_small. lia. }
  assert (Hb1 : hdr_begin m1 hdr = b).
  { unfold hdr_begin. rewrite Hword, half_set_half_other by lia. reflexivity. }
  pose proof (Pop_run m1 slabs cl g shift) as HPop. cbv zeta in HPop.
  rewrite Hreg in HPop. fold hdr in HPop. rewrite Hcur1, Hb1 in HPop.
  replace (cur + 1 <=? b) with false in HPop by (symmetry; apply Z.leb_gt; lia).
  replace (cur + 1 - 1) with cur in HPop by lia.
  rewrite (wrap32_small cur) in HPop by (change (2 ^ 32) with 4294967296; lia).
  assert (Hslot : mem m1 (slot region cur) = wrap64 p).
  { unfold m1. cbn [mem].
    replace (slot region cur =? hdr) with false by (symmetry; apply Z.eqb_neq; exact Hne).
    rewrite Z.eqb_refl. reflexivity. }
  rewrite Hslot in HPop.
  eexists _, _. split; [exact HPush |]. split; [exact HPop |].
  cbn [mem cpu_id]. split; [reflexivity |].
  intros a. destruct (Z.eqb_spec a hdr) as [-> | Ha].
  - replace (hdr =? slot region cur) with false
      by (symmetry; apply Z.eqb_neq; congruence).
    rewrite Hword, set_half_set_half by lia.
    apply set_half_half. lia.
  - unfold m1. cbn [mem].
    replace (a =? hdr) with false by (symmetry; apply Z.eqb_neq; exact Ha).
    reflexivity.
Qed.

Lemma PopBatch_pops_top_of_stack_witness :
  hdr_begin (slab_with 10 8 10) 16 < hdr_current (slab_with 10 8 10) 16
  /\ exists out m',
       TcmallocSlab_Internal_PopBatch_FixedShift 5 0 2 [0; 0; 0] 3 (slab_with 10 8 10)
         = Ok (2, out) m'
       /\ out !! 0%nat = Some 1002 /\ out !! 1%nat = Some 1001
       /\ hdr_current m' 16 = 8.
Proof.
  assert (H : hdr_begin (slab_with 10 8 10) 16 < hdr_current (slab_with 10 8 10) 16)
    by (vm_compute; reflexivity).
  split; [exact H |].
  destruct (proj1 (proj2 (PopBatch_pops_top_of_stack (slab_with 10 8 10) 0 2 [0; 0; 0]
                            5%nat)) H)
    as (out & m' & Hrun & _ & Hout & _ & Hcur & _).
  - vm_compute. intuition discriminate.
  - vm_compute. lia.
  - exists out, m'. split; [exact Hrun |].
    split; [exact (Hout 0 ltac:(vm_compute; intuition discriminate)) |].
    split; [exact (Hout 1 ltac:(vm_compute; intuition discriminate)) | exact Hcur].
Defined.

Lemma PushBatch_PopBatch_round_trip_witness :
  exists m1 m2,
    TcmallocSlab_Internal_PushBatch_FixedShift 5 0 2 [11; 22] 2 (slab_with 8 8 10)
      = Ok 2 m1
    /\ TcmallocSlab_Internal_PopBatch_FixedShift 5 0 2 [0; 0] 2 m1 = Ok (2, [11; 22]) m2
    /\ hdr_current m2 16 = 8.
Proof.
  destruct (PushBatch_PopBatch_round_trip (slab_with 8 8 10) 0 2 [11; 22] [0; 0] 5%nat)
    as (m1 & m2 & Hpush & Hpop & Hcur & _).
  - vm_compute. intuition discriminate.
  - vm_compute. intuition discriminate.
  - vm_compute. intuition discriminate.
  - repeat constructor; vm_compute; discriminate.
  - reflexivity.
  - vm_compute. lia.
  - exists m1, m2. split; [exact Hpush |]. split; [exact Hpop | exact Hcur].
Defined.

Lemma Push_Pop_round_trip_witness :
  exists m1 m2,
    TcmallocSlab_Internal_Push 0 2 77 18 0 (slab_with 8 8 10) = Ok (Return 0) m1
    /\ TcmallocSlab_Internal_Pop 0 2 0 18 m1 = Ok (Return 77) m2
    /\ mem m2 16 = mem (slab_with 8 8 10) 16.
Proof.
  destruct (proj1 (Push_Pop_round_trip (slab_with 8 8 10) 0 2 77 18 0 0
                     ltac:(vm_compute; intuition discriminate)
                     ltac:(vm_compute; discriminate)))
    as (m1 & m2 & Hpush & Hpop & _ & Hmem).
  exists m1, m2. split; [exact Hpush |]. split; [exact Hpop |]. exact (Hmem 16).
Defined.

End SlabFacts.

Module TransferCacheFacts.
Import TransferCache.

(** C4 as stated fails: only the first character of the variable is looked at. *)
Lemma ChooseImplementation_prefix_counterexample :
  ChooseImplementation false (fun _ => Some "00"%string) = Returns Legacy
  /\ ChooseImplementation false (fun _ => Some "1x"%string) = Returns Ring
  /\ ("00" <> "0" /\ "00" <> "1" /\ "1x" <> "0" /\ "1x" <> "1")%string.
Proof. repeat split; try reflexivity; discriminate. Qed.

(** C4, as amended.  [ChooseImplementation] returns [Ring] when the
    ring-buffer experiment is active.  Otherwise, when
    TCMALLOC_INTERNAL_TRANSFERCACHE_CONTROL is unset it returns [Legacy]; when
    it is set, only its first character counts: ['0'] gives [Legacy], ['1']
    gives [Ring], and any other first character, the empty value included,
    ends in [Crash] with the message "bad env var" and the value.  In
    particular the values "0" and "1" give [Legacy] and [Ring]. *)
Theorem ChooseImplementation_first_character
    (ring_experiment : bool) (getenv : string -> option string) :
  let var := getenv "TCMALLOC_INTERNAL_TRANSFERCACHE_CONTROL"%string in
  let choice := ChooseImplementation ring_experiment getenv in
  (ring_experiment = true -> choice = Returns Ring)
  /\ (ring_experiment = false -> var = None -> choice = Returns Legacy)
  /\ (forall e, ring_experiment = false -> var = Some e ->
        (first_char e = "0"%char -> choice = Returns Legacy)
        /\ (first_char e = "1"%char -> choice = Returns Ring)
        /\ (first_char e <> "0"%char -> first_char e <> "1"%char ->
              choice = Crash "bad env var" e))
  /\ (ring_experiment = false -> var = Some "0"%string -> choice = Returns Legacy)
  /\ (ring_experiment = false -> var = Some "1"%string -> choice = Returns Ring)
  /\ (ring_experiment = false -> var = Some EmptyString ->
        choice = Crash "bad env var" EmptyString).
Proof.
  cbv zeta. unfold ChooseImplementation.
  split; [intros ->; reflexivity |].
  split; [intros -> ->; reflexivity |].
  split.
  { intros e -> ->. split; [| split].
    - intros ->. reflexivity.
    - intros ->. reflexivity.
    - intros H0 H1. apply Ascii.eqb_neq in H0, H1. rewrite H0, H1. reflexivity. }
  split; [intros -> ->; reflexivity |].
  split; intros -> ->; reflexivity.
Qed.

Lemma ChooseImplementation_first_character_witness :
  ChooseImplementation false (fun _ => Some "1x"%string) = Returns Ring
  /\ ChooseImplementation false (fun _ => Some "x"%string) = Crash "bad env var" "x".
Proof.
  destruct (proj1 (proj2 (proj2
              (ChooseImplementation_first_character false (fun _ => Some "1x"%string))))
              "1x"%string eq_refl eq_refl) as (_ & Hring & _).
  destruct (proj1 (proj2 (proj2
              (ChooseImplementation_first_character false (fun _ => Some "x"%string))))
              "x"%string eq_refl eq_refl) as (_ & _ & Hcrash).
  split; [exact (Hring eq_refl) | apply Hcrash; discriminate].
Defined.

Lemma probes_app (h l : list event) : probes (h ++ l) = (probes h + probes l)%nat.
Proof. unfold probes. rewrite List.filter_app, length_app. reflexivity. Qed.

(** C3 as stated fails for the legacy variant: a first candidate equal to
    [current_size_class] is not accepted when it has no spare capacity. *)
Lemma DetermineSizeClassToEvict_legacy_counterexample :
  DetermineSizeClassToEvict 86 (fun _ => false) (fun _ => false) 3 (Manager 3 Legacy [])
    = (4, Manager 5 Legacy [CursorLoad 3; CursorStore 4; SpareCapacityQuery Legacy 3;
                            CursorLoad 4; CursorStore 5])
  /\ DetermineSizeClassToEvict 86 (fun _ => false) (fun _ => false) 3 (Manager 3 Ring [])
       = (3, Manager 4 Ring [CursorLoad 3; CursorStore 4]).
Proof. split; reflexivity. Qed.

(** C3, as amended.  [DetermineSizeClassToEvict] takes a first candidate from
    the shared cursor, class 1 once the cursor has run past the last class,
    and advances the cursor past it.  The ring variant accepts the candidate
    when it equals [current_size_class] or reports spare capacity; the other
    variants accept it when, and only when, it reports spare capacity.  A
    candidate that is not accepted is followed by exactly one more, taken
    from the advanced cursor in the same way and returned whatever its
    capacity.  The cursor is read once or twice. *)
Theorem DetermineSizeClassToEvict_two_probes
    (kNumClasses : Z) (rbtc tc : Z -> bool) (current_size_class : Z) (s : manager) :
  let first := candidate kNumClasses (next_to_evict_ s) in
  let second := candidate kNumClasses (first + 1) in
  let accepted :=
    match implementation_ s with
    | Ring => (first =? current_size_class) || rbtc first
    | _ => tc first
    end in
  let r := DetermineSizeClassToEvict kNumClasses rbtc tc current_size_class s in
  implementation_ (snd r) = implementation_ s
  /\ (accepted = true ->
        fst r = first /\ next_to_evict_ (snd r) = first + 1
        /\ probes (history (snd r)) = (probes (history s) + 1)%nat)
  /\ (accepted = false ->
        fst r = second /\ next_to_evict_ (snd r) = second + 1
        /\ probes (history (snd r)) = (probes (history s) + 2)%nat)
  /\ (probes (history (snd r)) <= probes (history s) + 2)%nat.
Proof.
  cbv zeta. unfold DetermineSizeClassToEvict, load, store, rbtc_query, tc_query, candidate.
  cbn [next_to_evict_ implementation_ history].
  set (t := if next_to_evict_ s >=? kNumClasses then 1 else next_to_evict_ s).
  destruct (implementation_ s) eqn:Himpl.
  - destruct (tc t); cbn [fst snd next_to_evict_ implementation_ history];
      rewrite !probes_app; cbn; repeat split; try discriminate; try lia; auto.
  - destruct (tc t); cbn [fst snd next_to_evict_ implementation_ history];
      rewrite !probes_app; cbn; repeat split; try discriminate; try lia; auto.
  - destruct (t =? current_size_class); [| destruct (rbtc t)];
      cbn [fst snd next_to_evict_ implementation_ history orb];
      rewrite !probes_app; cbn; repeat split; try discriminate; try lia; auto.
Qed.

Lemma DetermineSizeClassToEvict_two_probes_witness :
  fst (DetermineSizeClassToEvict 86 (fun _ => true) (fun t => t =? 1) 7
         (Manager 85 Legacy [])) = 1
  /\ next_to_evict_ (snd (DetermineSizeClassToEvict 86 (fun _ => true) (fun t => t =? 1) 7
                            (Manager 85 Legacy []))) = 2
  /\ probes (history (snd (DetermineSizeClassToEvict 86 (fun _ => true) (fun t => t =? 1) 7
                             (Manager 85 Legacy [])))) = 2%nat.
Proof.
  exact (proj1 (proj2 (proj2
           (DetermineSizeClassToEvict_two_probes 86 (fun _ => true) (fun t => t =? 1) 7
              (Manager 85 Legacy [])))) eq_refl).
Defined.

(** The two ways a call ends, by the candidates the cursor yields. *)
Lemma DetermineSizeClassToEvict_cases
    (kNumClasses : Z) (rbtc tc : Z -> bool) (current_size_class : Z) (s : manager) :
  let first := candidate kNumClasses (next_to_evict_ s) in
  let second := candidate kNumClasses (first + 1) in
  let accepted :=
    match implementation_ s with
    | Ring => (first =? current_size_class) || rbtc first
    | _ => tc first
    end in
  let r := DetermineSizeClassToEvict kNumClasses rbtc tc current_size_class s in
  implementation_ (snd r) = implementation_ s
  /\ (accepted = true -> fst r = first /\ next_to_evict_ (snd r) = first + 1)
  /\ (accepted = false -> fst r = second /\ next_to_evict_ (snd r) = second + 1).
Proof.
  cbv zeta. unfold DetermineSizeClassToEvict, load, store, rbtc_query, tc_query, candidate.
  cbn [next_to_evict_ implementation_ history].
  set (t := if next_to_evict_ s >=? kNumClasses then 1 else next_to_evict_ s).
  destruct (implementation_ s) eqn:Himpl.
  - destruct (tc t); cbn [fst snd next_to_evict_ implementation_];
      repeat split; try discriminate; auto.
  - destruct (tc t); cbn [fst snd next_to_evict_ implementation_];
      repeat split; try discriminate; auto.
  - destruct (t =? current_size_class); [| destruct (rbtc t)];
      cbn [fst snd next_to_evict_ implementation_ orb];
      repeat split; try discriminate; auto.
Qed.

(** The cursor stays within [1, kNumClasses] once it is at least 1. *)
Lemma DetermineSizeClassToEvict_cursor
    (kNumClasses : Z) (rbtc tc : Z -> bool) (current_size_class : Z) (s : manager) :
  1 < kNumClasses -> 1 <= next_to_evict_ s ->
  2 <= next_to_evict_
         (snd (DetermineSizeClassToEvict kNumClasses rbtc tc current_size_class s))
    <= kNumClasses.
Proof.
  intros Hk Hc.
  destruct (DetermineSizeClassToEvict_cases kNumClasses rbtc tc current_size_class s)
    as (_ & Hacc & Hrej).
  unfold candidate in *.
  match type of Hacc with (?a = true -> _) => destruct a end.
  - destruct (Hacc eq_refl) as (_ & ->).
    destruct (Z.geb_spec (next_to_evict_ s) kNumClasses); lia.
  - destruct (Hrej eq_refl) as (_ & ->).
    repeat match goal with |- context [?a >=? ?b] => destruct (Z.geb_spec a b) end; lia.
Qed.

(** C8.  For every cursor value the manager can hold, at least 1 (the cursor
    is only ever written by this function, which keeps it between 2 and
    [kNumClasses]), for every [current_size_class], every variant and every
    answer of the capacity queries, the class returned lies in
    [1, kNumClasses) and is not class 0. *)
Theorem DetermineSizeClassToEvict_range
    (kNumClasses : Z) (rbtc tc : Z -> bool) (current_size_class : Z) (s : manager) :
  1 < kNumClasses -> 1 <= next_to_evict_ s ->
  let victim :=
    fst (DetermineSizeClassToEvict kNumClasses rbtc tc current_size_class s) in
  1 <= victim < kNumClasses /\ victim <> 0.
Proof.
  intros Hk Hc.
  destruct (DetermineSizeClassToEvict_cases kNumClasses rbtc tc current_size_class s)
    as (_ & Hacc & Hrej).
  cbv zeta. unfold candidate in *.
  match type of Hacc with (?a = true -> _) => destruct a end.
  - destruct (Hacc eq_refl) as (-> & _).
    destruct (Z.geb_spec (next_to_evict_ s) kNumClasses); lia.
  - destruct (Hrej eq_refl) as (-> & _).
    repeat match goal with |- context [?a >=? ?b] => destruct (Z.geb_spec a b) end; lia.
Qed.

Lemma DetermineSizeClassToEvict_range_witness :
  (1 < 86) /\ (1 <= next_to_evict_ (Manager 85 Ring []))
  /\ (1 <= fst (DetermineSizeClassToEvict 86 (fun _ => false) (fun _ => false) 7
                  (Manager 85 Ring [])) < 86)
  /\ fst (DetermineSizeClassToEvict 86 (fun _ => false) (fun _ => false) 7
            (Manager 85 Ring [])) <> 0.
Proof.
  split; [lia |]. split; [simpl; lia |].
  apply (DetermineSizeClassToEvict_range 86 (fun _ => false) (fun _ => false) 7
           (Manager 85 Ring [])); simpl; lia.
Defined.

(** ** The choice of the implementation and runs of evictions *)

(** X5.  [ChooseImplementation] never chooses [None]: whatever the
    experiment flag and the environment, it returns [Legacy] or [Ring], or
    ends in the crash "bad env var" on the value of
    TCMALLOC_INTERNAL_TRANSFERCACHE_CONTROL; with the ring-buffer experiment
    active it never crashes, whatever the variable holds. *)
Theorem ChooseImplementation_never_none
    (ring_experiment : bool) (getenv : string -> option string) :
  let choice := ChooseImplementation ring_experiment getenv in
  choice <> Returns NoTransferCache
  /\ (choice = Returns Legacy \/ choice = Returns Ring
      \/ exists e, getenv "TCMALLOC_INTERNAL_TRANSFERCACHE_CONTROL"%string = Some e
                   /\ ring_experiment = false
                   /\ choice = Crash "bad env var" e)
  /\ (choice = Returns Legacy -> ring_experiment = false).
Proof.
  cbv zeta. unfold ChooseImplementation.
  destruct ring_experiment.
  - split; [discriminate |]. split; [auto | discriminate].
  - destruct (getenv "TCMALLOC_INTERNAL_TRANSFERCACHE_CONTROL"%string) as [e |].
    + destruct (Ascii.eqb (first_char e) "0"); [split; [discriminate | auto] |].
      destruct (Ascii.eqb (first_char e) "1"); [split; [discriminate | auto] |].
      split; [discriminate |]. split; [| auto]. right. right. exists e. auto.
    + split; [discriminate | auto].
Qed.

Lemma candidate_mod (kNumClasses x : Z) :
  1 < kNumClasses -> 1 <= x <= kNumClasses ->
  candidate kNumClasses x = 1 + (x - 1) mod (kNumClasses - 1).
Proof.
  intros Hk Hx. unfold candidate. destruct (Z.geb_spec x kNumClasses).
  - replace (x - 1) with (kNumClasses - 1) by lia. rewrite Z.mod_same by lia. reflexivity.
  - rewrite Z.mod_small by lia. lia.
Qed.

(** X6.  The classes a run of [DetermineSizeClassToEvict] calls returns all
    lie in [1, kNumClasses), and the cursor, once at least 1, stays within
    [1, kNumClasses]: whatever the sequence of [current_size_class]
    arguments, the variant and the answers of the capacity queries. *)
Theorem DetermineSizeClassToEvict_calls_in_range
    (kNumClasses : Z) (rbtc tc : Z -> bool) (args : list Z) :
  forall s : manager,
    1 < kNumClasses -> 1 <= next_to_evict_ s <= kNumClasses ->
    let r := DetermineSizeClassToEvict_calls kNumClasses rbtc tc args s in
    length (fst r) = length args
    /\ Forall (fun t => 1 <= t < kNumClasses) (fst r)
    /\ 1 <= next_to_evict_ (snd r) <= kNumClasses
    /\ implementation_ (snd r) = implementation_ s.
Proof.
  induction args as [| c args IH]; intros s Hk Hs; cbv zeta.
  - cbn. auto.
  - cbn [DetermineSizeClassToEvict_calls].
    pose proof (DetermineSizeClassToEvict_cursor kNumClasses rbtc tc c s Hk ltac:(lia))
      as Hcur.
    destruct (DetermineSizeClassToEvict_cases kNumClasses rbtc tc c s)
      as (Himpl & Hacc & Hrej).
    destruct (DetermineSizeClassToEvict kNumClasses rbtc tc c s) as [t s1].
    cbn [fst snd] in *.
    specialize (IH s1 Hk ltac:(lia)). cbv zeta in IH.
    destruct (DetermineSizeClassToEvict_calls kNumClasses rbtc tc args s1) as [ts s2].
    cbn [fst snd length] in *.
    destruct IH as (Hlen & Hall & Hc2 & Hi2).
    split; [lia |]. split; [| split; [exact Hc2 | congruence]].
    constructor; [| exact Hall].
    unfold candidate in *.
    match type of Hacc with (?a = true -> _) => destruct a end.
    + destruct (Hacc eq_refl) as (-> & _).
      destruct (Z.geb_spec (next_to_evict_ s) kNumClasses); lia.
    + destruct (Hrej eq_refl) as (-> & _).
      repeat match goal with |- context [?a >=? ?b] => destruct (Z.geb_spec a b) end; lia.
Qed.

(** A run in which the candidate of every call is taken ([stride = 1]) or
    refused ([stride = 2]): the class returned by call [i]. *)
Lemma DetermineSizeClassToEvict_calls_stride
    (kNumClasses : Z) (rbtc tc : Z -> bool) (accept : bool) (args : list Z) :
  let stride := if accept then 0 else 1 in
  forall s : manager,
    1 < kNumClasses -> 1 <= next_to_evict_ s <= kNumClasses ->
    (forall t c, In c args ->
       match implementation_ s with
       | Ring => (t =? c) || rbtc t
       | _ => tc t
       end = accept) ->
    forall i : nat, (i < length args)%nat ->
      fst (DetermineSizeClassToEvict_calls kNumClasses rbtc tc args s) !! i
        = Some (1 + (next_to_evict_ s - 1 + stride + (1 + stride) * Z.of_nat i)
                      mod (kNumClasses - 1)).
Proof.
  intros stride.
  induction args as [| c args IH]; intros s Hk Hs Hacc i Hi; [cbn in Hi; lia |].
  cbn [DetermineSizeClassToEvict_calls].
  pose proof (DetermineSizeClassToEvict_cursor kNumClasses rbtc tc c s Hk ltac:(lia))
    as Hcur.
  destruct (DetermineSizeClassToEvict_cases kNumClasses rbtc tc c s)
    as (Himpl & Htaken & Hrefused).
  rewrite (Hacc _ c (or_introl eq_refl)) in Htaken, Hrefused.
  destruct (DetermineSizeClassToEvict kNumClasses rbtc tc c s) as [t s1].
  cbn [fst snd] in *.
  specialize (IH s1 Hk ltac:(lia)).
  rewrite Himpl in IH.
  specialize (IH (fun t c Hc => Hacc t c (or_intror Hc))).
  destruct (DetermineSizeClassToEvict_calls kNumClasses rbtc tc args s1) as [ts s2].
  cbn [fst] in *.
  assert (Hfirst : candidate kNumClasses (next_to_evict_ s)
                   = 1 + (next_to_evict_ s - 1) mod (kNumClasses - 1))
    by (apply candidate_mod; lia).
  assert (Hrange : 0 <= (next_to_evict_ s - 1) mod (kNumClasses - 1) < kNumClasses - 1)
    by (apply Z.mod_pos_bound; lia).
  assert (Ht : t = 1 + (next_to_evict_ s - 1 + stride) mod (kNumClasses - 1)
               /\ next_to_evict_ s1 = t + 1).
  { unfold stride. destruct accept.
    - destruct (Htaken eq_refl) as (-> & ->). rewrite Z.add_0_r. auto.
    - destruct (Hrefused eq_refl) as (-> & ->). split; [| reflexivity].
      rewrite candidate_mod by lia. rewrite Hfirst. f_equal.
      replace (1 + (next_to_evict_ s - 1) mod (kNumClasses - 1) + 1 - 1)
        with ((next_to_evict_ s - 1) mod (kNumClasses - 1) + 1) by lia.
      apply Z.add_mod_idemp_l. lia. }
  destruct Ht as (Ht & Hs1).
  destruct i as [| i].
  - change ((t :: ts) !! 0%nat) with (Some t). rewrite Ht. do 3 f_equal. lia.
  - change ((t :: ts) !! S i) with (ts !! i). cbn [length] in Hi.
    rewrite (IH i) by lia.
    rewrite Hs1, Ht. do 2 f_equal.
    replace (1 + (next_to_evict_ s - 1 + stride) mod (kNumClasses - 1) + 1 - 1
             + stride + (1 + stride) * Z.of_nat i)
      with ((next_to_evict_ s - 1 + stride) mod (kNumClasses - 1)
            + (1 + stride + (1 + stride) * Z.of_nat i)) by lia.
    rewrite Z.add_mod_idemp_l by lia. f_equal. lia.
Qed.

(** X7.  Round robin.  While every class asked reports spare capacity, the
    calls of [DetermineSizeClassToEvict] return the classes in cyclic order:
    from a cursor [c] in [1, kNumClasses], call [i] (counted from 0) returns
    class [1 + (c - 1 + i) mod (kNumClasses - 1)].  So every class of
    [1, kNumClasses) is returned by one of any [kNumClasses - 1] calls in a
    row. *)
Theorem DetermineSizeClassToEvict_round_robin
    (kNumClasses : Z) (rbtc tc : Z -> bool) (args : list Z) (s : manager) :
  1 < kNumClasses -> 1 <= next_to_evict_ s <= kNumClasses ->
  (forall t, match implementation_ s with Ring => rbtc t | _ => tc t end = true) ->
  let classes := fst (DetermineSizeClassToEvict_calls kNumClasses rbtc tc args s) in
  (forall i : nat, (i < length args)%nat ->
     classes !! i
       = Some (1 + (next_to_evict_ s - 1 + Z.of_nat i) mod (kNumClasses - 1)))
  /\ (kNumClasses - 1 <= Z.of_nat (length args) ->
      forall t, 1 <= t < kNumClasses -> In t classes).
Proof.
  intros Hk Hs Hspare classes.
  assert (Hform : forall i : nat, (i < length args)%nat ->
            classes !! i
              = Some (1 + (next_to_evict_ s - 1 + Z.of_nat i) mod (kNumClasses - 1))).
  { intros i Hi. unfold classes.
    rewrite (DetermineSizeClassToEvict_calls_stride kNumClasses rbtc tc true args s Hk Hs)
      by (try exact Hi; intros t c _; specialize (Hspare t);
          destruct (implementation_ s); try exact Hspare;
          rewrite Hspare; apply orb_true_r).
    do 3 f_equal. lia. }
  split; [exact Hform |].
  intros Hlong t Ht.
  set (i := Z.to_nat ((t - next_to_evict_ s) mod (kNumClasses - 1))).
  assert (Hi : 0 <= (t - next_to_evict_ s) mod (kNumClasses - 1) < kNumClasses - 1)
    by (apply Z.mod_pos_bound; lia).
  apply (list_elem_of_In classes t), (list_elem_of_lookup_2 _ i).
  rewrite Hform by (unfold i; lia). f_equal.
  unfold i. rewrite Z2Nat.id by lia.
  rewrite Z.add_mod_idemp_r by lia.
  replace (next_to_evict_ s - 1 + (t - next_to_evict_ s)) with (t - 1) by lia.
  rewrite Z.mod_small by lia. lia.
Qed.

(** X8.  While no class asked reports spare capacity, a manager that is not
    the ring variant takes two candidates per call and returns the second:
    from a cursor [c] in [1, kNumClasses], call [i] (counted from 0) returns
    class [1 + (c + 2 * i) mod (kNumClasses - 1)], so that successive calls
    return every other class. *)
Theorem DetermineSizeClassToEvict_every_other_class
    (kNumClasses : Z) (rbtc tc : Z -> bool) (args : list Z) (s : manager) :
  1 < kNumClasses -> 1 <= next_to_evict_ s <= kNumClasses ->
  implementation_ s <> Ring -> (forall t, tc t = false) ->
  forall i : nat, (i < length args)%nat ->
    fst (DetermineSizeClassToEvict_calls kNumClasses rbtc tc args s) !! i
      = Some (1 + (next_to_evict_ s + 2 * Z.of_nat i) mod (kNumClasses - 1)).
Proof.
  intros Hk Hs Himpl Hfull i Hi.
  rewrite (DetermineSizeClassToEvict_calls_stride kNumClasses rbtc tc false args s Hk Hs)
    by first [exact Hi
             | intros t c _; destruct (implementation_ s);
               [apply Hfull | apply Hfull | congruence]].
  do 3 f_equal. lia.
Qed.

Lemma DetermineSizeClassToEvict_calls_in_range_witness :
  fst (DetermineSizeClassToEvict_calls 4 (fun _ => false) (fun t => t =? 2) [9; 9; 9]
         (Manager 4 Legacy [])) = [2; 1; 2]
  /\ Forall (fun t => 1 <= t < 4)
       (fst (DetermineSizeClassToEvict_calls 4 (fun _ => false) (fun t => t =? 2)
               [9; 9; 9] (Manager 4 Legacy []))).
Proof.
  split; [reflexivity |].
  apply (DetermineSizeClassToEvict_calls_in_range 4 (fun _ => false) (fun t => t =? 2)
           [9; 9; 9] (Manager 4 Legacy [])); cbn; lia.
Defined.

Lemma DetermineSizeClassToEvict_round_robin_witness :
  fst (DetermineSizeClassToEvict_calls 4 (fun _ => true) (fun _ => false) [0; 0; 0; 0]
         (Manager 3 Ring [])) !! 1%nat = Some 1
  /\ In 2 (fst (DetermineSizeClassToEvict_calls 4 (fun _ => true) (fun _ => false)
                  [0; 0; 0; 0] (Manager 3 Ring []))).
Proof.
  destruct (DetermineSizeClassToEvict_round_robin 4 (fun _ => true) (fun _ => false)
              [0; 0; 0; 0] (Manager 3 Ring []))
    as (Hform & Hall); [lia | cbn; lia | reflexivity |].
  split.
  - exact (Hform 1%nat ltac:(cbn; lia)).
  - apply Hall; [cbn; lia | lia].
Defined.

Lemma DetermineSizeClassToEvict_every_other_class_witness :
  fst (DetermineSizeClassToEvict_calls 5 (fun _ => false) (fun _ => false) [0; 0; 0]
         (Manager 1 Legacy [])) !! 2%nat = Some 2.
Proof.
  apply (DetermineSizeClassToEvict_every_other_class 5 (fun _ => false) (fun _ => false)
           [0; 0; 0] (Manager 1 Legacy []));
    [lia | cbn; lia | discriminate | reflexivity | cbn; lia].
Defined.

End TransferCacheFacts.

Module NumaFacts.
Import Numa.

(** ** Membership in a [cpu_set_t] *)

Lemma size_t_of_int_small c : 0 <= c < 2 ^ 64 -> size_t_of_int c = c.
Proof. intros H. unfold size_t_of_int. apply Z.mod_small. exact H. Qed.

Lemma CPU_ISSET_ZERO c : CPU_ISSET c CPU_ZERO = false.
Proof. unfold CPU_ISSET, CPU_ZERO. rewrite Z.bits_0. apply andb_false_r. Qed.

Lemma CPU_ISSET_SET c c' set :
  0 <= c < 2 ^ 64 -> 0 <= c' < 2 ^ 64 ->
  CPU_ISSET c (CPU_SET c' set) = ((c =? c') && (c <? CPU_SETSIZE)) || CPU_ISSET c set.
Proof.
  intros Hc Hc'. unfold CPU_ISSET, CPU_SET. cbv zeta.
  rewrite !size_t_of_int_small by assumption.
  destruct (Z.ltb_spec c' CPU_SETSIZE) as [Hlt | Hge].
  - rewrite Z.lor_spec, Z.shiftl_1_l, Z.pow2_bits_eqb by lia.
    rewrite (Z.eqb_sym c' c).
    destruct (c <? CPU_SETSIZE), (c =? c'), (Z.testbit set c); reflexivity.
  - destruct (Z.eqb_spec c c') as [-> | Hne]; [| reflexivity].
    replace (c' <? CPU_SETSIZE) with false by (symmetry; apply Z.ltb_ge; exact Hge).
    reflexivity.
Qed.

Lemma CPU_ISSET_set_range n : forall a c set,
  0 <= a -> a + Z.of_nat n < 2 ^ 64 -> 0 <= c < 2 ^ 64 ->
  CPU_ISSET c (set_range n a set) =
    ((a <=? c) && (c <? a + Z.of_nat n) && (c <? CPU_SETSIZE)) || CPU_ISSET c set.
Proof.
  induction n as [| n IH]; intros a c set Ha Hn Hc.
  - cbn [set_range]. replace ((a <=? c) && (c <? a + Z.of_nat 0)) with false; [reflexivity |].
    symmetry. apply andb_false_iff.
    destruct (Z.leb_spec a c); [right; apply Z.ltb_ge; lia | left; reflexivity].
  - cbn [set_range]. rewrite IH by lia. rewrite CPU_ISSET_SET by lia.
    destruct (Z.eqb_spec c a) as [-> | Hne].
    + replace (a + 1 <=? a) with false by (symmetry; apply Z.leb_gt; lia).
      replace (a <=? a) with true by (symmetry; apply Z.leb_le; lia).
      replace (a <? a + Z.of_nat (S n)) with true by (symmetry; apply Z.ltb_lt; lia).
      reflexivity.
    + cbn [andb orb].
      replace (a + 1 <=? c) with (a <=? c)
        by (destruct (Z.leb_spec a c), (Z.leb_spec (a + 1) c); lia || reflexivity).
      replace (c <? a + 1 + Z.of_nat n) with (c <? a + Z.of_nat (S n))
        by (f_equal; lia).
      reflexivity.
Qed.

(** ** [SimpleAtoi] on decimal numerals *)

Lemma digits_value_spec ds : forall acc,
  forallb is_digit ds = true ->
  digits_value acc ds = Some (fold_left (fun acc c => 10 * acc + digit_value c) ds acc).
Proof.
  induction ds as [| c ds IH]; intros acc H; [reflexivity |].
  cbn [forallb] in H. apply andb_true_iff in H as [Hc Hds].
  cbn [digits_value fold_left]. rewrite Hc. apply IH. exact Hds.
Qed.

Lemma digit_value_range c : is_digit c = true -> 0 <= digit_value c <= 9.
Proof.
  unfold is_digit, digit_value. cbv zeta. intros H.
  apply andb_true_iff in H as [H1 H2].
  apply Nat.leb_le in H1, H2. lia.
Qed.

Lemma fold_digits_nonneg ds : forall acc,
  forallb is_digit ds = true -> 0 <= acc ->
  acc <= fold_left (fun acc c => 10 * acc + digit_value c) ds acc.
Proof.
  induction ds as [| c ds IH]; intros acc H Hacc; [cbn; lia |].
  cbn [forallb] in H. apply andb_true_iff in H as [Hc Hds].
  cbn [fold_left]. pose proof (digit_value_range c Hc).
  etransitivity; [| apply IH; [exact Hds | lia]]. lia.
Qed.

Lemma numeral_value_nonneg ds : forallb is_digit ds = true -> 0 <= numeral_value ds.
Proof. intros H. apply (fold_digits_nonneg ds 0 H). lia. Qed.

Lemma digit_not_space c : is_digit c = true -> is_space c = false.
Proof.
  unfold is_digit, is_space. cbv zeta. intros H.
  apply andb_true_iff in H as [H1 H2]. apply Nat.leb_le in H1, H2.
  apply orb_false_iff. split.
  - apply Nat.eqb_neq. lia.
  - apply andb_false_iff. right. apply Nat.leb_gt. lia.
Qed.

Lemma skip_spaces_digits ds : forallb is_digit ds = true -> skip_spaces ds = ds.
Proof.
  destruct ds as [| c ds]; [reflexivity |]. cbn [forallb skip_spaces]. intros H.
  apply andb_true_iff in H as [Hc _]. rewrite (digit_not_space c Hc). reflexivity.
Qed.

Lemma strip_digits ds : forallb is_digit ds = true -> strip ds = ds.
Proof.
  intros H. unfold strip. rewrite (skip_spaces_digits ds H).
  rewrite skip_spaces_digits, rev_involutive; [reflexivity |].
  apply forallb_forall. intros c Hc. apply in_rev in Hc.
  revert c Hc. apply forallb_forall. exact H.
Qed.

Lemma SimpleAtoi_numeral ds :
  numeral ds -> numeral_value ds <= INT_MAX -> SimpleAtoi ds = Some (numeral_value ds).
Proof.
  intros [Hne Hds] Hmax. unfold SimpleAtoi. rewrite (strip_digits ds Hds).
  destruct ds as [| c ds']; [congruence |].
  assert (Hc : is_digit c = true) by (cbn [forallb] in Hds; apply andb_true_iff in Hds; tauto).
  assert (Hv : digits_value 0 (c :: ds') = Some (numeral_value (c :: ds')))
    by (apply digits_value_spec; exact Hds).
  assert (Hle : (numeral_value (c :: ds') <=? INT_MAX) = true) by (apply Z.leb_le; exact Hmax).
  destruct c as [[] [] [] [] [] [] [] []]; try discriminate Hc;
    rewrite Hv, Hle; reflexivity.
Qed.

(** ** The text as a stream of tokens *)

Lemma find_app_None c l k :
  find c l = None ->
  find c (l ++ k) = option_map (fun i => (length l + i)%nat) (find c k).
Proof.
  induction l as [| x l IH]; cbn [find app length]; intros H.
  - destruct (find c k); reflexivity.
  - destruct (Ascii.eqb x c); [discriminate |].
    destruct (find c l); [discriminate |].
    rewrite IH by reflexivity. destruct (find c k); reflexivity.
Qed.

Lemma find_clean c tok : clean tok -> is_separator c = true -> find c tok = None.
Proof.
  unfold clean. induction tok as [| x tok IH]; cbn [forallb find]; intros H Hc;
    [reflexivity |].
  apply andb_true_iff in H as [Hx Htok].
  destruct (Ascii.eqb_spec x c) as [-> | Hne].
  - rewrite Hc in Hx. discriminate.
  - rewrite IH by assumption. reflexivity.
Qed.

Lemma clean_take tok k : clean tok -> clean (take k tok).
Proof.
  unfold clean. revert k. induction tok as [| x tok IH]; intros [| k] H;
    cbn [take forallb] in *; try reflexivity.
  apply andb_true_iff in H as [Hx Htok]. rewrite Hx. apply IH. exact Htok.
Qed.

Lemma file_read_spec (f : file) (count : nat) :
  exists n,
    file_read f count = (Some (take n (pending f)), File (drop n (pending f)) (tail (chunks f)))
    /\ (n <= count)%nat /\ (n <= length (pending f))%nat
    /\ (n = 0%nat -> count = 0%nat \/ pending f = []).
Proof.
  unfold file_read. cbv zeta. eexists. split; [reflexivity |].
  repeat split; try lia.
  intros H. destruct (pending f) as [| x p]; [right; reflexivity | left].
  cbn [length] in H. destruct (chunks f); lia.
Qed.

(** One step of the loop in the three situations that arise. *)
Lemma loop_step_wait fuel (r : file) data r' buf cpu_from set :
  file_read r (16 - length buf) = (Some data, r') ->
  data <> [] ->
  find "-" (buf ++ data) = None -> find "," (buf ++ data) = None ->
  ParseCpulist_loop file_read (S fuel) r buf cpu_from set =
    ParseCpulist_loop file_read fuel r' (buf ++ data) cpu_from set.
Proof.
  intros Hread Hdata Hd Hc. cbn [ParseCpulist_loop]. rewrite Hread. cbv zeta.
  rewrite Hd, Hc. cbn [found orb].
  destruct data as [| x data]; [congruence |].
  rewrite length_app. cbn [length].
  replace (length buf + S (length data) =? 0)%nat with false
    by (symmetry; apply Nat.eqb_neq; lia).
  reflexivity.
Qed.

Lemma loop_step_dash fuel (r : file) data r' buf cpu_from set tok more :
  file_read r (16 - length buf) = (Some data, r') ->
  buf ++ data = tok ++ "-"%char :: more -> clean tok ->
  ParseCpulist_loop file_read (S fuel) r buf cpu_from set =
    match SimpleAtoi tok with
    | None => CheckFailed "absl::SimpleAtoi(current.substr(0, dash), &cpu_from)"
    | Some v => ParseCpulist_loop file_read fuel r' more v set
    end.
Proof.
  intros Hread Hcur Hclean. cbn [ParseCpulist_loop]. rewrite Hread. cbv zeta.
  rewrite Hcur.
  rewrite (find_app_None "-" tok) by (apply find_clean; [exact Hclean | reflexivity]).
  rewrite (find_app_None "," tok) by (apply find_clean; [exact Hclean | reflexivity]).
  cbn [find Ascii.eqb Bool.eqb option_map].
  rewrite length_app. cbn [length].
  replace (length tok + S (length more) =? 0)%nat with false
    by (symmetry; apply Nat.eqb_neq; lia).
  cbn [andb].
  assert (Hfirst : match option_map (fun i : nat => (length tok + i)%nat)
                          (option_map S (find "," more)) with
                   | Some c => if (length tok + 0 <? c)%nat then Some (length tok + 0)%nat
                               else None
                   | None => Some (length tok + 0)%nat
                   end = Some (length tok)).
  { rewrite Nat.add_0_r. destruct (find "," more); cbn [option_map]; [| reflexivity].
    replace (length tok <? length tok + S n)%nat with true
      by (symmetry; apply Nat.ltb_lt; lia). reflexivity. }
  rewrite Hfirst.
  rewrite take_app_length.
  replace (length tok + 1)%nat with (length (tok ++ ["-"%char]))
    by (rewrite length_app; reflexivity).
  replace (tok ++ "-"%char :: more) with ((tok ++ ["-"%char]) ++ more)
    by (rewrite <- app_assoc; reflexivity).
  rewrite drop_app_length. reflexivity.
Qed.

Lemma loop_step_comma fuel (r : file) data r' buf cpu_from set tok more :
  file_read r (16 - length buf) = (Some data, r') ->
  buf ++ data = tok ++ ","%char :: more -> clean tok ->
  ParseCpulist_loop file_read (S fuel) r buf cpu_from set =
    match SimpleAtoi tok with
    | None => CheckFailed "absl::SimpleAtoi(current.substr(0, comma), &cpu)"
    | Some cpu =>
        if cpu_from =? -1 then
          ParseCpulist_loop file_read fuel r' more (-1) (CPU_SET cpu set)
        else if cpu =? INT_MAX then Undefined
        else ParseCpulist_loop file_read fuel r' more (-1)
               (set_range (Z.to_nat (cpu - cpu_from + 1)) cpu_from set)
    end.
Proof.
  intros Hread Hcur Hclean. cbn [ParseCpulist_loop]. rewrite Hread. cbv zeta.
  rewrite Hcur.
  rewrite (find_app_None "-" tok) by (apply find_clean; [exact Hclean | reflexivity]).
  rewrite (find_app_None "," tok) by (apply find_clean; [exact Hclean | reflexivity]).
  cbn [find Ascii.eqb Bool.eqb option_map].
  rewrite length_app. cbn [length].
  replace (length tok + S (length more) =? 0)%nat with false
    by (symmetry; apply Nat.eqb_neq; lia).
  cbn [andb].
  assert (Hfirst : match option_map (fun i : nat => (length tok + i)%nat)
                          (option_map S (find "-" more)) with
                   | Some d => if (d <? length tok + 0)%nat then Some d else None
                   | None => None
                   end = None).
  { destruct (find "-" more); cbn [option_map]; [| reflexivity].
    replace (length tok + S n <? length tok + 0)%nat with false
      by (symmetry; apply Nat.ltb_ge; lia). reflexivity. }
  rewrite Hfirst. cbn [found orb].
  rewrite Nat.add_0_r, take_app_length.
  replace (length tok + 1)%nat with (length (tok ++ [","%char]))
    by (rewrite length_app; reflexivity).
  replace (tok ++ ","%char :: more) with ((tok ++ [","%char]) ++ more)
    by (rewrite <- app_assoc; reflexivity).
  rewrite drop_app_length. reflexivity.
Qed.

Lemma loop_step_last fuel (r : file) r' buf cpu_from set :
  file_read r (16 - length buf) = (Some [], r') ->
  buf <> [] -> clean buf ->
  ParseCpulist_loop file_read (S fuel) r buf cpu_from set =
    match SimpleAtoi buf with
    | None => CheckFailed "absl::SimpleAtoi(current.substr(0, comma), &cpu)"
    | Some cpu =>
        if cpu_from =? -1 then
          ParseCpulist_loop file_read fuel r' [] (-1) (CPU_SET cpu set)
        else if cpu =? INT_MAX then Undefined
        else ParseCpulist_loop file_read fuel r' [] (-1)
               (set_range (Z.to_nat (cpu - cpu_from + 1)) cpu_from set)
    end.
Proof.
  intros Hread Hne Hclean. cbn [ParseCpulist_loop]. rewrite Hread. cbv zeta.
  rewrite app_nil_r.
  rewrite (find_clean "-" buf Hclean eq_refl), (find_clean "," buf Hclean eq_refl).
  destruct buf as [| x buf]; [congruence |].
  cbn [length Nat.eqb andb found orb].
  change (S (length buf)) with (length (x :: buf)). rewrite drop_all. reflexivity.
Qed.

Lemma loop_step_done fuel (r : file) r' cpu_from set :
  file_read r 16 = (Some [], r') ->
  ParseCpulist_loop file_read (S fuel) r [] cpu_from set = Done set.
Proof. intros Hread. cbn [ParseCpulist_loop length Nat.sub]. rewrite Hread. reflexivity. Qed.

(** The loop consumes the text token by token, however the reads are cut. *)
Lemma ParseCpulist_loop_tokens fuel :
  forall toks buf pend ch cpu_from set,
    wf_stream toks -> buf ++ pend = flatten toks -> (length buf <= 15)%nat ->
    (2 * length pend + length buf < fuel)%nat ->
    ParseCpulist_loop file_read fuel (File pend ch) buf cpu_from set
      = run_tokens toks cpu_from set.
Proof.
  induction fuel as [| fuel IH]; intros toks buf pend ch cpu_from set Hwf HT Hbuf Hfuel;
    [lia |].
  destruct (file_read_spec (File pend ch) (16 - length buf)) as (n & Hread & Hn1 & Hn2 & Hn0).
  cbn [pending chunks] in Hread, Hn2, Hn0.
  destruct toks as [| [tok t] rest].
  - (* nothing left to read *)
    cbn [flatten] in HT. apply app_eq_nil in HT as [-> ->].
    cbn [run_tokens]. rewrite take_nil in Hread.
    eapply loop_step_done. exact Hread.
  - cbn [wf_stream] in Hwf. destruct Hwf as (Hclean & Hlen & Hend & Hrest).
    cbn [flatten] in HT.
    assert (Hcur : buf ++ take n pend
                   = take (length buf + n) (tok ++ terminator_text t ++ flatten rest)).
    { rewrite <- HT. rewrite take_app_add' by reflexivity. reflexivity. }
    assert (Hpend : drop n pend
                    = drop (length buf + n) (tok ++ terminator_text t ++ flatten rest)).
    { rewrite <- HT. rewrite drop_app_add' by reflexivity. reflexivity. }
    assert (HlenT : (length buf + length pend
                     = length tok + length (terminator_text t ++ flatten rest))%nat).
    { rewrite <- !length_app, HT. reflexivity. }
    destruct (le_lt_dec (length buf + n) (length tok)) as [Hshort | Hlong].
    + (* the bytes read so far lie inside the token *)
      rewrite take_app_le in Hcur by exact Hshort.
      assert (Hcl : clean (buf ++ take n pend)) by (rewrite Hcur; apply clean_take; exact Hclean).
      destruct n as [| n].
      * (* end of input *)
        destruct Hn0 as [Hcount | ->]; [reflexivity | lia |].
        rewrite take_nil in Hread. rewrite app_nil_r in HT, Hcl.
        cbn [length] in HlenT.
        assert (Ht : t = TEnd).
        { destruct t; [cbn [terminator_text app length] in HlenT; lia .. | reflexivity]. }
        destruct (Hend Ht) as [Htok ->]. subst t.
        cbn [terminator_text flatten app] in HT. rewrite app_nil_r in HT. subst buf.
        rewrite (loop_step_last fuel _ _ tok cpu_from set Hread Htok Hcl).
        cbn [run_tokens drop].
        assert (Hnext : forall cf st,
                   ParseCpulist_loop file_read fuel (File [] (tail ch)) [] cf st
                   = run_tokens [] cf st).
        { intros cf st. apply IH; [exact I | reflexivity | cbn; lia |].
          destruct tok; [congruence | cbn [length] in *; lia]. }
        destruct (SimpleAtoi tok); [| reflexivity].
        destruct (cpu_from =? -1); [apply Hnext |].
        destruct (z =? INT_MAX); [reflexivity | apply Hnext].
      * (* wait for more *)
        assert (Hdata : take (S n) pend <> []).
        { destruct pend; [cbn [length] in Hn2; lia | discriminate]. }
        rewrite (loop_step_wait fuel _ _ _ buf cpu_from set Hread Hdata
                   (find_clean "-" _ Hcl eq_refl) (find_clean "," _ Hcl eq_refl)).
        apply IH.
        -- cbn [wf_stream]. auto.
        -- rewrite <- app_assoc, take_drop. exact HT.
        -- rewrite Hcur, length_take. lia.
        -- rewrite length_app, length_drop, length_take. lia.
    + (* the separator after the token has been read *)
      set (j := (length buf + n - length tok - 1)%nat).
      assert (Hm : (length buf + n = length tok + S j)%nat) by (unfold j; lia).
      assert (Hsep : exists sep, terminator_text t = [sep]
                                 /\ (t = TDash /\ sep = "-"%char \/ t = TComma /\ sep = ","%char)).
      { destruct t.
        - exists "-"%char. auto.
        - exists ","%char. auto.
        - destruct (Hend eq_refl) as [_ ->].
          cbn [terminator_text flatten app length] in HlenT. lia. }
      destruct Hsep as (sep & Htext & Ht).
      rewrite Htext in Hcur, Hpend. cbn [app] in Hcur, Hpend.
      rewrite Hm, take_app_add' in Hcur by reflexivity. cbn [take] in Hcur.
      rewrite Hm, drop_app_add' in Hpend by reflexivity. cbn [drop] in Hpend.
      assert (Hnext : forall cf st,
                 ParseCpulist_loop file_read fuel (File (drop n pend) (tail ch))
                   (take j (flatten rest)) cf st
                 = run_tokens rest cf st).
      { intros cf st. apply IH.
        - exact Hrest.
        - rewrite Hpend. apply take_drop.
        - rewrite length_take. lia.
        - rewrite length_drop, length_take. lia. }
      destruct Ht as [[-> ->] | [-> ->]].
      * rewrite (loop_step_dash fuel _ _ _ buf cpu_from set tok _ Hread Hcur Hclean).
        cbn [run_tokens]. destruct (SimpleAtoi tok); [apply Hnext | reflexivity].
      * rewrite (loop_step_comma fuel _ _ _ buf cpu_from set tok _ Hread Hcur Hclean).
        cbn [run_tokens]. destruct (SimpleAtoi tok); [| reflexivity].
        destruct (cpu_from =? -1); [apply Hnext |].
        destruct (z =? INT_MAX); [reflexivity | apply Hnext].
Qed.

(** ** CPU lists *)

Lemma flatten_tokens_of items : flatten (tokens_of items) = cpulist_text items.
Proof.
  induction items as [| i rest IH]; [reflexivity |].
  destruct i as [a | a b]; cbn [tokens_of flatten cpulist_text item_text];
    rewrite IH; destruct rest as [| i' rest'];
    cbn [last_terminator terminator_text cpulist_text app];
    rewrite <- ?app_assoc, ?app_nil_r; reflexivity.
Qed.

Lemma digits_clean ds : forallb is_digit ds = true -> clean ds.
Proof.
  unfold clean. intros H. apply forallb_forall. intros c Hc.
  assert (Hd : is_digit c = true) by (revert c Hc; apply forallb_forall; exact H).
  unfold is_separator.
  destruct (Ascii.eqb_spec c "-") as [-> | _]; [discriminate Hd |].
  destruct (Ascii.eqb_spec c ",") as [-> | _]; [discriminate Hd |].
  reflexivity.
Qed.

Lemma wf_tokens_of items : Forall short_item items -> wf_stream (tokens_of items).
Proof.
  induction 1 as [| i rest Hi Hrest IH]; [exact I |].
  destruct i as [a | a b]; cbn [tokens_of wf_stream].
  - destruct Hi as ((Hne & Hds) & Hlen & _).
    repeat split; auto using digits_clean.
    destruct rest; [reflexivity | discriminate].
  - destruct Hi as (((Hne & Hds) & Hlen & _) & ((Hne' & Hds') & Hlen' & _)).
    repeat split; auto using digits_clean; try discriminate.
    destruct rest; [reflexivity | discriminate].
Qed.

Lemma short_numeral_atoi ds :
  short_numeral ds ->
  SimpleAtoi ds = Some (numeral_value ds) /\ 0 <= numeral_value ds < INT_MAX.
Proof.
  intros (Hnum & _ & Hmax). split.
  - apply SimpleAtoi_numeral; [exact Hnum | lia].
  - split; [apply numeral_value_nonneg; apply Hnum | exact Hmax].
Qed.

Lemma last_terminator_not_dash rest : last_terminator rest <> TDash.
Proof. destruct rest; discriminate. Qed.

Lemma run_tokens_value tok t rest cpu_from set :
  t <> TDash ->
  run_tokens ((tok, t) :: rest) cpu_from set =
    match SimpleAtoi tok with
    | None => CheckFailed "absl::SimpleAtoi(current.substr(0, comma), &cpu)"
    | Some cpu =>
        if cpu_from =? -1 then run_tokens rest (-1) (CPU_SET cpu set)
        else if cpu =? INT_MAX then Undefined
        else run_tokens rest (-1)
               (set_range (Z.to_nat (cpu - cpu_from + 1)) cpu_from set)
    end.
Proof. destruct t; [congruence | reflexivity | reflexivity]. Qed.

Lemma run_tokens_dash tok rest cpu_from set :
  run_tokens ((tok, TDash) :: rest) cpu_from set =
    match SimpleAtoi tok with
    | None => CheckFailed "absl::SimpleAtoi(current.substr(0, dash), &cpu_from)"
    | Some v => run_tokens rest v set
    end.
Proof. reflexivity. Qed.

(** On the tokens of a CPU list the parser adds exactly the listed cpus that
    fit a [cpu_set_t]. *)
Lemma run_tokens_items items :
  Forall short_item items ->
  forall set, exists set',
    run_tokens (tokens_of items) (-1) set = Done set'
    /\ forall c, 0 <= c < 2 ^ 64 ->
         (CPU_ISSET c set' = true <->
          (c < CPU_SETSIZE /\ listed items c) \/ CPU_ISSET c set = true).
Proof.
  induction 1 as [| i rest Hi Hrest IH]; intros set.
  - exists set. split; [reflexivity |]. intros c Hc. split; [auto |].
    intros [[_ (i & [] & _)] | H]; exact H.
  - destruct i as [a | a b].
    + destruct (short_numeral_atoi a Hi) as (Ha & Hra). unfold INT_MAX in Hra.
      cbn [tokens_of].
      rewrite run_tokens_value by apply last_terminator_not_dash.
      rewrite Ha. change (-1 =? -1) with true. cbv iota.
      destruct (IH (CPU_SET (numeral_value a) set)) as (set' & Hrun & Hmem).
      exists set'. split; [exact Hrun |]. intros c Hc.
      rewrite (Hmem c Hc), CPU_ISSET_SET by lia.
      rewrite orb_true_iff, andb_true_iff, Z.eqb_eq, Z.ltb_lt.
      unfold listed. split.
      * intros [(Hlt & i & Hin & Hi') | [[-> Hlt] | Hset]].
        -- left. split; [exact Hlt |]. exists i. split; [right; exact Hin | exact Hi'].
        -- left. split; [exact Hlt |]. exists (Single a). split; [left |]; reflexivity.
        -- right. exact Hset.
      * intros [(Hlt & i & [<- | Hin] & Hi') | Hset].
        -- right. left. split; [exact Hi' | exact Hlt].
        -- left. split; [exact Hlt |]. exists i. auto.
        -- right. right. exact Hset.
    + destruct Hi as (Hsa & Hsb).
      destruct (short_numeral_atoi a Hsa) as (Ha & Hra).
      destruct (short_numeral_atoi b Hsb) as (Hb & Hrb). unfold INT_MAX in Hra, Hrb.
      cbn [tokens_of]. rewrite run_tokens_dash, Ha.
      rewrite run_tokens_value by apply last_terminator_not_dash.
      rewrite Hb.
      replace (numeral_value a =? -1) with false by (symmetry; apply Z.eqb_neq; lia).
      replace (numeral_value b =? INT_MAX) with false
        by (symmetry; apply Z.eqb_neq; unfold INT_MAX; lia).
      set (n := Z.to_nat (numeral_value b - numeral_value a + 1)).
      destruct (IH (set_range n (numeral_value a) set)) as (set' & Hrun & Hmem).
      exists set'. split; [exact Hrun |]. intros c Hc.
      rewrite (Hmem c Hc), CPU_ISSET_set_range by (unfold n; lia).
      rewrite orb_true_iff, !andb_true_iff, Z.leb_le, !Z.ltb_lt.
      unfold listed. split.
      * intros [(Hlt & i & Hin & Hi') | [[[Hlo Hhi] Hlt] | Hset]].
        -- left. split; [exact Hlt |]. exists i. split; [right; exact Hin | exact Hi'].
        -- left. split; [exact Hlt |]. exists (Range a b). split; [left; reflexivity |].
           cbn [item_lists]. unfold n in Hhi. lia.
        -- right. exact Hset.
      * intros [(Hlt & i & [<- | Hin] & Hi') | Hset].
        -- right. left. cbn [item_lists] in Hi'. unfold n. lia.
        -- left. split; [exact Hlt |]. exists i. auto.
        -- right. right. exact Hset.
Qed.

(** Whatever the chunks, [ParseCpulist] is [run_tokens] on the tokens. *)
Lemma ParseCpulist_tokens toks ch fuel :
  wf_stream toks -> (2 * length (flatten toks) < fuel)%nat ->
  ParseCpulist file_read fuel (File (flatten toks) ch) = run_tokens toks (-1) CPU_ZERO.
Proof.
  intros Hwf Hfuel. unfold ParseCpulist.
  apply ParseCpulist_loop_tokens; [exact Hwf | reflexivity | cbn; lia | cbn [length]; lia].
Qed.

(** A token that [SimpleAtoi] refuses is fatal, unless an earlier range ends
    at [INT_MAX]. *)
Lemma run_tokens_malformed toks :
  Exists (fun tt => SimpleAtoi (fst tt) = None) toks ->
  Forall (fun tt => SimpleAtoi (fst tt) <> Some INT_MAX) toks ->
  forall cpu_from set, exists cond, run_tokens toks cpu_from set = CheckFailed cond.
Proof.
  induction toks as [| [tok t] rest IH]; intros Hex Hall cpu_from set.
  - inversion Hex.
  - inversion Hall as [| ? ? Hmax Hall']; subst. cbn [fst] in Hmax.
    destruct (SimpleAtoi tok) as [v |] eqn:Hv.
    + assert (Hrest : Exists (fun tt => SimpleAtoi (fst tt) = None) rest).
      { inversion Hex as [? ? H | ? ? H]; subst; [cbn [fst] in H; congruence | exact H]. }
      destruct t; cbn [run_tokens]; rewrite Hv.
      * apply IH; assumption.
      * destruct (cpu_from =? -1); [apply IH; assumption |].
        replace (v =? INT_MAX) with false by (symmetry; apply Z.eqb_neq; congruence).
        apply IH; assumption.
      * destruct (cpu_from =? -1); [apply IH; assumption |].
        replace (v =? INT_MAX) with false by (symmetry; apply Z.eqb_neq; congruence).
        apply IH; assumption.
    + destruct t; cbn [run_tokens]; rewrite Hv; eexists; reflexivity.
Qed.

(** A CPU list of short numerals parses, for every chunking, to the listed
    cpus that fit a [cpu_set_t]. *)
Lemma ParseCpulist_items (items : list item) (chunks : list nat) (fuel : nat) :
  Forall short_item items ->
  (2 * length (cpulist_text items) < fuel)%nat ->
  exists set,
    ParseCpulist file_read fuel (File (cpulist_text items) chunks) = Done set
    /\ forall c, 0 <= c < 2 ^ 64 ->
         (CPU_ISSET c set = true <-> c < CPU_SETSIZE /\ listed items c).
Proof.
  intros Hitems Hfuel.
  rewrite <- flatten_tokens_of in Hfuel |- *.
  rewrite ParseCpulist_tokens by (auto using wf_tokens_of).
  destruct (run_tokens_items items Hitems CPU_ZERO) as (set & Hrun & Hmem).
  exists set. split; [exact Hrun |]. intros c Hc.
  rewrite (Hmem c Hc), CPU_ISSET_ZERO. intuition discriminate.
Qed.

Ltac short_numeral_tac :=
  split; [split; [discriminate | reflexivity]
         | split; [cbn [length]; lia | exact eq_refl]].
Ltac short_items :=
  repeat (apply List.Forall_cons;
          [cbn [short_item]; first [short_numeral_tac | split; short_numeral_tac] |]);
  apply List.Forall_nil.

(** C6 as stated fails: cpu numbers from [CPU_SETSIZE] on are dropped, so the
    range "1020-1030" is applied in part and "2000" is lost; a numeral that
    does not fit the buffer is cut in two. *)
Lemma ParseCpulist_union_counterexample :
  (exists set,
     ParseCpulist file_read 100 (File (list_ascii_of_string "1020-1030") []) = Done set
     /\ CPU_ISSET 1020 set = true /\ CPU_ISSET 1023 set = true
     /\ CPU_ISSET 1024 set = false /\ CPU_ISSET 1030 set = false)
  /\ ParseCpulist file_read 100 (File (list_ascii_of_string "2000") []) = Done CPU_ZERO
  /\ (exists set,
        ParseCpulist file_read 100 (File (list_ascii_of_string "00000000000000001") [])
          = Done set
        /\ CPU_ISSET 0 set = true /\ CPU_ISSET 1 set = true).
Proof.
  split; [| split].
  - eexists. split; [vm_compute; reflexivity |]. repeat split; vm_compute; reflexivity.
  - vm_compute. reflexivity.
  - eexists. split; [vm_compute; reflexivity |]. split; vm_compute; reflexivity.
Qed.

(** C6, as amended.  For every CPU list of comma-separated entries, each a
    decimal numeral or two numerals joined by a dash, whose numerals have at
    most 15 characters and a value below [INT_MAX], and for every way the
    reads cut the text, [ParseCpulist] returns the set of the listed cpus
    that are below [CPU_SETSIZE]; cpus from [CPU_SETSIZE] on are dropped.
    "0-2,5,8-9" gives the set of 0, 1, 2, 5, 8 and 9.  The empty text gives
    the empty set, and a range whose start exceeds its end adds nothing.  A
    text with a token that [SimpleAtoi] refuses ends in a failed
    [CHECK_CONDITION] (here for tokens of at most 15 characters, none of
    which has the value [INT_MAX]). *)
Theorem ParseCpulist_union :
  (forall (items : list item) (chunks : list nat) (fuel : nat),
     Forall short_item items ->
     (2 * length (cpulist_text items) < fuel)%nat ->
     exists set,
       ParseCpulist file_read fuel (File (cpulist_text items) chunks) = Done set
       /\ forall c, 0 <= c < 2 ^ 64 ->
            (CPU_ISSET c set = true <-> c < CPU_SETSIZE /\ listed items c))
  /\ (forall (chunks : list nat) (fuel : nat),
        (18 < fuel)%nat ->
        ParseCpulist file_read fuel (File (list_ascii_of_string "0-2,5,8-9") chunks)
          = Done (2 ^ 0 + 2 ^ 1 + 2 ^ 2 + 2 ^ 5 + 2 ^ 8 + 2 ^ 9))
  /\ (forall (chunks : list nat) (fuel : nat),
        (0 < fuel)%nat ->
        ParseCpulist file_read fuel (File [] chunks) = Done CPU_ZERO)
  /\ (forall (a b : list ascii) (chunks : list nat) (fuel : nat),
        short_numeral a -> short_numeral b -> numeral_value b < numeral_value a ->
        (2 * length (cpulist_text [Range a b]) < fuel)%nat ->
        ParseCpulist file_read fuel (File (cpulist_text [Range a b]) chunks)
          = Done CPU_ZERO)
  /\ (forall (toks : list (list ascii * terminator)) (chunks : list nat) (fuel : nat),
        wf_stream toks ->
        Exists (fun tt => SimpleAtoi (fst tt) = None) toks ->
        Forall (fun tt => SimpleAtoi (fst tt) <> Some INT_MAX) toks ->
        (2 * length (flatten toks) < fuel)%nat ->
        exists cond,
          ParseCpulist file_read fuel (File (flatten toks) chunks) = CheckFailed cond).
Proof.
  split; [| split; [| split; [| split]]].
  - intros items chunks fuel Hitems Hfuel. apply ParseCpulist_items; assumption.
  - intros chunks fuel Hfuel.
    change (list_ascii_of_string "0-2,5,8-9")
      with (flatten (tokens_of [Range ["0"%char] ["2"%char]; Single ["5"%char];
                                Range ["8"%char] ["9"%char]])).
    rewrite ParseCpulist_tokens; [reflexivity | | cbn; lia].
    apply wf_tokens_of. short_items.
  - intros chunks fuel Hfuel.
    change (@nil ascii) with (flatten []) at 1.
    rewrite ParseCpulist_tokens; [reflexivity | exact I | cbn; lia].
  - intros a b chunks fuel Ha Hb Hlt Hfuel.
    rewrite <- flatten_tokens_of in Hfuel |- *.
    rewrite ParseCpulist_tokens; [| | exact Hfuel].
    2:{ apply wf_tokens_of. apply List.Forall_cons; [split; assumption | apply List.Forall_nil]. }
    destruct (short_numeral_atoi a Ha) as (Hva & Hra).
    destruct (short_numeral_atoi b Hb) as (Hvb & Hrb).
    cbn [tokens_of last_terminator]. rewrite run_tokens_dash, Hva.
    rewrite run_tokens_value by discriminate. rewrite Hvb.
    replace (numeral_value a =? -1) with false by (symmetry; apply Z.eqb_neq; lia).
    replace (numeral_value b =? INT_MAX) with false by (symmetry; apply Z.eqb_neq; lia).
    replace (Z.to_nat (numeral_value b - numeral_value a + 1)) with 0%nat by lia.
    reflexivity.
  - intros toks chunks fuel Hwf Hbad Hmax Hfuel.
    rewrite ParseCpulist_tokens by assumption.
    apply run_tokens_malformed; assumption.
Qed.

Lemma ParseCpulist_union_witness :
  Forall short_item [Range ["0"%char] ["2"%char]; Single ["5"%char];
                     Range ["8"%char] ["9"%char]]
  /\ exists set,
       ParseCpulist file_read 19
         (File (list_ascii_of_string "0-2,5,8-9") [0; 2; 0; 1]%nat) = Done set
       /\ (CPU_ISSET 5 set = true <->
           5 < CPU_SETSIZE
           /\ listed [Range ["0"%char] ["2"%char]; Single ["5"%char];
                      Range ["8"%char] ["9"%char]] 5).
Proof.
  assert (H : Forall short_item [Range ["0"%char] ["2"%char]; Single ["5"%char];
                                 Range ["8"%char] ["9"%char]]) by short_items.
  split; [exact H |].
  destruct (proj1 ParseCpulist_union _ [0; 2; 0; 1]%nat 19%nat H) as (set & Hrun & Hmem).
  - vm_compute. lia.
  - exists set. split; [exact Hrun |]. apply Hmem. vm_compute. intuition discriminate.
Defined.

(** ** The path [OpenSysfsCpulist] opens *)

Lemma digit_of_Z r :
  0 <= r < 10 ->
  is_digit (ascii_of_nat (Z.to_nat (48 + r))) = true
  /\ digit_value (ascii_of_nat (Z.to_nat (48 + r))) = r.
Proof.
  intros Hr. unfold is_digit, digit_value. cbv zeta.
  rewrite nat_ascii_embedding by lia.
  split; [| lia]. apply andb_true_iff. split; apply Nat.leb_le; lia.
Qed.

Lemma numeral_value_snoc (ds : list ascii) (d : ascii) :
  numeral_value (ds ++ [d]) = 10 * numeral_value ds + digit_value d.
Proof. unfold numeral_value. rewrite fold_left_app. reflexivity. Qed.

Lemma digit_of_value (d : ascii) :
  is_digit d = true -> ascii_of_nat (Z.to_nat (48 + digit_value d)) = d.
Proof.
  intros H. pose proof (digit_value_range d H) as Hr. unfold digit_value in *.
  replace (Z.to_nat (48 + (Z.of_nat (nat_of_ascii d) - 48))) with (nat_of_ascii d) by lia.
  apply ascii_nat_embedding.
Qed.

(** A numeral that starts with another digit than zero is not zero. *)
Lemma numeral_value_pos (d : ascii) (ds : list ascii) :
  forallb is_digit (d :: ds) = true -> d <> "0"%char ->
  0 < numeral_value (d :: ds).
Proof.
  intros Hds Hd. cbn [forallb] in Hds. apply andb_true_iff in Hds as [Hdigit Hds].
  pose proof (digit_value_range d Hdigit) as Hr.
  assert (Hone : 1 <= digit_value d).
  { destruct (Z.eq_dec (digit_value d) 0) as [Hzero | ]; [| lia].
    destruct Hd. rewrite <- (digit_of_value d Hdigit), Hzero. reflexivity. }
  unfold numeral_value. cbn [fold_left].
  pose proof (fold_digits_nonneg ds (10 * 0 + digit_value d) Hds ltac:(lia)). lia.
Qed.

(** The digits [decimal] produces are those of the decimal numeral. *)
Lemma decimal_of_numeral (ds : list ascii) :
  forall (fuel : nat) (acc : list ascii),
    decimal_numeral (numeral_value ds) ds -> (length ds <= fuel)%nat ->
    decimal fuel (numeral_value ds) acc = ds ++ acc.
Proof.
  induction ds as [| d ds IH] using rev_ind; intros fuel acc ((Hne & Hds) & _ & Hlead) Hlen;
    [destruct Hne; reflexivity |].
  rewrite length_app in Hlen. cbn [length] in Hlen.
  destruct fuel as [| fuel]; [lia |].
  rewrite forallb_app in Hds. apply andb_true_iff in Hds as [Hds Hd].
  cbn [forallb] in Hd. rewrite andb_true_r in Hd.
  pose proof (digit_value_range d Hd) as Hr.
  pose proof (numeral_value_nonneg ds Hds) as Hpos.
  rewrite numeral_value_snoc. cbn [decimal].
  replace ((10 * numeral_value ds + digit_value d) mod 10) with (digit_value d) by zlia.
  replace ((10 * numeral_value ds + digit_value d) / 10) with (numeral_value ds) by zlia.
  rewrite (digit_of_value d Hd).
  destruct ds as [| c ds].
  - reflexivity.
  - assert (Hc : c <> "0"%char).
    { intros ->. specialize (Hlead eq_refl). destruct ds; discriminate. }
    pose proof (numeral_value_pos c ds Hds Hc) as Hvalue.
    replace (numeral_value (c :: ds) =? 0) with false by (symmetry; apply Z.eqb_neq; lia).
    rewrite IH; [rewrite <- app_assoc; reflexivity | | lia].
    split; [split; [discriminate | exact Hds] |]. split; [reflexivity |].
    intros E. injection E as E. destruct (Hc E).
Qed.

Lemma decimal_spec (fuel : nat) :
  forall (n : Z) (acc : list ascii),
    (0 < fuel)%nat -> 0 <= n < 10 ^ Z.of_nat fuel ->
    exists ds,
      decimal fuel n acc = ds ++ acc /\ decimal_numeral n ds
      /\ (length ds <= fuel)%nat.
Proof.
  induction fuel as [| fuel IH]; intros n acc Hfuel Hn; [lia |].
  cbn [decimal].
  assert (Hr : 0 <= n mod 10 < 10) by (apply Z.mod_pos_bound; lia).
  destruct (digit_of_Z (n mod 10) Hr) as (Hd & Hv).
  set (d := ascii_of_nat (Z.to_nat (48 + n mod 10))) in *.
  destruct (Z.eqb_spec (n / 10) 0) as [Hlast | Hmore].
  - exists [d]. split; [reflexivity |]. split; [split; [| split] |].
    + split; [discriminate |]. cbn [forallb]. rewrite Hd. reflexivity.
    + unfold numeral_value. cbn [fold_left]. rewrite Hv. zlia.
    + intros E. injection E as ->. reflexivity.
    + cbn [length]. lia.
  - rewrite Nat2Z.inj_succ, Z.pow_succ_r in Hn by lia.
    assert (Hq : 0 <= n / 10 < 10 ^ Z.of_nat fuel) by zlia.
    assert (Hf : (0 < fuel)%nat).
    { destruct fuel; [| lia]. change (10 ^ Z.of_nat 0) with 1 in Hq. lia. }
    destruct (IH (n / 10) (d :: acc) Hf Hq)
      as (ds & Hrun & ((Hne & Hds) & Hval & Hlead) & Hlen).
    exists (ds ++ [d]). split; [rewrite Hrun, <- app_assoc; reflexivity |].
    split; [split; [| split] |].
    + split; [destruct ds; discriminate |].
      rewrite forallb_app, Hds. cbn [forallb]. rewrite Hd. reflexivity.
    + rewrite numeral_value_snoc, Hval, Hv. zlia.
    + destruct ds as [| c ds]; [destruct Hne; reflexivity |].
      intros E. injection E as ->. specialize (Hlead eq_refl).
      rewrite Hlead in Hval. change (numeral_value ["0"%char]) with 0 in Hval. lia.
    + rewrite length_app. cbn [length]. lia.
Qed.

Lemma format_zu_spec (node : Z) :
  0 <= node < 2 ^ 64 ->
  decimal_numeral node (format_zu node) /\ (length (format_zu node) <= 20)%nat.
Proof.
  intros Hnode. unfold format_zu. rewrite Z.mod_small by exact Hnode.
  destruct (decimal_spec 20 node []) as (ds & Hrun & Hnum & Hlen);
    [lia | change (2 ^ 64) with 18446744073709551616 in Hnode;
           change (10 ^ Z.of_nat 20) with 100000000000000000000; lia |].
  rewrite Hrun, app_nil_r. auto.
Qed.

(** A number has one decimal numeral only, the one [%zu] prints. *)
Lemma decimal_numeral_format_zu (node : Z) (ds : list ascii) :
  0 <= node < 2 ^ 64 -> decimal_numeral node ds -> ds = format_zu node.
Proof.
  intros Hnode Hds.
  destruct (format_zu_spec node Hnode) as (Hzu & Hlen).
  pose proof Hds as (_ & Hval & _). pose proof Hzu as (_ & Hval' & _).
  set (fuel := (length ds + 20)%nat).
  assert (H1 : decimal fuel node [] = ds ++ []).
  { rewrite <- Hval at 1. apply decimal_of_numeral; [rewrite Hval; exact Hds | lia]. }
  assert (H2 : decimal fuel node [] = format_zu node ++ []).
  { rewrite <- Hval' at 1.
    apply decimal_of_numeral; [rewrite Hval'; exact Hzu | lia]. }
  rewrite !app_nil_r in *. congruence.
Qed.

(** X13.  [OpenSysfsCpulist(node)] opens, read-only and close-on-exec, the
    path "/sys/devices/system/node/node<N>/cpulist", where <N> is the
    decimal numeral of [node]: the digits of its value, with no leading
    zero, which are one string only.  The path is never cut by the size of
    the buffer, and different nodes get different paths. *)
Theorem OpenSysfsCpulist_path
    {FD : Type} (signal_safe_open : list ascii -> Z -> FD) (node : Z) :
  0 <= node < 2 ^ 64 ->
  (exists ds,
     decimal_numeral node ds
     /\ (forall ds', decimal_numeral node ds' -> ds' = ds)
     /\ OpenSysfsCpulist signal_safe_open node
        = signal_safe_open
            (list_ascii_of_string "/sys/devices/system/node/node" ++ ds
             ++ list_ascii_of_string "/cpulist") 524288)
  /\ (forall node', 0 <= node' < 2 ^ 64 ->
        cpulist_path node' = cpulist_path node -> node' = node).
Proof.
  intros Hnode.
  assert (Hpath : forall n, 0 <= n < 2 ^ 64 ->
            cpulist_path n
            = list_ascii_of_string "/sys/devices/system/node/node" ++ format_zu n
              ++ list_ascii_of_string "/cpulist").
  { intros n Hn. unfold cpulist_path. apply take_ge.
    destruct (format_zu_spec n Hn) as (_ & Hlen).
    rewrite !length_app. cbn [list_ascii_of_string length].
    change (Z.to_nat (PATH_MAX - 1)) with 4095%nat. lia. }
  destruct (format_zu_spec node Hnode) as (Hnum & _).
  split.
  - exists (format_zu node). split; [exact Hnum |]. split.
    + intros ds' Hds'. apply decimal_numeral_format_zu; assumption.
    + unfold OpenSysfsCpulist. rewrite (Hpath node Hnode). reflexivity.
  - intros node' Hnode' E. rewrite (Hpath node Hnode), (Hpath node' Hnode') in E.
    apply app_inv_head, app_inv_tail in E.
    destruct (format_zu_spec node' Hnode') as ((_ & Hval' & _) & _).
    destruct Hnum as (_ & Hval & _). congruence.
Qed.

Lemma OpenSysfsCpulist_path_witness :
  0 <= 12 < 2 ^ 64
  /\ OpenSysfsCpulist (fun path flags => (path, flags)) 12
     = (list_ascii_of_string "/sys/devices/system/node/node12/cpulist", 524288).
Proof.
  assert (H : 0 <= 12 < 2 ^ 64) by lia.
  split; [exact H |].
  destruct (proj1 (OpenSysfsCpulist_path (fun path flags => (path, flags)) 12 H))
    as (ds & _ & Hone & Hopen).
  rewrite Hopen, <- (Hone ["1"%char; "2"%char]); [reflexivity |].
  split; [split; [discriminate | reflexivity] |].
  split; [reflexivity | discriminate].
Defined.

(** ** Further properties of [ParseCpulist] *)

Lemma CPU_SET_bits c set :
  (forall i, Z.testbit set i = true -> 0 <= i < CPU_SETSIZE) ->
  forall i, Z.testbit (CPU_SET c set) i = true -> 0 <= i < CPU_SETSIZE.
Proof.
  intros Hset i. unfold CPU_SET. cbv zeta.
  assert (Hc : 0 <= size_t_of_int c)
    by (unfold size_t_of_int; apply Z.mod_pos_bound; reflexivity).
  destruct (Z.ltb_spec (size_t_of_int c) CPU_SETSIZE) as [Hlt | Hge]; [| apply Hset].
  rewrite Z.lor_spec, Z.shiftl_1_l. intros H. apply orb_true_iff in H as [H | H].
  - apply Hset. exact H.
  - destruct (Z.neg_nonneg_cases i) as [Hneg | Hpos];
      [rewrite Z.testbit_neg_r in H by exact Hneg; discriminate |].
    rewrite Z.pow2_bits_eqb in H by exact Hc. apply Z.eqb_eq in H. lia.
Qed.

Lemma set_range_bits n : forall c set,
  (forall i, Z.testbit set i = true -> 0 <= i < CPU_SETSIZE) ->
  forall i, Z.testbit (set_range n c set) i = true -> 0 <= i < CPU_SETSIZE.
Proof.
  induction n as [| n IH]; intros c set Hset; [exact Hset |].
  cbn [set_range]. apply IH. apply CPU_SET_bits. exact Hset.
Qed.

Lemma ParseCpulist_loop_bits {R : Type} (read : R -> nat -> option (list ascii) * R)
    (fuel : nat) :
  forall r buf cpu_from set set',
    (forall i, Z.testbit set i = true -> 0 <= i < CPU_SETSIZE) ->
    ParseCpulist_loop read fuel r buf cpu_from set = Done set' ->
    forall i, Z.testbit set' i = true -> 0 <= i < CPU_SETSIZE.
Proof.
  induction fuel as [| fuel IH]; intros r buf cpu_from set set' Hset Hrun;
    [discriminate |].
  cbn [ParseCpulist_loop] in Hrun.
  destruct (read r (16 - length buf)%nat) as [[data |] r']; [| discriminate].
  destruct ((length (buf ++ data) =? 0)%nat && (length data =? 0)%nat).
  { injection Hrun as <-. exact Hset. }
  match type of Hrun with
  | match ?first with _ => _ end = _ => destruct first as [d |]
  end.
  - destruct (SimpleAtoi (take d (buf ++ data))); [| discriminate].
    eapply IH; eassumption.
  - destruct (found (find "," (buf ++ data)) || (length data =? 0)%nat);
      [| eapply IH; eassumption].
    match type of Hrun with
    | match SimpleAtoi ?tok with _ => _ end = _ => destruct (SimpleAtoi tok) as [cpu |]
    end; [| discriminate].
    destruct (cpu_from =? -1).
    + eapply IH; [| exact Hrun]. apply CPU_SET_bits. exact Hset.
    + destruct (cpu =? INT_MAX); [discriminate |].
      eapply IH; [| exact Hrun]. apply set_range_bits. exact Hset.
Qed.

(** X9.  Whatever the [read] callback delivers, a set returned by
    [ParseCpulist] holds cpu numbers below [CPU_SETSIZE] only: no bit outside
    the [CPU_SETSIZE] bits of a [cpu_set_t] is ever set, and every bit that
    is set is reported by [CPU_ISSET]. *)
Theorem ParseCpulist_within_CPU_SETSIZE
    {R : Type} (read : R -> nat -> option (list ascii) * R) (fuel : nat) (r : R)
    (set : cpu_set_t) :
  ParseCpulist read fuel r = Done set ->
  forall i, Z.testbit set i = true -> 0 <= i < CPU_SETSIZE /\ CPU_ISSET i set = true.
Proof.
  intros Hrun i Hi.
  assert (Hrange : 0 <= i < CPU_SETSIZE).
  { revert i Hi. eapply ParseCpulist_loop_bits; [| exact Hrun].
    intros i. unfold CPU_ZERO. rewrite Z.bits_0. discriminate. }
  split; [exact Hrange |].
  unfold CPU_ISSET. cbv zeta. unfold CPU_SETSIZE in Hrange.
  rewrite size_t_of_int_small by lia.
  rewrite Hi.
  replace (i <? CPU_SETSIZE) with true by (symmetry; apply Z.ltb_lt; exact (proj2 Hrange)).
  reflexivity.
Qed.

(** White space around a numeral, and white space alone. *)
Lemma skip_spaces_spaces_app ws s :
  forallb is_space ws = true -> skip_spaces (ws ++ s) = skip_spaces s.
Proof.
  induction ws as [| c ws IH]; [reflexivity |]. cbn [forallb app skip_spaces].
  intros H. apply andb_true_iff in H as [Hc Hws]. rewrite Hc. apply IH. exact Hws.
Qed.

Lemma forallb_rev {A : Type} (f : A -> bool) (l : list A) :
  forallb f l = true -> forallb f (rev l) = true.
Proof.
  intros H. apply forallb_forall. intros c Hc. apply in_rev in Hc.
  revert c Hc. apply forallb_forall. exact H.
Qed.

Lemma strip_spaces ws : forallb is_space ws = true -> strip ws = [].
Proof.
  intros H. unfold strip.
  rewrite <- (app_nil_r ws), (skip_spaces_spaces_app ws [] H). reflexivity.
Qed.

Lemma strip_numeral_spaces ds ws :
  numeral ds -> forallb is_space ws = true -> strip (ds ++ ws) = ds.
Proof.
  intros [Hne Hds] Hws. unfold strip.
  assert (Hskip : skip_spaces (ds ++ ws) = ds ++ ws).
  { destruct ds as [| c ds']; [congruence |]. cbn [forallb] in Hds.
    apply andb_true_iff in Hds as [Hc _].
    cbn [app skip_spaces]. rewrite (digit_not_space c Hc). reflexivity. }
  rewrite Hskip, rev_app_distr.
  rewrite skip_spaces_spaces_app by (apply forallb_rev; exact Hws).
  rewrite skip_spaces_digits by (apply forallb_rev; exact Hds).
  apply rev_involutive.
Qed.

Lemma SimpleAtoi_numeral_spaces ds ws :
  numeral ds -> forallb is_space ws = true -> SimpleAtoi (ds ++ ws) = SimpleAtoi ds.
Proof.
  intros Hds Hws. unfold SimpleAtoi.
  rewrite (strip_numeral_spaces ds ws Hds Hws), (strip_digits ds (proj2 Hds)).
  reflexivity.
Qed.

Lemma SimpleAtoi_spaces ws : forallb is_space ws = true -> SimpleAtoi ws = None.
Proof. intros H. unfold SimpleAtoi. rewrite (strip_spaces ws H). reflexivity. Qed.

Lemma spaces_clean ws : forallb is_space ws = true -> clean ws.
Proof.
  unfold clean. intros H. apply forallb_forall. intros c Hc.
  assert (Hs : is_space c = true) by (revert c Hc; apply forallb_forall; exact H).
  unfold is_separator.
  destruct (Ascii.eqb_spec c "-") as [-> | _]; [discriminate Hs |].
  destruct (Ascii.eqb_spec c ",") as [-> | _]; [discriminate Hs |].
  reflexivity.
Qed.

Lemma clean_app a b : clean a -> clean b -> clean (a ++ b).
Proof. unfold clean. intros Ha Hb. rewrite forallb_app, Ha, Hb. reflexivity. Qed.

Lemma flatten_pad_last ws toks :
  (exists tok, last toks = Some (tok, TEnd)) ->
  flatten (pad_last ws toks) = flatten toks ++ ws.
Proof.
  induction toks as [| [tok t] rest IH]; intros (tok' & Hlast); [discriminate |].
  destruct rest as [| y rest'].
  - injection Hlast as -> ->. cbn [pad_last flatten terminator_text].
    rewrite !app_nil_r. reflexivity.
  - change (pad_last ws ((tok, t) :: y :: rest'))
      with ((tok, t) :: pad_last ws (y :: rest')).
    cbn [flatten]. rewrite IH by (exists tok'; exact Hlast).
    rewrite <- !app_assoc. reflexivity.
Qed.

Lemma wf_pad_last ws toks :
  wf_stream toks -> forallb is_space ws = true ->
  (forall tok t, last toks = Some (tok, t) -> (length tok + length ws <= 15)%nat) ->
  wf_stream (pad_last ws toks).
Proof.
  intros Hwf Hws. induction toks as [| [tok t] rest IH]; intros Hfit; [exact I |].
  destruct Hwf as (Hclean & Hlen & Hend & Hrest).
  destruct rest as [| y rest'].
  - cbn [pad_last wf_stream]. specialize (Hfit tok t eq_refl).
    split; [apply clean_app; auto using spaces_clean |].
    split; [rewrite length_app; lia |]. split; [| exact I].
    intros Ht. split; [| reflexivity]. destruct (Hend Ht) as [Hne _].
    destruct tok; [congruence | discriminate].
  - change (pad_last ws ((tok, t) :: y :: rest'))
      with ((tok, t) :: pad_last ws (y :: rest')).
    cbn [wf_stream]. split; [exact Hclean |]. split; [exact Hlen |].
    split; [intros Ht; destruct (Hend Ht) as [_ Hnil]; discriminate |].
    apply IH; [exact Hrest |]. intros tok' t' Hl. apply (Hfit tok' t'). exact Hl.
Qed.

Lemma run_tokens_pad_last ws toks :
  forallb is_space ws = true ->
  (forall tok t, last toks = Some (tok, t) -> numeral tok) ->
  forall cpu_from set,
    run_tokens (pad_last ws toks) cpu_from set = run_tokens toks cpu_from set.
Proof.
  intros Hws. induction toks as [| [tok t] rest IH]; intros Hnum cpu_from set;
    [reflexivity |].
  destruct rest as [| y rest'].
  - cbn [pad_last]. specialize (Hnum tok t eq_refl).
    destruct t; cbn [run_tokens]; rewrite SimpleAtoi_numeral_spaces by assumption;
      reflexivity.
  - change (pad_last ws ((tok, t) :: y :: rest'))
      with ((tok, t) :: pad_last ws (y :: rest')).
    assert (IH' : forall cpu_from set,
              run_tokens (pad_last ws (y :: rest')) cpu_from set
              = run_tokens (y :: rest') cpu_from set)
      by (apply IH; intros tok' t' Hl; apply (Hnum tok' t'); exact Hl).
    destruct t.
    + rewrite !run_tokens_dash. destruct (SimpleAtoi tok); [apply IH' | reflexivity].
    + rewrite !run_tokens_value by discriminate.
      destruct (SimpleAtoi tok); [| reflexivity].
      destruct (cpu_from =? -1); [apply IH' |].
      destruct (_ =? INT_MAX); [reflexivity | apply IH'].
    + rewrite !run_tokens_value by discriminate.
      destruct (SimpleAtoi tok); [| reflexivity].
      destruct (cpu_from =? -1); [apply IH' |].
      destruct (_ =? INT_MAX); [reflexivity | apply IH'].
Qed.

Lemma last_tokens_of items i :
  last items = Some i -> last (tokens_of items) = Some (last_numeral i, TEnd).
Proof.
  induction items as [| j rest IH]; [discriminate |]. intros Hlast.
  destruct rest as [| j' rest'].
  - injection Hlast as ->. destruct i; reflexivity.
  - change (last (j :: j' :: rest')) with (last (j' :: rest')) in Hlast.
    specialize (IH Hlast). remember (j' :: rest') as r eqn:Hr.
    destruct j as [a | a b]; cbn [tokens_of];
      destruct (tokens_of r) as [| y l]; try discriminate IH; exact IH.
Qed.

Lemma short_item_last_numeral i : short_item i -> short_numeral (last_numeral i).
Proof. destruct i; cbn; tauto. Qed.

(** X10.  White space after the last entry, such as the newline that ends a
    sysfs cpulist, does not change the result: [SimpleAtoi] strips it from
    the last numeral (which has to fit the 16-byte buffer together with it).
    A text of white space alone, such as the cpulist of a node without cpus,
    is a failed [CHECK_CONDITION]: [SimpleAtoi] refuses the empty numeral. *)
Theorem ParseCpulist_trailing_white_space
    (ws : list ascii) (chunks chunks' : list nat) (fuel : nat) :
  forallb is_space ws = true ->
  (forall (items : list item) (i : item),
     Forall short_item items -> last items = Some i ->
     (length (last_numeral i) + length ws <= 15)%nat ->
     (2 * length (cpulist_text items ++ ws) < fuel)%nat ->
     ParseCpulist file_read fuel (File (cpulist_text items ++ ws) chunks)
       = ParseCpulist file_read fuel (File (cpulist_text items) chunks'))
  /\ (ws <> [] -> (length ws <= 15)%nat -> (2 * length ws < fuel)%nat ->
      ParseCpulist file_read fuel (File ws chunks)
        = CheckFailed "absl::SimpleAtoi(current.substr(0, comma), &cpu)").
Proof.
  intros Hws. split.
  - intros items i Hitems Hlast Hfit Hfuel.
    pose proof (last_tokens_of items i Hlast) as Hlt.
    assert (Hi : short_item i).
    { rewrite Forall_forall in Hitems. apply Hitems.
      apply list_elem_of_In. apply last_Some_elem_of in Hlast.
      apply list_elem_of_In. exact Hlast. }
    rewrite <- flatten_tokens_of in Hfuel |- *.
    rewrite <- (flatten_pad_last ws) in Hfuel |- * by eauto.
    rewrite !ParseCpulist_tokens.
    + apply run_tokens_pad_last; [exact Hws |].
      intros tok t Hl. rewrite Hlt in Hl. injection Hl as <- <-.
      apply (short_item_last_numeral i Hi).
    + apply wf_tokens_of. exact Hitems.
    + rewrite flatten_pad_last, length_app in Hfuel by eauto. lia.
    + apply wf_pad_last; [apply wf_tokens_of; exact Hitems | exact Hws |].
      intros tok t Hl. rewrite Hlt in Hl. injection Hl as <- <-. exact Hfit.
    + exact Hfuel.
  - intros Hne Hlen Hfuel.
    replace ws with (flatten [(ws, TEnd)]) at 1
      by (cbn [flatten terminator_text]; rewrite !app_nil_r; reflexivity).
    rewrite ParseCpulist_tokens.
    + cbn [run_tokens]. rewrite (SimpleAtoi_spaces ws Hws). reflexivity.
    + cbn [wf_stream]. auto using spaces_clean.
    + cbn [flatten terminator_text]. rewrite !app_nil_r. exact Hfuel.
Qed.


Lemma cpulist_text_cons i rest :
  rest <> [] -> cpulist_text (i :: rest) = item_text i ++ ","%char :: cpulist_text rest.
Proof. destruct rest; [congruence | reflexivity]. Qed.

Lemma flatten_tokens_unfinished items a :
  flatten (tokens_unfinished items a) = cpulist_text (items ++ [Range a []]).
Proof.
  induction items as [| i rest IH].
  - reflexivity.
  - change ((i :: rest) ++ [Range a []]) with (i :: (rest ++ [Range a []])).
    rewrite cpulist_text_cons by (intros E; apply app_eq_nil in E as [_ E]; discriminate).
    rewrite <- IH. destruct i as [x | x y];
      cbn [tokens_unfinished flatten terminator_text item_text app];
      rewrite <- ?app_assoc; reflexivity.
Qed.

Lemma wf_tokens_unfinished items a :
  Forall short_item items -> short_numeral a -> wf_stream (tokens_unfinished items a).
Proof.
  intros Hitems ((Hne & Hds) & Hlen & _).
  induction Hitems as [| i rest Hi Hrest IH].
  - cbn [tokens_unfinished wf_stream]. repeat split; auto using digits_clean; discriminate.
  - destruct i as [x | x y]; cbn [tokens_unfinished wf_stream].
    + destruct Hi as ((Hnx & Hdx) & Hlx & _).
      repeat split; auto using digits_clean; discriminate.
    + destruct Hi as (((Hnx & Hdx) & Hlx & _) & ((Hny & Hdy) & Hly & _)).
      repeat split; auto using digits_clean; discriminate.
Qed.

Lemma run_tokens_unfinished items a :
  Forall short_item items -> short_numeral a ->
  forall set,
    run_tokens (tokens_unfinished items a) (-1) set
    = run_tokens (tokens_of items) (-1) set.
Proof.
  intros Hitems Ha. destruct (short_numeral_atoi a Ha) as (Hva & _).
  induction Hitems as [| i rest Hi Hrest IH]; intros set.
  - cbn [tokens_unfinished tokens_of run_tokens]. rewrite Hva. reflexivity.
  - destruct i as [x | x y]; cbn [tokens_unfinished tokens_of].
    + destruct (short_numeral_atoi x Hi) as (Hvx & _).
      rewrite !run_tokens_value by (try apply last_terminator_not_dash; discriminate).
      rewrite Hvx. change (-1 =? -1) with true. cbv iota. apply IH.
    + destruct Hi as (Hsx & Hsy).
      destruct (short_numeral_atoi x Hsx) as (Hvx & Hrx).
      destruct (short_numeral_atoi y Hsy) as (Hvy & Hry).
      rewrite !run_tokens_dash, Hvx.
      rewrite !run_tokens_value by (try apply last_terminator_not_dash; discriminate).
      rewrite Hvy.
      replace (numeral_value x =? -1) with false by (symmetry; apply Z.eqb_neq; lia).
      replace (numeral_value y =? INT_MAX) with false by (symmetry; apply Z.eqb_neq; lia).
      apply IH.
Qed.

(** X11.  The start of a range that is left unfinished at the end of the
    text, a numeral and its dash, is dropped silently: the text of a CPU list
    followed by such an entry parses to what the list alone parses to. *)
Theorem ParseCpulist_unfinished_range
    (items : list item) (a : list ascii) (chunks chunks' : list nat) (fuel : nat) :
  Forall short_item items -> short_numeral a ->
  (2 * length (cpulist_text (items ++ [Range a []])) < fuel)%nat ->
  ParseCpulist file_read fuel (File (cpulist_text (items ++ [Range a []])) chunks)
    = ParseCpulist file_read fuel (File (cpulist_text items) chunks')
  /\ exists set,
       ParseCpulist file_read fuel (File (cpulist_text items) chunks') = Done set
       /\ forall c, 0 <= c < 2 ^ 64 ->
            (CPU_ISSET c set = true <-> c < CPU_SETSIZE /\ listed items c).
Proof.
  intros Hitems Ha Hfuel.
  assert (Hshorter : (2 * length (cpulist_text items) < fuel)%nat).
  { rewrite <- flatten_tokens_unfinished in Hfuel.
    rewrite <- flatten_tokens_of.
    clear - Hfuel. revert Hfuel. generalize fuel. clear fuel.
    induction items as [| i rest IH]; intros fuel Hfuel; [cbn; lia |].
    destruct i as [x | x y]; cbn [tokens_unfinished tokens_of flatten] in *;
      rewrite ?length_app in *; cbn [length terminator_text] in *.
    - destruct rest; cbn [last_terminator terminator_text length] in *.
      + cbn in *. lia.
      + specialize (IH (fuel - 2 * (length x + 1))%nat).
        cbn [tokens_unfinished tokens_of flatten] in *. lia.
    - rewrite ?length_app in *. cbn [length] in *.
      destruct rest; cbn [last_terminator terminator_text length] in *.
      + cbn in *. lia.
      + specialize (IH (fuel - 2 * (length x + 1 + (length y + 1)))%nat).
        cbn [tokens_unfinished tokens_of flatten] in *. lia. }
  split; [| apply ParseCpulist_items; assumption].
  rewrite <- flatten_tokens_unfinished in Hfuel |- *.
  rewrite <- (flatten_tokens_of items) in Hshorter |- *.
  rewrite !ParseCpulist_tokens;
    auto using wf_tokens_of, wf_tokens_unfinished, run_tokens_unfinished.
Qed.

(** X12.  The set [ParseCpulist] returns depends on the cpus listed only:
    two CPU lists that list the same cpus below [CPU_SETSIZE], in whatever
    order, with whatever ranges, repetitions and cuts of the reads, give the
    same [cpu_set_t]. *)
Theorem ParseCpulist_same_cpus_same_set
    (items items' : list item) (chunks chunks' : list nat) (fuel fuel' : nat) :
  Forall short_item items -> Forall short_item items' ->
  (forall c, 0 <= c < CPU_SETSIZE -> listed items c <-> listed items' c) ->
  (2 * length (cpulist_text items) < fuel)%nat ->
  (2 * length (cpulist_text items') < fuel')%nat ->
  ParseCpulist file_read fuel (File (cpulist_text items) chunks)
    = ParseCpulist file_read fuel' (File (cpulist_text items') chunks').
Proof.
  intros Hitems Hitems' Hsame Hfuel Hfuel'.
  destruct (ParseCpulist_items items chunks fuel Hitems Hfuel) as (set & Hrun & Hmem).
  destruct (ParseCpulist_items items' chunks' fuel' Hitems' Hfuel')
    as (set' & Hrun' & Hmem').
  rewrite Hrun, Hrun'. f_equal. apply Z.bits_inj'. intros c Hc.
  assert (Hzero : forall r f s, ParseCpulist file_read f r = Done s ->
            forall i, Z.testbit s i = true -> 0 <= i < CPU_SETSIZE).
  { intros r f s H. eapply ParseCpulist_loop_bits; [| exact H].
    intros i. unfold CPU_ZERO. rewrite Z.bits_0. discriminate. }
  destruct (Z.lt_ge_cases c CPU_SETSIZE) as [Hlt | Hge].
  - assert (Hc64 : 0 <= c < 2 ^ 64) by (unfold CPU_SETSIZE in Hlt; lia).
    specialize (Hmem c Hc64). specialize (Hmem' c Hc64).
    unfold CPU_ISSET in Hmem, Hmem'. cbv zeta in Hmem, Hmem'.
    rewrite size_t_of_int_small in Hmem, Hmem' by exact Hc64.
    replace (c <? CPU_SETSIZE) with true in Hmem, Hmem'
      by (symmetry; apply Z.ltb_lt; exact Hlt).
    cbn [andb] in Hmem, Hmem'.
    destruct (Z.testbit set c) eqn:E, (Z.testbit set' c) eqn:E'; try reflexivity.
    + assert (H : listed items' c) by (apply Hsame; [lia |]; apply Hmem; reflexivity).
      assert (false = true) by (apply Hmem'; auto). discriminate.
    + assert (H : listed items c) by (apply Hsame; [lia |]; apply Hmem'; reflexivity).
      assert (false = true) by (apply Hmem; auto). discriminate.
  - destruct (Z.testbit set c) eqn:E;
      [apply (Hzero _ _ _ Hrun) in E; lia |].
    destruct (Z.testbit set' c) eqn:E'; [apply (Hzero _ _ _ Hrun') in E'; lia |].
    reflexivity.
Qed.

Lemma ParseCpulist_same_cpus_same_set_witness :
  ParseCpulist file_read 20 (File (list_ascii_of_string "0-2") [])
    = ParseCpulist file_read 20 (File (list_ascii_of_string "2,1,0,1") [0; 1]%nat).
Proof.
  apply (ParseCpulist_same_cpus_same_set
           [Range ["0"%char] ["2"%char]]
           [Single ["2"%char]; Single ["1"%char]; Single ["0"%char]; Single ["1"%char]]
           [] [0; 1]%nat 20 20);
    [short_items | short_items | | cbn; lia | cbn; lia].
  intros c Hc. unfold listed. split.
  - intros (i & [<- | []] & Hi).
    change (0 <= c <= 2) in Hi.
    assert (c = 0 \/ c = 1 \/ c = 2) as [-> | [-> | ->]] by lia.
    + exists (Single ["0"%char]). split; [cbn; auto | reflexivity].
    + exists (Single ["1"%char]). split; [cbn; auto | reflexivity].
    + exists (Single ["2"%char]). split; [cbn; auto | reflexivity].
  - intros (i & Hin & Hi). exists (Range ["0"%char] ["2"%char]).
    split; [left; reflexivity |]. change (0 <= c <= 2).
    destruct Hin as [<- | [<- | [<- | [<- | []]]]];
      [change (c = 2) in Hi | change (c = 1) in Hi | change (c = 0) in Hi
      | change (c = 1) in Hi]; lia.
Defined.

(** ** [InitNumaTopology] *)

Lemma or_at_Some (a : list Z) (i x : Z) :
  0 <= i < Z.of_nat (length a) ->
  exists v, a !! Z.to_nat i = Some v
            /\ or_at a i x = Some (<[Z.to_nat i := Z.lor v x]> a).
Proof.
  intros Hi. unfold or_at.
  destruct (lookup_lt_is_Some_2 a (Z.to_nat i)) as [v Hv]; [lia |].
  exists v. rewrite Hv. auto.
Qed.

Lemma store_at_Some (a : list Z) (i v : Z) :
  0 <= i < Z.of_nat (length a) ->
  store_at a i v = Some (<[Z.to_nat i := v]> a).
Proof.
  intros Hi. unfold store_at.
  destruct (lookup_lt_is_Some_2 a (Z.to_nat i)) as [w Hw]; [lia |].
  rewrite Hw. reflexivity.
Qed.

Section Assign.

Variable kNumaCpuFudge : Z.
Hypothesis fudge_nonneg : 0 <= kNumaCpuFudge.

(** The inner loop writes [value] at the entry of every cpu of the set and
    nothing else. *)
Lemma assign_cpus_spec (node_cpus : cpu_set_t) (value : Z) (n : nat) :
  forall (cpu0 : Z) (c2p : list Z),
    0 <= cpu0 -> cpu0 + Z.of_nat n + kNumaCpuFudge <= Z.of_nat (length c2p) ->
    exists c2p',
      assign_cpus kNumaCpuFudge n cpu0 node_cpus value c2p = Some c2p'
      /\ length c2p' = length c2p
      /\ (forall cpu, cpu0 <= cpu < cpu0 + Z.of_nat n ->
            CPU_ISSET cpu node_cpus = true ->
            c2p' !! Z.to_nat (cpu + kNumaCpuFudge) = Some value)
      /\ (forall i : nat,
            (forall cpu, cpu0 <= cpu < cpu0 + Z.of_nat n ->
               CPU_ISSET cpu node_cpus = true -> i <> Z.to_nat (cpu + kNumaCpuFudge)) ->
            c2p' !! i = c2p !! i).
Proof using fudge_nonneg.
  induction n as [| n IH]; intros cpu0 c2p Hcpu0 Hlen.
  - exists c2p. split; [reflexivity |]. split; [reflexivity |]. split; [lia | auto].
  - cbn [assign_cpus]. destruct (CPU_ISSET cpu0 node_cpus) eqn:Hset.
    + rewrite store_at_Some by lia.
      destruct (IH (cpu0 + 1) (<[Z.to_nat (cpu0 + kNumaCpuFudge) := value]> c2p))
        as (c2p' & Hrun & Hlen' & Hset' & Hframe); [lia | rewrite length_insert; lia |].
      exists c2p'. split; [exact Hrun |].
      split; [rewrite Hlen', length_insert; reflexivity |]. split.
      * intros cpu Hcpu Hin. destruct (Z.eq_dec cpu cpu0) as [-> | Hne].
        -- rewrite Hframe.
           ++ apply list_lookup_insert_eq. lia.
           ++ intros cpu Hcpu' _. lia.
        -- apply Hset'; [lia | exact Hin].
      * intros i Hi. rewrite Hframe.
        -- apply list_lookup_insert_ne. specialize (Hi cpu0 ltac:(lia) Hset). lia.
        -- intros cpu Hcpu Hin. apply Hi; [lia | exact Hin].
    + destruct (IH (cpu0 + 1) c2p) as (c2p' & Hrun & Hlen' & Hset' & Hframe); [lia | lia |].
      exists c2p'. split; [exact Hrun |]. split; [exact Hlen' |]. split.
      * intros cpu Hcpu Hin. destruct (Z.eq_dec cpu cpu0) as [-> | Hne]; [congruence |].
        apply Hset'; [lia | exact Hin].
      * intros i Hi. apply Hframe. intros cpu Hcpu Hin. apply Hi; [lia | exact Hin].
Qed.

End Assign.

Lemma one_shl_bit node :
  0 <= node < 32 -> exists bit, one_shl node = Some bit /\ Z.testbit bit node = true.
Proof.
  intros Hnode. unfold one_shl.
  destruct (Z.ltb_spec node 31) as [Hlt | Hge].
  - eexists. split; [reflexivity |]. rewrite Z.shiftl_1_l. apply Z.pow2_bits_true. lia.
  - assert (node = 31) as -> by lia. eexists. split; reflexivity.
Qed.

Section Nodes.

Variable NodeToPartition : Z -> Z -> Z.
Variable kNumaCpuFudge : Z.
Variable num_partitions : Z.
Variable scale_by : Z.
Variable open_node_cpulist : Z -> open_result.
Variable parse_fuel : nat.

(** A machine with [nodes] NUMA nodes: node [n] has the cpulist [files n],
    which parses to the set [cpus n]. *)
Variable nodes : Z.
Variable files : Z -> file.
Variable cpus : Z -> cpu_set_t.

Hypothesis fudge_nonneg : 0 <= kNumaCpuFudge.
Hypothesis partition_range :
  forall node, 0 <= node -> 0 <= NodeToPartition node num_partitions < num_partitions.
Hypothesis nodes_fit_int : 0 <= nodes <= 32.
Hypothesis open_present :
  forall node, 0 <= node < nodes -> open_node_cpulist node = Opened (files node).
Hypothesis open_absent : open_node_cpulist nodes = OpenFailed ENOENT.
Hypothesis files_parse :
  forall node, 0 <= node < nodes -> NodeToPartition node num_partitions <> 0 ->
    ParseCpulist file_read parse_fuel (files node) = Done (cpus node).

Lemma InitNumaTopology_nodes_spec (remaining : nat) :
  forall (k : Z) (fuel : nat) (aware : bool) (t : tables),
    0 <= k -> k + Z.of_nat remaining = nodes -> (remaining < fuel)%nat ->
    num_partitions <= Z.of_nat (length (partition_to_nodes t)) ->
    CPU_SETSIZE + kNumaCpuFudge <= Z.of_nat (length (cpu_to_scaled_partition t)) ->
    exists aware' t',
      InitNumaTopology_nodes NodeToPartition kNumaCpuFudge num_partitions scale_by
        open_node_cpulist parse_fuel fuel k aware t = Done (aware', t')
      /\ bind_mode t' = bind_mode t
      /\ (forall node, k <= node < nodes ->
            exists w, partition_to_nodes t'
                        !! Z.to_nat (NodeToPartition node num_partitions) = Some w
                      /\ Z.testbit w node = true)
      /\ (forall (p : nat) w, partition_to_nodes t !! p = Some w ->
            exists w', partition_to_nodes t' !! p = Some w'
                       /\ forall i, Z.testbit w i = true -> Z.testbit w' i = true)
      /\ (forall node cpu,
            k <= node < nodes -> NodeToPartition node num_partitions <> 0 ->
            0 <= cpu < CPU_SETSIZE -> CPU_ISSET cpu (cpus node) = true ->
            (forall later, node < later < nodes ->
               NodeToPartition later num_partitions <> 0 ->
               CPU_ISSET cpu (cpus later) = false) ->
            cpu_to_scaled_partition t' !! Z.to_nat (cpu + kNumaCpuFudge)
              = Some (size_t_of_int (NodeToPartition node num_partitions * scale_by)))
      /\ (forall i : nat,
            ~ assigned_from NodeToPartition kNumaCpuFudge num_partitions nodes cpus k i ->
            cpu_to_scaled_partition t' !! i = cpu_to_scaled_partition t !! i).
Proof using All.
  induction remaining as [| remaining IH]; intros k fuel aware t Hk Hrem Hfuel Hp2n Hc2p;
    (destruct fuel as [| fuel]; [lia |]); cbn [InitNumaTopology_nodes].
  - (* no node left *)
    replace k with nodes by lia. rewrite open_absent. rewrite Z.eqb_refl.
    exists aware, t. split; [reflexivity |]. split; [reflexivity |].
    split; [intros; lia |]. split; [eauto |]. split; [intros; lia | reflexivity].
  - rewrite open_present by lia.
    destruct (one_shl_bit k) as (bit & Hshl & Hbit); [lia |]. rewrite Hshl.
    assert (Hpart : 0 <= NodeToPartition k num_partitions < num_partitions)
      by (apply partition_range; lia).
    destruct (or_at_Some (partition_to_nodes t) (NodeToPartition k num_partitions) bit)
      as (w0 & Hw0 & Hor); [lia |]. rewrite Hor.
    set (p2n := <[Z.to_nat (NodeToPartition k num_partitions) := Z.lor w0 bit]>
                  (partition_to_nodes t)).
    assert (Hmono : forall (p : nat) w, partition_to_nodes t !! p = Some w ->
              exists w', p2n !! p = Some w'
                         /\ forall i, Z.testbit w i = true -> Z.testbit w' i = true).
    { intros p w Hw. unfold p2n.
      destruct (Nat.eq_dec p (Z.to_nat (NodeToPartition k num_partitions))) as [-> | Hne].
      - exists (Z.lor w0 bit). split.
        + apply list_lookup_insert_eq. apply lookup_lt_Some in Hw. exact Hw.
        + intros i Hi. rewrite Z.lor_spec. replace w0 with w by congruence.
          rewrite Hi. reflexivity.
      - exists w. split; [rewrite list_lookup_insert_ne by congruence; exact Hw | auto]. }
    assert (Hk_bit : exists w, p2n !! Z.to_nat (NodeToPartition k num_partitions) = Some w
                               /\ Z.testbit w k = true).
    { exists (Z.lor w0 bit). split.
      - unfold p2n. apply list_lookup_insert_eq. apply lookup_lt_Some in Hw0. exact Hw0.
      - rewrite Z.lor_spec, Hbit. apply orb_true_r. }
    destruct (Z.eqb_spec (NodeToPartition k num_partitions) 0) as [Hzero | Hnonzero].
    + (* a node of partition 0: no cpu is assigned *)
      destruct (IH (k + 1) fuel aware
                  (Tables (cpu_to_scaled_partition t) p2n (bind_mode t)))
        as (aware' & t' & Hrun & Hmode & Hbits & Hmono' & Hcpus & Hframe);
        [lia | lia | lia | cbn [partition_to_nodes]; unfold p2n; rewrite length_insert; lia
        | exact Hc2p |].
      cbn [partition_to_nodes cpu_to_scaled_partition bind_mode] in *.
      exists aware', t'. split; [exact Hrun |]. split; [exact Hmode |].
      split; [| split; [| split]].
      * intros node Hnode. destruct (Z.eq_dec node k) as [-> | Hne]; [| apply Hbits; lia].
        destruct Hk_bit as (w & Hw & Hwb). destruct (Hmono' _ _ Hw) as (w' & Hw' & Hsub).
        exists w'. auto.
      * intros p w Hw. destruct (Hmono p w Hw) as (w1 & Hw1 & Hsub1).
        destruct (Hmono' p w1 Hw1) as (w2 & Hw2 & Hsub2). exists w2. auto.
      * intros node cpu Hnode Hpart' Hcpu Hin Hlater.
        destruct (Z.eq_dec node k) as [-> | Hne]; [congruence |].
        apply Hcpus; auto; lia.
      * intros i Hi. apply Hframe. intros (node & cpu & Hnode & Hrest).
        apply Hi. exists node, cpu. split; [lia | exact Hrest].
    + (* a node of another partition: its cpus are assigned *)
      rewrite files_parse by (auto; lia).
      set (value := size_t_of_int (NodeToPartition k num_partitions * scale_by)).
      destruct (assign_cpus_spec kNumaCpuFudge fudge_nonneg (cpus k) value
                  (Z.to_nat CPU_SETSIZE) 0 (cpu_to_scaled_partition t))
        as (c2p & Hassign & Hlen & Hset & Hkeep); [lia | unfold CPU_SETSIZE in *; lia |].
      cbn [cpu_to_scaled_partition]. rewrite Hassign.
      destruct (IH (k + 1) fuel (if CPU_COUNT (cpus k) =? 0 then aware else true)
                  (Tables c2p p2n (bind_mode t)))
        as (aware' & t' & Hrun & Hmode & Hbits & Hmono' & Hcpus & Hframe);
        [lia | lia | lia | cbn [partition_to_nodes]; unfold p2n; rewrite length_insert; lia
        | cbn [cpu_to_scaled_partition]; lia |].
      cbn [partition_to_nodes cpu_to_scaled_partition bind_mode] in *.
      exists aware', t'. split; [exact Hrun |]. split; [exact Hmode |].
      split; [| split; [| split]].
      * intros node Hnode. destruct (Z.eq_dec node k) as [-> | Hne]; [| apply Hbits; lia].
        destruct Hk_bit as (w & Hw & Hwb). destruct (Hmono' _ _ Hw) as (w' & Hw' & Hsub).
        exists w'. auto.
      * intros p w Hw. destruct (Hmono p w Hw) as (w1 & Hw1 & Hsub1).
        destruct (Hmono' p w1 Hw1) as (w2 & Hw2 & Hsub2). exists w2. auto.
      * intros node cpu Hnode Hpart' Hcpu Hin Hlater.
        destruct (Z.eq_dec node k) as [-> | Hne]; [| apply Hcpus; auto; lia].
        rewrite Hframe.
        -- apply Hset; [unfold CPU_SETSIZE in *; lia | exact Hin].
        -- intros (later & cpu' & Hl & Hpl & Hc' & Hin' & Heq).
           assert (cpu' = cpu) as -> by lia.
           rewrite Hlater in Hin' by (auto; lia). discriminate.
      * intros i Hi. rewrite Hframe.
        -- apply Hkeep. intros cpu Hcpu Hin ->. apply Hi.
           exists k, cpu. unfold CPU_SETSIZE in *. repeat split; auto; lia.
        -- intros (node & cpu & Hnode & Hrest). apply Hi.
           exists node, cpu. split; [lia | exact Hrest].
Qed.

End Nodes.

Lemma InitNumaTopology_prelude
    (NodeToPartition : Z -> Z -> Z) (kNumaCpuFudge num_partitions scale_by : Z)
    (open_node_cpulist : Z -> open_result)
    (parse_fuel fuel : nat) (sys : system) (t : tables) :
  NodeToPartition 0 num_partitions = 0 -> partition_to_nodes t <> [] ->
  InitNumaTopology NodeToPartition kNumaCpuFudge num_partitions scale_by
    open_node_cpulist parse_fuel fuel sys t =
    let t1 := with_node0 t in
    let enumerate :=
      InitNumaTopology_enumerate NodeToPartition kNumaCpuFudge num_partitions
        scale_by open_node_cpulist parse_fuel fuel sys in
    if num_partitions =? 1 then Done (false, t1)
    else if negb (IsFast sys) then Done (false, t1)
    else
      match getenv sys "TCMALLOC_NUMA_AWARE" with
      | None =>
          if negb (default_want_numa_aware sys) then Done (false, t1) else enumerate t1
      | Some e =>
          if String.eqb e "no-binding" then enumerate (with_mode kNone t1)
          else if String.eqb e "advisory-binding" || String.eqb e "1"
          then enumerate (with_mode kAdvisory t1)
          else if String.eqb e "strict-binding" then enumerate (with_mode kStrict t1)
          else if String.eqb e "0" then Done (false, t1)
          else Crash "bad TCMALLOC_NUMA_AWARE env var" e
      end.
Proof.
  intros Hzero Hp2n. unfold InitNumaTopology, with_node0, with_mode.
  rewrite Hzero. unfold or_at. change (Z.to_nat 0) with 0%nat.
  destruct (partition_to_nodes t) as [| w p2n] eqn:Hw; [congruence |].
  cbn [lookup list_lookup]. reflexivity.
Qed.

Lemma InitNumaTopology_nodes_bind_mode
    (NodeToPartition : Z -> Z -> Z) (kNumaCpuFudge num_partitions scale_by : Z)
    (open_node_cpulist : Z -> open_result) (parse_fuel : nat) (fuel : nat) :
  forall node aware t aware' t',
    InitNumaTopology_nodes NodeToPartition kNumaCpuFudge num_partitions scale_by
      open_node_cpulist parse_fuel fuel node aware t = Done (aware', t') ->
    bind_mode t' = bind_mode t.
Proof.
  induction fuel as [| fuel IH]; intros node aware t aware' t' H; [discriminate |].
  cbn [InitNumaTopology_nodes] in H.
  destruct (open_node_cpulist node) as [fd | errno].
  - destruct (one_shl node); [| discriminate].
    destruct (or_at _ _ _); [| discriminate].
    destruct (_ =? 0).
    + apply IH in H. exact H.
    + destruct (ParseCpulist _ _ _); try discriminate.
      destruct (assign_cpus _ _ _ _ _ _); [| discriminate].
      apply IH in H. exact H.
  - destruct (errno =? ENOENT); [| discriminate]. congruence.
Qed.

(** C7 as stated fails: with the value "0" the node table is not left at its
    zero default, node 0 has been recorded in partition 0; and the variable is
    not looked at, so that no value is fatal, when a single partition is
    compiled in or the fast per-cpu mode is missing. *)
Lemma InitNumaTopology_mode_counterexample :
  InitNumaTopology Z.modulo 2 2 1 (fun _ => OpenFailed ENOENT) 10 10
    (System (fun _ => Some "0"%string) true false 4)
    (Tables (replicate 8 0) [0; 0] kAdvisory)
    = Done (false, Tables (replicate 8 0) [1; 0] kAdvisory)
  /\ InitNumaTopology Z.modulo 2 1 1 (fun _ => OpenFailed ENOENT) 10 10
       (System (fun _ => Some "bogus"%string) true false 4)
       (Tables (replicate 8 0) [0] kAdvisory)
       = Done (false, Tables (replicate 8 0) [1] kAdvisory)
  /\ InitNumaTopology Z.modulo 2 2 1 (fun _ => OpenFailed ENOENT) 10 10
       (System (fun _ => Some "bogus"%string) false false 4)
       (Tables (replicate 8 0) [0; 0] kAdvisory)
       = Done (false, Tables (replicate 8 0) [1; 0] kAdvisory).
Proof. repeat split. Qed.

(** C7, as amended.  [InitNumaTopology] first records node 0 in its
    partition, partition 0.  With a single partition compiled in, or without
    the fast per-cpu mode, it then returns "not aware" without looking at
    TCMALLOC_NUMA_AWARE.  Otherwise: unset follows the compiled-in default;
    "0" returns "not aware", the cpu table untouched and the node table
    changed only by node 0 in partition 0; "no-binding" goes on to the
    enumeration with bind mode [kNone], "1" and "advisory-binding" with
    [kAdvisory], "strict-binding" with [kStrict]; every other value ends in
    [Crash] with the message "bad TCMALLOC_NUMA_AWARE env var" and the value.
    The enumeration never changes the bind mode. *)
Theorem InitNumaTopology_resolves_mode
    (NodeToPartition : Z -> Z -> Z) (kNumaCpuFudge num_partitions scale_by : Z)
    (open_node_cpulist : Z -> open_result)
    (parse_fuel fuel : nat) (sys : system) (t : tables) :
  NodeToPartition 0 num_partitions = 0 -> partition_to_nodes t <> [] ->
  let run :=
    InitNumaTopology NodeToPartition kNumaCpuFudge num_partitions scale_by
      open_node_cpulist parse_fuel fuel sys t in
  let enumerate :=
    InitNumaTopology_enumerate NodeToPartition kNumaCpuFudge num_partitions scale_by
      open_node_cpulist parse_fuel fuel sys in
  let var := getenv sys "TCMALLOC_NUMA_AWARE" in
  let t1 := with_node0 t in
  (cpu_to_scaled_partition t1 = cpu_to_scaled_partition t
   /\ bind_mode t1 = bind_mode t
   /\ exists w, partition_to_nodes t !! 0%nat = Some w
                /\ partition_to_nodes t1 = <[0%nat := Z.lor w 1]> (partition_to_nodes t))
  /\ (num_partitions = 1 \/ IsFast sys = false -> run = Done (false, t1))
  /\ (num_partitions <> 1 -> IsFast sys = true ->
      (var = None ->
         run = if default_want_numa_aware sys then enumerate t1 else Done (false, t1))
      /\ (var = Some "0"%string -> run = Done (false, t1))
      /\ (var = Some "no-binding"%string -> run = enumerate (with_mode kNone t1))
      /\ (var = Some "1"%string \/ var = Some "advisory-binding"%string ->
            run = enumerate (with_mode kAdvisory t1))
      /\ (var = Some "strict-binding"%string -> run = enumerate (with_mode kStrict t1))
      /\ (forall e, var = Some e ->
            e <> "0"%string -> e <> "no-binding"%string -> e <> "1"%string ->
            e <> "advisory-binding"%string -> e <> "strict-binding"%string ->
            run = Crash "bad TCMALLOC_NUMA_AWARE env var" e))
  /\ (forall t0 aware t',
        enumerate t0 = Done (aware, t') -> bind_mode t' = bind_mode t0).
Proof.
  intros Hzero Hp2n run enumerate var t1.
  assert (Hrun := InitNumaTopology_prelude NodeToPartition kNumaCpuFudge num_partitions
                    scale_by open_node_cpulist parse_fuel fuel sys t Hzero Hp2n).
  cbv zeta in Hrun. fold run in Hrun. fold var in Hrun. fold t1 in Hrun.
  change (InitNumaTopology_enumerate NodeToPartition kNumaCpuFudge num_partitions
            scale_by open_node_cpulist parse_fuel fuel sys) with enumerate in Hrun.
  split; [| split; [| split]].
  - unfold t1, with_node0.
    destruct (partition_to_nodes t) as [| w p2n] eqn:Hw; [congruence |].
    cbn [lookup list_lookup cpu_to_scaled_partition bind_mode partition_to_nodes].
    split; [reflexivity |]. split; [reflexivity |]. exists w. auto.
  - intros [-> | Hslow]; rewrite Hrun; [reflexivity |].
    rewrite Hslow. destruct (num_partitions =? 1); reflexivity.
  - intros Hmany Hfast. rewrite Hrun, Hfast.
    replace (num_partitions =? 1) with false by (symmetry; apply Z.eqb_neq; lia).
    cbn [negb]. split; [| split; [| split; [| split; [| split]]]].
    + intros ->. destruct (default_want_numa_aware sys); reflexivity.
    + intros ->. reflexivity.
    + intros ->. reflexivity.
    + intros [-> | ->]; reflexivity.
    + intros ->. reflexivity.
    + intros e -> H0 Hno H1 Hadv Hstrict.
      apply String.eqb_neq in H0, Hno, H1, Hadv, Hstrict.
      rewrite H0, Hno, H1, Hadv, Hstrict. reflexivity.
  - intros t0 aware t' H. unfold enumerate, InitNumaTopology_enumerate in H.
    destruct (NumCPUs sys <=? CPU_SETSIZE); [| discriminate].
    apply InitNumaTopology_nodes_bind_mode in H. exact H.
Qed.

Lemma InitNumaTopology_requested
    (NodeToPartition : Z -> Z -> Z) (kNumaCpuFudge num_partitions scale_by : Z)
    (open_node_cpulist : Z -> open_result)
    (parse_fuel fuel : nat) (sys : system) (t : tables) :
  NodeToPartition 0 num_partitions = 0 -> 1 < num_partitions ->
  partition_to_nodes t <> [] ->
  IsFast sys = true -> numa_requested sys = true ->
  exists t0,
    InitNumaTopology NodeToPartition kNumaCpuFudge num_partitions scale_by
      open_node_cpulist parse_fuel fuel sys t
    = InitNumaTopology_enumerate NodeToPartition kNumaCpuFudge num_partitions
        scale_by open_node_cpulist parse_fuel fuel sys t0
    /\ cpu_to_scaled_partition t0 = cpu_to_scaled_partition t
    /\ length (partition_to_nodes t0) = length (partition_to_nodes t).
Proof.
  intros Hzero Hnp Hp2n Hfast Hreq.
  rewrite InitNumaTopology_prelude by assumption. cbv zeta.
  replace (num_partitions =? 1) with false by (symmetry; apply Z.eqb_neq; lia).
  rewrite Hfast. cbn [negb].
  assert (Hlen : length (partition_to_nodes (with_node0 t)) = length (partition_to_nodes t)).
  { unfold with_node0. destruct (partition_to_nodes t !! 0%nat); [| reflexivity].
    cbn [partition_to_nodes]. apply length_insert. }
  assert (Hc2p : cpu_to_scaled_partition (with_node0 t) = cpu_to_scaled_partition t).
  { unfold with_node0. destruct (partition_to_nodes t !! 0%nat); reflexivity. }
  unfold numa_requested in Hreq.
  destruct (getenv sys "TCMALLOC_NUMA_AWARE") as [e |].
  - destruct (String.eqb e "no-binding"); [eexists; split; [reflexivity | auto] |].
    destruct (String.eqb e "advisory-binding"); [eexists; split; [reflexivity | auto] |].
    destruct (String.eqb e "1"); [eexists; split; [reflexivity | auto] |].
    destruct (String.eqb e "strict-binding"); [eexists; split; [reflexivity | auto] |].
    discriminate.
  - rewrite Hreq. eexists; split; [reflexivity | auto].
Qed.

(** The enumeration in terms of the sets the cpulists parse to. *)
Lemma InitNumaTopology_assigns_sets
    (NodeToPartition : Z -> Z -> Z) (kNumaCpuFudge num_partitions scale_by : Z)
    (open_node_cpulist : Z -> open_result)
    (parse_fuel fuel : nat) (sys : system) (t : tables)
    (nodes : Z) (files : Z -> file) (cpus : Z -> cpu_set_t) :
  (forall node, 0 <= node ->
     0 <= NodeToPartition node num_partitions < num_partitions) ->
  NodeToPartition 0 num_partitions = 0 ->
  0 <= kNumaCpuFudge -> 1 < num_partitions -> 0 <= nodes <= 32 ->
  (forall node, 0 <= node < nodes -> open_node_cpulist node = Opened (files node)) ->
  open_node_cpulist nodes = OpenFailed ENOENT ->
  (forall node, 0 <= node < nodes -> NodeToPartition node num_partitions <> 0 ->
     ParseCpulist file_read parse_fuel (files node) = Done (cpus node)) ->
  IsFast sys = true -> numa_requested sys = true -> NumCPUs sys <= CPU_SETSIZE ->
  num_partitions <= Z.of_nat (length (partition_to_nodes t)) ->
  CPU_SETSIZE + kNumaCpuFudge <= Z.of_nat (length (cpu_to_scaled_partition t)) ->
  (Z.to_nat nodes < fuel)%nat ->
  exists aware t',
    InitNumaTopology NodeToPartition kNumaCpuFudge num_partitions scale_by
      open_node_cpulist parse_fuel fuel sys t = Done (aware, t')
    /\ (forall node, 0 <= node < nodes ->
          exists w, partition_to_nodes t'
                      !! Z.to_nat (NodeToPartition node num_partitions) = Some w
                    /\ Z.testbit w node = true)
    /\ (forall node cpu,
          0 <= node < nodes -> NodeToPartition node num_partitions <> 0 ->
          0 <= cpu < CPU_SETSIZE -> CPU_ISSET cpu (cpus node) = true ->
          (forall later, node < later < nodes ->
             NodeToPartition later num_partitions <> 0 ->
             CPU_ISSET cpu (cpus later) = false) ->
          cpu_to_scaled_partition t' !! Z.to_nat (cpu + kNumaCpuFudge)
            = Some (size_t_of_int (NodeToPartition node num_partitions * scale_by)))
    /\ (forall i : nat,
          ~ assigned_from NodeToPartition kNumaCpuFudge num_partitions nodes cpus 0 i ->
          cpu_to_scaled_partition t' !! i = cpu_to_scaled_partition t !! i).
Proof.
  intros Hrange Hzero Hfudge Hnp Hnodes Hopen Habsent Hparse Hfast Hreq Hcpus Hp2n
    Hc2p Hfuel.
  destruct (InitNumaTopology_requested NodeToPartition kNumaCpuFudge num_partitions
              scale_by open_node_cpulist parse_fuel fuel sys t)
    as (t0 & Hrun & Hc0 & Hp0);
    [exact Hzero | lia
    | destruct (partition_to_nodes t); [cbn [length] in Hp2n; lia | discriminate]
    | exact Hfast | exact Hreq |].
  rewrite Hrun. unfold InitNumaTopology_enumerate.
  replace (NumCPUs sys <=? CPU_SETSIZE) with true by (symmetry; apply Z.leb_le; exact Hcpus).
  destruct (InitNumaTopology_nodes_spec NodeToPartition kNumaCpuFudge num_partitions
              scale_by open_node_cpulist parse_fuel nodes files cpus
              Hfudge Hrange Hnodes Hopen Habsent Hparse
              (Z.to_nat nodes) 0 fuel false t0)
    as (aware & t' & Hdone & _ & Hbits & _ & Hassign & Hframe);
    [lia | lia | exact Hfuel | rewrite Hp0; exact Hp2n | rewrite Hc0; exact Hc2p |].
  exists aware, t'. split; [exact Hdone |]. split; [exact Hbits |].
  split; [exact Hassign |].
  intros i Hi. rewrite <- Hc0. apply Hframe. exact Hi.
Qed.



(** C5.  The shift [1 << node] that records a node is an [int] shift, though
    a node set is a [uint64_t].  On a machine with 33 nodes, each with one
    cpu and a cpulist as sysfs prints it, with NUMA awareness asked for and
    available, [InitNumaTopology] comes to node 32 and so to a shift by 32,
    which C++ leaves undefined: nothing the language defines records node 32
    in the set of its partition.  On the first 32 nodes of that machine the
    function returns; node 31 is recorded through the negative [int]
    [1 << 31], whose conversion sets the bits 31 to 63 of the set of
    partition 1, and with them the nodes 32 to 63, which do not exist. *)
Theorem InitNumaTopology_int_shift :
  InitNumaTopology Z.modulo 2 2 1 (one_cpu_per_node 33) 100 40
    (one_cpu_per_node_system 33) fresh_tables = Undefined
  /\ exists c2p,
       InitNumaTopology Z.modulo 2 2 1 (one_cpu_per_node 32) 100 40
         (one_cpu_per_node_system 32) fresh_tables
       = Done (true, Tables c2p [0x55555555; 0xFFFFFFFFAAAAAAAA; 0] kAdvisory).
Proof.
  split; [vm_compute; reflexivity |].
  eexists. vm_compute. reflexivity.
Qed.

Lemma InitNumaTopology_resolves_mode_witness :
  Z.modulo 0 2 = 0
  /\ partition_to_nodes (Tables (replicate 8 0) [0; 0] kAdvisory) <> []
  /\ InitNumaTopology Z.modulo 2 2 1 (fun _ => OpenFailed ENOENT) 10 10
       (System (fun _ => Some "strict-binding"%string) true false 4)
       (Tables (replicate 8 0) [0; 0] kAdvisory)
     = InitNumaTopology_enumerate Z.modulo 2 2 1 (fun _ => OpenFailed ENOENT) 10 10
         (System (fun _ => Some "strict-binding"%string) true false 4)
         (Tables (replicate 8 0) [1; 0] kStrict).
Proof.
  assert (H1 : Z.modulo 0 2 = 0) by reflexivity.
  assert (H2 : partition_to_nodes (Tables (replicate 8 0) [0; 0] kAdvisory) <> [])
    by discriminate.
  split; [exact H1 |]. split; [exact H2 |].
  destruct (InitNumaTopology_resolves_mode Z.modulo 2 2 1 (fun _ => OpenFailed ENOENT)
              10 10 (System (fun _ => Some "strict-binding"%string) true false 4)
              (Tables (replicate 8 0) [0; 0] kAdvisory) H1 H2)
    as (_ & _ & Hresolve & _).
  destruct (Hresolve ltac:(lia) eq_refl) as (_ & _ & _ & _ & Hstrict & _).
  exact (Hstrict eq_refl).
Defined.

(** ** What a result of [InitNumaTopology] tells *)

Lemma CPU_COUNT_zero set c :
  CPU_COUNT set = 0 -> 0 <= c < CPU_SETSIZE -> CPU_ISSET c set = false.
Proof.
  unfold CPU_COUNT. intros Hcount Hc.
  assert (Hnil : List.filter (fun c => Z.testbit set (Z.of_nat c))
                   (seq 0 (Z.to_nat CPU_SETSIZE)) = []).
  { destruct (List.filter _ _); [reflexivity | cbn [length] in Hcount; lia]. }
  destruct (Z.testbit set c) eqn:Hbit.
  - assert (Hin : In (Z.to_nat c)
                    (List.filter (fun c => Z.testbit set (Z.of_nat c))
                       (seq 0 (Z.to_nat CPU_SETSIZE)))).
    { apply filter_In. split; [apply in_seq; lia |]. rewrite Z2Nat.id by lia. exact Hbit. }
    rewrite Hnil in Hin. destruct Hin.
  - unfold CPU_ISSET. cbv zeta. unfold CPU_SETSIZE in Hc.
    rewrite size_t_of_int_small by lia. rewrite Hbit. apply andb_false_r.
Qed.

Lemma CPU_COUNT_nonzero set :
  CPU_COUNT set <> 0 <-> exists c, 0 <= c < CPU_SETSIZE /\ CPU_ISSET c set = true.
Proof.
  split.
  - unfold CPU_COUNT. intros Hcount.
    destruct (List.filter (fun c => Z.testbit set (Z.of_nat c))
                (seq 0 (Z.to_nat CPU_SETSIZE))) as [| c l] eqn:E;
      [cbn [length] in Hcount; lia |].
    assert (Hin : In c (c :: l)) by (left; reflexivity).
    rewrite <- E in Hin. apply filter_In in Hin as [Hseq Hbit].
    apply in_seq in Hseq. exists (Z.of_nat c). split; [lia |].
    unfold CPU_ISSET. cbv zeta.
    rewrite size_t_of_int_small by (unfold CPU_SETSIZE in Hseq; lia).
    rewrite Hbit. replace (Z.of_nat c <? CPU_SETSIZE) with true
      by (symmetry; apply Z.ltb_lt; lia).
    reflexivity.
  - intros (c & Hc & Hset) Hzero. rewrite (CPU_COUNT_zero set c Hzero Hc) in Hset.
    discriminate.
Qed.

Lemma assign_cpus_none (kNumaCpuFudge : Z) (node_cpus : cpu_set_t) (value : Z) (n : nat) :
  forall (cpu0 : Z) (c2p : list Z),
    (forall cpu, cpu0 <= cpu < cpu0 + Z.of_nat n -> CPU_ISSET cpu node_cpus = false) ->
    assign_cpus kNumaCpuFudge n cpu0 node_cpus value c2p = Some c2p.
Proof.
  induction n as [| n IH]; intros cpu0 c2p Hnone; [reflexivity |].
  cbn [assign_cpus]. rewrite (Hnone cpu0) by lia.
  apply IH. intros cpu Hcpu. apply Hnone. lia.
Qed.

Section Inversion.

Variable NodeToPartition : Z -> Z -> Z.
Variable kNumaCpuFudge : Z.
Variable num_partitions : Z.
Variable scale_by : Z.
Variable open_node_cpulist : Z -> open_result.
Variable parse_fuel : nat.

(** One turn of the loop over the nodes that ends in a result. *)
Lemma InitNumaTopology_nodes_step (fuel : nat) (k : Z) (aware : bool) (t : tables)
    (r : bool * tables) :
  InitNumaTopology_nodes NodeToPartition kNumaCpuFudge num_partitions scale_by
    open_node_cpulist parse_fuel (S fuel) k aware t = Done r ->
  (open_node_cpulist k = OpenFailed ENOENT /\ r = (aware, t))
  \/ exists f bit p2n,
       open_node_cpulist k = Opened f /\ one_shl k = Some bit
       /\ or_at (partition_to_nodes t) (NodeToPartition k num_partitions) bit = Some p2n
       /\ ((NodeToPartition k num_partitions = 0
            /\ InitNumaTopology_nodes NodeToPartition kNumaCpuFudge num_partitions
                 scale_by open_node_cpulist parse_fuel fuel (k + 1) aware
                 (Tables (cpu_to_scaled_partition t) p2n (bind_mode t)) = Done r)
           \/ (NodeToPartition k num_partitions <> 0
               /\ exists node_cpus c2p,
                    ParseCpulist file_read parse_fuel f = Done node_cpus
                    /\ assign_cpus kNumaCpuFudge (Z.to_nat CPU_SETSIZE) 0 node_cpus
                         (size_t_of_int (NodeToPartition k num_partitions * scale_by))
                         (cpu_to_scaled_partition t) = Some c2p
                    /\ InitNumaTopology_nodes NodeToPartition kNumaCpuFudge
                         num_partitions scale_by open_node_cpulist parse_fuel fuel
                         (k + 1) (if CPU_COUNT node_cpus =? 0 then aware else true)
                         (Tables c2p p2n (bind_mode t)) = Done r)).
Proof.
  cbn [InitNumaTopology_nodes]. intros H.
  destruct (open_node_cpulist k) as [f | errno].
  - right. destruct (one_shl k) as [bit |]; [| discriminate].
    destruct (or_at _ _ bit) as [p2n |] eqn:Hor; [| discriminate].
    exists f, bit, p2n. split; [reflexivity |]. split; [reflexivity |].
    split; [exact Hor |]. revert H.
    destruct (Z.eqb_spec (NodeToPartition k num_partitions) 0) as [Hzero | Hnonzero];
      intros H.
    + left. split; [exact Hzero | exact H].
    + right. split; [exact Hnonzero |].
      destruct (ParseCpulist file_read parse_fuel f) as [node_cpus | | | |];
        try discriminate.
      cbn [cpu_to_scaled_partition bind_mode] in H.
      destruct (assign_cpus _ _ _ _ _ _) as [c2p |] eqn:Hassign; [| discriminate].
      exists node_cpus, c2p. split; [reflexivity |]. split; [exact Hassign | exact H].
  - left. revert H. destruct (Z.eqb_spec errno ENOENT) as [-> | _]; [| discriminate].
    intros H. injection H as <-. auto.
Qed.

(** A run that reports no NUMA awareness has written no cpu entry. *)
Lemma InitNumaTopology_nodes_unaware (fuel : nat) :
  forall (k : Z) (aware : bool) (t t' : tables),
    InitNumaTopology_nodes NodeToPartition kNumaCpuFudge num_partitions scale_by
      open_node_cpulist parse_fuel fuel k aware t = Done (false, t') ->
    aware = false /\ cpu_to_scaled_partition t' = cpu_to_scaled_partition t.
Proof.
  induction fuel as [| fuel IH]; intros k aware t t' H; [discriminate |].
  apply InitNumaTopology_nodes_step in H
    as [[_ H] | (f & bit & p2n & _ & _ & _ & [[_ H] | (_ & set & c2p & _ & Hassign & H)])].
  - injection H as <- <-. auto.
  - apply IH in H. exact H.
  - apply IH in H as [Haware Hc2p]. cbn [cpu_to_scaled_partition] in Hc2p.
    revert Haware.
    destruct (Z.eqb_spec (CPU_COUNT set) 0) as [Hzero | _]; [| discriminate].
    intros Haware. split; [exact Haware |]. rewrite Hc2p.
    rewrite assign_cpus_none in Hassign; [congruence |].
    intros cpu Hcpu. apply CPU_COUNT_zero; [exact Hzero | lia].
Qed.

(** The flag a run returns: it is set exactly when it was set before or the
    run has come to a node of a non-zero partition whose cpulist holds a cpu. *)
Lemma InitNumaTopology_nodes_flag (fuel : nat) :
  forall (k : Z) (aware : bool) (t : tables) (aware' : bool) (t' : tables),
    InitNumaTopology_nodes NodeToPartition kNumaCpuFudge num_partitions scale_by
      open_node_cpulist parse_fuel fuel k aware t = Done (aware', t') ->
    aware' = true
    <-> (aware = true
         \/ exists node f node_cpus,
              k <= node
              /\ (forall j, k <= j <= node -> exists g, open_node_cpulist j = Opened g)
              /\ open_node_cpulist node = Opened f
              /\ NodeToPartition node num_partitions <> 0
              /\ ParseCpulist file_read parse_fuel f = Done node_cpus
              /\ CPU_COUNT node_cpus <> 0).
Proof.
  induction fuel as [| fuel IH]; intros k aware t aware' t' H; [discriminate |].
  apply InitNumaTopology_nodes_step in H
    as [[Habsent H] | (f & bit & p2n & Hopen & _ & _
                       & [[Hzero H] | (Hpart & set & c2p & Hparse & _ & H)])].
  - injection H as <- _. split; [auto |].
    intros [H | (node & f & set & Hnode & Hreach & _)]; [exact H |].
    destruct (Hreach k ltac:(lia)) as [g Hg]. congruence.
  - rewrite (IH _ _ _ _ _ H). split.
    + intros [Haware | (node & f' & set & Hnode & Hreach & Hrest)]; [auto |].
      right. exists node, f', set. split; [lia |]. split; [| exact Hrest].
      intros j Hj. destruct (Z.eq_dec j k) as [-> | Hne]; [eauto | apply Hreach; lia].
    + intros [Haware | (node & f' & set & Hnode & Hreach & Hrest)]; [auto |].
      right. exists node, f', set.
      assert (node <> k) by (intros ->; tauto).
      split; [lia |]. split; [| exact Hrest]. intros j Hj. apply Hreach. lia.
  - rewrite (IH _ _ _ _ _ H). split.
    + intros [Haware | (node & f' & set' & Hnode & Hreach & Hrest)].
      * revert Haware. destruct (Z.eqb_spec (CPU_COUNT set) 0) as [_ | Hcount]; [auto |].
        intros _. right. exists k, f, set. split; [lia |].
        split; [intros j Hj; replace j with k by lia; eauto |]. auto.
      * right. exists node, f', set'. split; [lia |]. split; [| exact Hrest].
        intros j Hj. destruct (Z.eq_dec j k) as [-> | Hne]; [eauto | apply Hreach; lia].
    + intros [Haware | (node & f' & set' & Hnode & Hreach & Hopen' & Hp' & Hparse' & Hc')].
      * left. rewrite Haware. destruct (CPU_COUNT set =? 0); reflexivity.
      * destruct (Z.eq_dec node k) as [-> | Hne].
        -- left. assert (f' = f) as -> by congruence.
           assert (set' = set) as -> by congruence.
           replace (CPU_COUNT set =? 0) with false
             by (symmetry; apply Z.eqb_neq; exact Hc').
           reflexivity.
        -- right. exists node, f', set'. split; [lia |].
           split; [intros j Hj; apply Hreach; lia | auto].
Qed.

(** A run that ends in a result has opened every node up to one whose
    cpulist does not exist, and parsed the cpulists of the nodes of non-zero
    partitions. *)
Lemma InitNumaTopology_nodes_done (fuel : nat) :
  forall (k : Z) (aware : bool) (t : tables) (r : bool * tables),
    InitNumaTopology_nodes NodeToPartition kNumaCpuFudge num_partitions scale_by
      open_node_cpulist parse_fuel fuel k aware t = Done r ->
    exists nodes,
      k <= nodes
      /\ open_node_cpulist nodes = OpenFailed ENOENT
      /\ forall node, k <= node < nodes ->
           exists f, open_node_cpulist node = Opened f
             /\ (NodeToPartition node num_partitions <> 0 ->
                 exists node_cpus, ParseCpulist file_read parse_fuel f = Done node_cpus).
Proof.
  induction fuel as [| fuel IH]; intros k aware t r H; [discriminate |].
  apply InitNumaTopology_nodes_step in H
    as [[Hopen _] | (f & bit & p2n & Hopen & _ & _ & Hrest)].
  - exists k. split; [lia |]. split; [exact Hopen |]. intros node Hnode. lia.
  - assert (Hnext : exists aware2 t2,
              InitNumaTopology_nodes NodeToPartition kNumaCpuFudge num_partitions
                scale_by open_node_cpulist parse_fuel fuel (k + 1) aware2 t2 = Done r
              /\ (NodeToPartition k num_partitions <> 0 ->
                  exists node_cpus, ParseCpulist file_read parse_fuel f = Done node_cpus)).
    { destruct Hrest as [[Hzero H] | (Hpart & set & c2p & Hparse & _ & H)].
      - eexists _, _. split; [exact H | congruence].
      - eexists _, _. split; [exact H | eauto]. }
    destruct Hnext as (aware2 & t2 & H & Hparse).
    apply IH in H as (nodes & Hle & Habsent & Hall).
    exists nodes. split; [lia |]. split; [exact Habsent |].
    intros node Hnode. destruct (Z.eq_dec node k) as [-> | Hne]; [| apply Hall; lia].
    exists f. auto.
Qed.

(** The ways [InitNumaTopology] comes to a result: it returns "not aware"
    before the enumeration, or it goes on to the enumeration. *)
Lemma InitNumaTopology_done (fuel : nat) (sys : system) (t : tables)
    (aware : bool) (t' : tables) :
  InitNumaTopology NodeToPartition kNumaCpuFudge num_partitions scale_by
    open_node_cpulist parse_fuel fuel sys t = Done (aware, t') ->
  exists t0,
    cpu_to_scaled_partition t0 = cpu_to_scaled_partition t
    /\ ((aware = false /\ t' = t0)
        \/ (num_partitions <> 1 /\ IsFast sys = true /\ numa_requested sys = true
            /\ NumCPUs sys <= CPU_SETSIZE
            /\ InitNumaTopology_nodes NodeToPartition kNumaCpuFudge num_partitions
                 scale_by open_node_cpulist parse_fuel fuel 0 false t0
               = Done (aware, t'))).
Proof.
  unfold InitNumaTopology, numa_requested. intros H.
  destruct (or_at _ _ 1) as [p2n |]; [| discriminate].
  assert (Hearly : forall t0,
            Done (false, t0) = Done (aware, t') ->
            cpu_to_scaled_partition t0 = cpu_to_scaled_partition t ->
            exists t0,
              cpu_to_scaled_partition t0 = cpu_to_scaled_partition t
              /\ ((aware = false /\ t' = t0)
                  \/ (num_partitions <> 1 /\ IsFast sys = true
                      /\ numa_requested sys = true
                      /\ NumCPUs sys <= CPU_SETSIZE
                      /\ InitNumaTopology_nodes NodeToPartition kNumaCpuFudge
                           num_partitions scale_by open_node_cpulist parse_fuel fuel
                           0 false t0 = Done (aware, t')))).
  { intros t0 E Hc2p. injection E as <- <-. exists t0. auto. }
  assert (Henum : forall t0,
            InitNumaTopology_enumerate NodeToPartition kNumaCpuFudge num_partitions
              scale_by open_node_cpulist parse_fuel fuel sys t0 = Done (aware, t') ->
            cpu_to_scaled_partition t0 = cpu_to_scaled_partition t ->
            num_partitions <> 1 -> IsFast sys = true -> numa_requested sys = true ->
            exists t0,
              cpu_to_scaled_partition t0 = cpu_to_scaled_partition t
              /\ ((aware = false /\ t' = t0)
                  \/ (num_partitions <> 1 /\ IsFast sys = true
                      /\ numa_requested sys = true
                      /\ NumCPUs sys <= CPU_SETSIZE
                      /\ InitNumaTopology_nodes NodeToPartition kNumaCpuFudge
                           num_partitions scale_by open_node_cpulist parse_fuel fuel
                           0 false t0 = Done (aware, t')))).
  { intros t0 E Hc2p Hnp Hfast Hreq. exists t0. split; [exact Hc2p |]. right.
    unfold InitNumaTopology_enumerate in E.
    destruct (Z.leb_spec (NumCPUs sys) CPU_SETSIZE); [auto | discriminate]. }
  unfold numa_requested in Hearly, Henum.
  revert H. destruct (Z.eqb_spec num_partitions 1) as [| Hmany]; intros H;
    [apply (Hearly _ H); reflexivity |].
  destruct (IsFast sys); cbn [negb] in H; [| apply (Hearly _ H); reflexivity].
  destruct (getenv sys "TCMALLOC_NUMA_AWARE") as [e |].
  - destruct (String.eqb e "no-binding");
      [apply (Henum _ H); auto; reflexivity |].
    destruct (String.eqb e "advisory-binding");
      [apply (Henum _ H); auto; reflexivity |].
    destruct (String.eqb e "1"); [apply (Henum _ H); auto; reflexivity |].
    cbn [orb] in H.
    destruct (String.eqb e "strict-binding");
      [apply (Henum _ H); auto; reflexivity |].
    destruct (String.eqb e "0"); [| discriminate].
    apply (Hearly _ H). reflexivity.
  - destruct (default_want_numa_aware sys); cbn [negb] in H.
    + apply (Henum _ H); auto; reflexivity.
    + apply (Hearly _ H). reflexivity.
Qed.

(** X14.  When [InitNumaTopology] returns [false], whatever the machine
    and the environment, it has written no entry of
    [cpu_to_scaled_partition]: every cpu is left in the partition it was
    in, partition 0 for the zero-initialised table. *)
Theorem InitNumaTopology_false_leaves_cpus (fuel : nat) (sys : system)
    (t t' : tables) :
  InitNumaTopology NodeToPartition kNumaCpuFudge num_partitions scale_by
    open_node_cpulist parse_fuel fuel sys t = Done (false, t') ->
  cpu_to_scaled_partition t' = cpu_to_scaled_partition t.
Proof.
  intros H. apply InitNumaTopology_done in H
    as (t0 & Hc2p & [[_ ->] | (_ & _ & _ & _ & H)]); [exact Hc2p |].
  apply InitNumaTopology_nodes_unaware in H as [_ H]. congruence.
Qed.

(** X15.  [InitNumaTopology] returns [true] only when NUMA awareness is
    compiled in (more than one partition), the fast per-cpu mode is
    available, the environment or the default asks for it and the number of
    cpus fits [CPU_SETSIZE], and only when some node of a non-zero partition
    has a cpulist that lists a cpu below [CPU_SETSIZE]. *)
Theorem InitNumaTopology_true_only_if (fuel : nat) (sys : system) (t t' : tables) :
  InitNumaTopology NodeToPartition kNumaCpuFudge num_partitions scale_by
    open_node_cpulist parse_fuel fuel sys t = Done (true, t') ->
  num_partitions <> 1 /\ IsFast sys = true /\ numa_requested sys = true
  /\ NumCPUs sys <= CPU_SETSIZE
  /\ exists node f node_cpus cpu,
       0 <= node /\ open_node_cpulist node = Opened f
       /\ NodeToPartition node num_partitions <> 0
       /\ ParseCpulist file_read parse_fuel f = Done node_cpus
       /\ 0 <= cpu < CPU_SETSIZE /\ CPU_ISSET cpu node_cpus = true.
Proof.
  intros H. apply InitNumaTopology_done in H
    as (t0 & _ & [[H _] | (Hnp & Hfast & Hreq & Hcpus & H)]); [discriminate |].
  apply InitNumaTopology_nodes_flag in H.
  destruct (proj1 H eq_refl) as [E | (node & f & set & Hnode & _ & Hopen & Hpart & Hparse & Hc)];
    [discriminate |].
  apply CPU_COUNT_nonzero in Hc as (cpu & Hcpu & Hset).
  split; [exact Hnp |]. split; [exact Hfast |]. split; [exact Hreq |].
  split; [exact Hcpus |]. exists node, f, set, cpu. tauto.
Qed.

(** X16.  When [InitNumaTopology] returns after NUMA awareness was asked
    for and available, the number of cpus fits [CPU_SETSIZE] and the
    enumeration has come to a node whose cpulist does not exist ([ENOENT]);
    it could open every node before that one, and it has parsed the cpulist
    of each of them that lies in a non-zero partition.  So an [open] that
    fails with another error, and a cpulist that cannot be parsed in a
    non-zero partition, never lead to a result.  (Where the [int] shift
    [1 << node] is undefined, from node 32 on, the run has no result here;
    the statement says nothing on what the compiled code does there.) *)
Theorem InitNumaTopology_returns_only_if (fuel : nat) (sys : system)
    (t t' : tables) (aware : bool) :
  InitNumaTopology NodeToPartition kNumaCpuFudge num_partitions scale_by
    open_node_cpulist parse_fuel fuel sys t = Done (aware, t') ->
  num_partitions <> 1 -> IsFast sys = true -> numa_requested sys = true ->
  NumCPUs sys <= CPU_SETSIZE
  /\ exists nodes,
       0 <= nodes
       /\ open_node_cpulist nodes = OpenFailed ENOENT
       /\ forall node, 0 <= node < nodes ->
            exists f, open_node_cpulist node = Opened f
              /\ (NodeToPartition node num_partitions <> 0 ->
                  exists node_cpus, ParseCpulist file_read parse_fuel f = Done node_cpus).
Proof.
  intros H Hnp Hfast Hreq.
  assert (Henum : NumCPUs sys <= CPU_SETSIZE
            /\ exists t0 r,
                 InitNumaTopology_nodes NodeToPartition kNumaCpuFudge num_partitions
                   scale_by open_node_cpulist parse_fuel fuel 0 false t0 = Done r).
  { unfold InitNumaTopology in H. unfold numa_requested in Hreq.
    destruct (or_at _ _ 1) as [p2n |]; [| discriminate].
    replace (num_partitions =? 1) with false in H by (symmetry; apply Z.eqb_neq; exact Hnp).
    rewrite Hfast in H. cbn [negb] in H.
    assert (Hgo : forall t0,
              InitNumaTopology_enumerate NodeToPartition kNumaCpuFudge num_partitions
                scale_by open_node_cpulist parse_fuel fuel sys t0 = Done (aware, t') ->
              NumCPUs sys <= CPU_SETSIZE
              /\ exists t0 r,
                   InitNumaTopology_nodes NodeToPartition kNumaCpuFudge num_partitions
                     scale_by open_node_cpulist parse_fuel fuel 0 false t0 = Done r).
    { intros t0. unfold InitNumaTopology_enumerate.
      destruct (Z.leb_spec (NumCPUs sys) CPU_SETSIZE); [eauto | discriminate]. }
    destruct (getenv sys "TCMALLOC_NUMA_AWARE") as [e |].
    - destruct (String.eqb e "no-binding"); [eapply Hgo; exact H |].
      destruct (String.eqb e "advisory-binding"); [eapply Hgo; exact H |].
      destruct (String.eqb e "1"); [eapply Hgo; exact H |].
      destruct (String.eqb e "strict-binding"); [eapply Hgo; exact H |].
      discriminate Hreq.
    - rewrite Hreq in H. eapply Hgo; exact H. }
  destruct Henum as (Hcpus & t0 & r & Hrun). split; [exact Hcpus |].
  apply InitNumaTopology_nodes_done in Hrun as (nodes & Hle & Habsent & Hall).
  exists nodes. split; [exact Hle |]. split; [exact Habsent |].
  intros node Hnode. apply Hall. exact Hnode.
Qed.

Lemma or_at_inv (a : list Z) (i x : Z) (a' : list Z) :
  or_at a i x = Some a' ->
  exists v, a !! Z.to_nat i = Some v /\ a' = <[Z.to_nat i := Z.lor v x]> a.
Proof.
  unfold or_at. destruct (a !! Z.to_nat i) as [v |]; [| discriminate].
  intros H. injection H as <-. eauto.
Qed.

(** The node sets after a run: a bit is set when it was set before, or when
    it is a bit of [1 << node] for a node the run has come to, in the set of
    the partition of that node. *)
Lemma InitNumaTopology_nodes_bits (fuel : nat) :
  forall (k : Z) (aware : bool) (t : tables) (r : bool * tables),
    InitNumaTopology_nodes NodeToPartition kNumaCpuFudge num_partitions scale_by
      open_node_cpulist parse_fuel fuel k aware t = Done r ->
    forall (p : nat) (w' : Z),
      partition_to_nodes (snd r) !! p = Some w' ->
      exists w,
        partition_to_nodes t !! p = Some w
        /\ forall i,
             Z.testbit w' i = true
             <-> (Z.testbit w i = true
                  \/ exists node bit,
                       k <= node
                       /\ (forall j, k <= j <= node ->
                             exists g, open_node_cpulist j = Opened g)
                       /\ Z.to_nat (NodeToPartition node num_partitions) = p
                       /\ one_shl node = Some bit /\ Z.testbit bit i = true).
Proof.
  induction fuel as [| fuel IH]; intros k aware t r H p w' Hw'; [discriminate |].
  apply InitNumaTopology_nodes_step in H
    as [[Habsent ->] | (f & bit & p2n & Hopen & Hshl & Hor & Hrest)].
  - exists w'. split; [exact Hw' |]. intros i. split; [auto |].
    intros [H | (node & b & Hnode & Hreach & _)]; [exact H |].
    destruct (Hreach k ltac:(lia)) as [g Hg]. congruence.
  - assert (Hnext : exists aware2 c2p,
              InitNumaTopology_nodes NodeToPartition kNumaCpuFudge num_partitions
                scale_by open_node_cpulist parse_fuel fuel (k + 1) aware2
                (Tables c2p p2n (bind_mode t)) = Done r).
    { destruct Hrest as [[_ H] | (_ & set & c2p & _ & _ & H)]; eauto. }
    destruct Hnext as (aware2 & c2p & H).
    destruct (IH _ _ _ _ H p w' Hw') as (w1 & Hw1 & Hbits).
    cbn [partition_to_nodes] in Hw1.
    apply or_at_inv in Hor as (v & Hv & ->).
    set (idx := Z.to_nat (NodeToPartition k num_partitions)) in *.
    assert (Hmine : forall node b,
              k <= node ->
              (forall j, k <= j <= node -> exists g, open_node_cpulist j = Opened g) ->
              Z.to_nat (NodeToPartition node num_partitions) = p ->
              one_shl node = Some b ->
              node = k /\ idx = p /\ b = bit
              \/ k + 1 <= node
                 /\ forall j, k + 1 <= j <= node ->
                      exists g, open_node_cpulist j = Opened g).
    { intros node b Hnode Hreach Hp Hb. destruct (Z.eq_dec node k) as [-> | Hne].
      - left. split; [reflexivity |]. split; [exact Hp | congruence].
      - right. split; [lia |]. intros j Hj. apply Hreach. lia. }
    destruct (Nat.eq_dec p idx) as [-> | Hp].
    + rewrite list_lookup_insert_eq in Hw1 by (apply lookup_lt_Some in Hv; exact Hv).
      injection Hw1 as <-. exists v. split; [exact Hv |]. intros i.
      rewrite Hbits, Z.lor_spec, orb_true_iff. split.
      * intros [[Hold | Hbit] | (node & b & Hnode & Hreach & Hrest')].
        -- auto.
        -- right. exists k, bit. split; [lia |].
           split; [intros j Hj; replace j with k by lia; eauto |]. auto.
        -- right. exists node, b. split; [lia |]. split; [| exact Hrest'].
           intros j Hj. destruct (Z.eq_dec j k) as [-> | Hne]; [eauto | apply Hreach; lia].
      * intros [Hold | (node & b & Hnode & Hreach & Hpart & Hb & Hbit)]; [auto |].
        destruct (Hmine node b Hnode Hreach Hpart Hb) as [(-> & _ & ->) | (Hn & Hr)].
        -- auto.
        -- right. exists node, b. auto.
    + rewrite list_lookup_insert_ne in Hw1 by congruence.
      exists w1. split; [exact Hw1 |]. intros i. rewrite Hbits. split.
      * intros [Hold | (node & b & Hnode & Hreach & Hrest')]; [auto |].
        right. exists node, b. split; [lia |]. split; [| exact Hrest'].
        intros j Hj. destruct (Z.eq_dec j k) as [-> | Hne]; [eauto | apply Hreach; lia].
      * intros [Hold | (node & b & Hnode & Hreach & Hpart & Hb & Hbit)]; [auto |].
        destruct (Hmine node b Hnode Hreach Hpart Hb) as [(_ & E & _) | (Hn & Hr)];
          [congruence |].
        right. exists node, b. auto.
Qed.

End Inversion.

(** X17.  The flag [InitNumaTopology] returns.  Let [NodeToPartition]
    return [node mod num_partitions].  On a machine with at most 32 nodes,
    each with a well-formed cpulist, where NUMA awareness is requested and
    available, [InitNumaTopology] returns [true] exactly when the cpulist of
    some node of a non-zero partition lists a cpu below [CPU_SETSIZE].  So it
    returns [false] on a machine with a single node, and when every such
    cpulist is empty. *)
Theorem InitNumaTopology_aware_iff
    (NodeToPartition : Z -> Z -> Z) (kNumaCpuFudge num_partitions scale_by : Z)
    (open_node_cpulist : Z -> open_result)
    (parse_fuel fuel : nat) (sys : system) (t : tables)
    (nodes : Z) (items : Z -> list item) (chunks : Z -> list nat) :
  (forall node, 0 <= node ->
     NodeToPartition node num_partitions = node mod num_partitions) ->
  0 <= kNumaCpuFudge -> 1 < num_partitions -> 0 <= nodes <= 32 ->
  (forall node, 0 <= node < nodes ->
     open_node_cpulist node = Opened (File (cpulist_text (items node)) (chunks node))
     /\ Forall short_item (items node)
     /\ (2 * length (cpulist_text (items node)) < parse_fuel)%nat) ->
  open_node_cpulist nodes = OpenFailed ENOENT ->
  IsFast sys = true -> numa_requested sys = true -> NumCPUs sys <= CPU_SETSIZE ->
  num_partitions <= Z.of_nat (length (partition_to_nodes t)) ->
  CPU_SETSIZE + kNumaCpuFudge <= Z.of_nat (length (cpu_to_scaled_partition t)) ->
  (Z.to_nat nodes < fuel)%nat ->
  exists aware t',
    InitNumaTopology NodeToPartition kNumaCpuFudge num_partitions scale_by
      open_node_cpulist parse_fuel fuel sys t = Done (aware, t')
    /\ (aware = true <->
        exists node cpu,
          0 <= node < nodes /\ node mod num_partitions <> 0
          /\ 0 <= cpu < CPU_SETSIZE /\ listed (items node) cpu)
    /\ (nodes <= 1 -> aware = false).
Proof.
  intros Hmod Hfudge Hnp Hnodes Hopen Habsent Hfast Hreq Hcpus Hp2n Hc2p Hfuel.
  set (files := fun node => File (cpulist_text (items node)) (chunks node)).
  set (cpus := fun node =>
                 match ParseCpulist file_read parse_fuel (files node) with
                 | Done set => set
                 | _ => CPU_ZERO
                 end).
  assert (Hparse : forall node, 0 <= node < nodes ->
            ParseCpulist file_read parse_fuel (files node) = Done (cpus node)
            /\ forall c, 0 <= c < CPU_SETSIZE ->
                 (CPU_ISSET c (cpus node) = true <-> listed (items node) c)).
  { intros node Hnode. destruct (Hopen node Hnode) as (_ & Hshort & Hpf).
    destruct (ParseCpulist_items (items node) (chunks node) parse_fuel Hshort Hpf)
      as (set & Hrun & Hmem).
    unfold cpus, files. rewrite Hrun. split; [reflexivity |].
    intros c Hc. rewrite Hmem by (unfold CPU_SETSIZE in Hc; lia). tauto. }
  destruct (InitNumaTopology_assigns_sets NodeToPartition kNumaCpuFudge num_partitions
              scale_by open_node_cpulist parse_fuel fuel sys t nodes files cpus)
    as (aware & t' & Hdone & _); auto.
  { intros node Hnode. rewrite Hmod by exact Hnode. apply Z.mod_pos_bound. lia. }
  { rewrite Hmod by lia. apply Z.mod_0_l. lia. }
  { intros node Hnode. apply Hopen. exact Hnode. }
  { intros node Hnode _. apply Hparse. exact Hnode. }
  exists aware, t'. split; [exact Hdone |].
  assert (Hflag : aware = true <->
            exists node cpu,
              0 <= node < nodes /\ node mod num_partitions <> 0
              /\ 0 <= cpu < CPU_SETSIZE /\ listed (items node) cpu).
  { destruct (InitNumaTopology_requested NodeToPartition kNumaCpuFudge num_partitions
                scale_by open_node_cpulist parse_fuel fuel sys t)
      as (t1 & Hrun & _);
      [rewrite Hmod by lia; apply Z.mod_0_l; lia | lia
      | destruct (partition_to_nodes t); [cbn [length] in Hp2n; lia | discriminate]
      | exact Hfast | exact Hreq |].
    rewrite Hrun in Hdone. clear Hrun. rename Hdone into Hrun.
    unfold InitNumaTopology_enumerate in Hrun.
    replace (NumCPUs sys <=? CPU_SETSIZE) with true in Hrun
      by (symmetry; apply Z.leb_le; exact Hcpus).
    apply InitNumaTopology_nodes_flag in Hrun. rewrite Hrun. split.
    - intros [E | (node & f & set & Hnode & Hreach & Hop & Hpart & Hpf & Hc)];
        [discriminate |].
      assert (Hlt : node < nodes).
      { destruct (Z.lt_ge_cases node nodes) as [Hlt | Hge]; [exact Hlt |].
        destruct (Hreach nodes ltac:(lia)) as [g Hg]. congruence. }
      destruct (Hopen node ltac:(lia)) as (Hop' & _).
      destruct (Hparse node ltac:(lia)) as (Hpf' & Hmem).
      fold (files node) in Hop'.
      assert (f = files node) as -> by congruence.
      assert (set = cpus node) as -> by congruence.
      apply CPU_COUNT_nonzero in Hc as (cpu & Hcpu & Hset).
      exists node, cpu. rewrite Hmod in Hpart by lia.
      split; [lia |]. split; [exact Hpart |]. split; [exact Hcpu |].
      apply Hmem; assumption.
    - intros (node & cpu & Hnode & Hpart & Hcpu & Hlisted). right.
      destruct (Hopen node Hnode) as (Hop' & _).
      destruct (Hparse node Hnode) as (Hpf' & Hmem).
      exists node, (files node), (cpus node). split; [lia |].
      split; [intros j Hj; destruct (Hopen j ltac:(lia)) as (Hj' & _); eauto |].
      split; [exact Hop' |]. split; [rewrite Hmod by lia; exact Hpart |].
      split; [exact Hpf' |]. apply CPU_COUNT_nonzero. exists cpu.
      split; [exact Hcpu |]. apply Hmem; assumption. }
  split; [exact Hflag |].
  intros Hsingle. destruct aware; [| reflexivity].
  destruct (proj1 Hflag eq_refl) as (node & cpu & Hnode & Hpart & _).
  assert (node = 0) as -> by lia. rewrite Z.mod_0_l in Hpart by lia. congruence.
Qed.

Lemma InitNumaTopology_requested_nodes
    (NodeToPartition : Z -> Z -> Z) (kNumaCpuFudge num_partitions scale_by : Z)
    (open_node_cpulist : Z -> open_result)
    (parse_fuel fuel : nat) (sys : system) (t : tables) :
  NodeToPartition 0 num_partitions = 0 -> 1 < num_partitions ->
  partition_to_nodes t <> [] ->
  IsFast sys = true -> numa_requested sys = true ->
  exists t0,
    InitNumaTopology NodeToPartition kNumaCpuFudge num_partitions scale_by
      open_node_cpulist parse_fuel fuel sys t
    = InitNumaTopology_enumerate NodeToPartition kNumaCpuFudge num_partitions
        scale_by open_node_cpulist parse_fuel fuel sys t0
    /\ partition_to_nodes t0 = partition_to_nodes (with_node0 t).
Proof.
  intros Hzero Hnp Hp2n Hfast Hreq.
  rewrite InitNumaTopology_prelude by assumption. cbv zeta.
  replace (num_partitions =? 1) with false by (symmetry; apply Z.eqb_neq; lia).
  rewrite Hfast. cbn [negb]. unfold numa_requested in Hreq.
  destruct (getenv sys "TCMALLOC_NUMA_AWARE") as [e |].
  - destruct (String.eqb e "no-binding"); [eexists; split; reflexivity |].
    destruct (String.eqb e "advisory-binding"); [eexists; split; reflexivity |].
    destruct (String.eqb e "1"); [eexists; split; reflexivity |].
    destruct (String.eqb e "strict-binding"); [eexists; split; reflexivity |].
    discriminate.
  - rewrite Hreq. eexists; split; reflexivity.
Qed.

(** The bits of [1 << node] as the [uint64_t] that is or-ed into a node set:
    bit [node], and for node 31, where the [int] is negative and the
    conversion extends its sign, the bits 32 to 63 as well. *)
Lemma one_shl_bits node bit :
  0 <= node -> one_shl node = Some bit ->
  forall i, Z.testbit bit i = true <-> i = node \/ (node = 31 /\ 31 <= i < 64).
Proof.
  intros Hnode. unfold one_shl.
  destruct (Z.ltb_spec node 31) as [Hlt | Hge].
  - intros H i. injection H as <-. rewrite Z.shiftl_1_l.
    destruct (Z.neg_nonneg_cases i) as [Hneg | Hpos].
    + rewrite Z.testbit_neg_r by exact Hneg. split; [discriminate | lia].
    + rewrite Z.pow2_bits_eqb by exact Hnode. rewrite Z.eqb_eq. lia.
  - destruct (Z.eqb_spec node 31) as [-> | Hne]; [| discriminate].
    intros H i. injection H as <-.
    change (2 ^ 64 - 2 ^ 31) with (Z.shiftl (Z.ones 33) 31).
    destruct (Z.neg_nonneg_cases i) as [Hneg | Hpos].
    + rewrite Z.testbit_neg_r by exact Hneg. split; [discriminate | lia].
    + rewrite Z.shiftl_spec by exact Hpos.
      destruct (Z.neg_nonneg_cases (i - 31)) as [Hlow | Hhigh].
      * rewrite Z.testbit_neg_r by exact Hlow. split; [discriminate | lia].
      * rewrite Z.testbit_ones_nonneg by lia. rewrite Z.ltb_lt. lia.
Qed.

(** X21.  The node sets [InitNumaTopology] leaves.  Let [NodeToPartition]
    return [node mod num_partitions].  On a machine with 1 to 32 nodes, each
    with a well-formed cpulist, where NUMA awareness is requested and
    available, and starting from zeroed node sets, the set of partition [p]
    holds exactly the nodes of that partition: bit [i] is set when, and only
    when, [i] is a node with [i mod num_partitions = p].  There is one
    exception: for node 31 the value [1 << 31] is a negative [int], and with
    bit 31 the bits 32 to 63 are set in the set of its partition. *)
Theorem InitNumaTopology_node_sets
    (NodeToPartition : Z -> Z -> Z) (kNumaCpuFudge num_partitions scale_by : Z)
    (open_node_cpulist : Z -> open_result)
    (parse_fuel fuel : nat) (sys : system) (t : tables)
    (nodes : Z) (items : Z -> list item) (chunks : Z -> list nat) :
  (forall node, 0 <= node ->
     NodeToPartition node num_partitions = node mod num_partitions) ->
  0 <= kNumaCpuFudge -> 1 < num_partitions -> 1 <= nodes <= 32 ->
  (forall node, 0 <= node < nodes ->
     open_node_cpulist node = Opened (File (cpulist_text (items node)) (chunks node))
     /\ Forall short_item (items node)
     /\ (2 * length (cpulist_text (items node)) < parse_fuel)%nat) ->
  open_node_cpulist nodes = OpenFailed ENOENT ->
  IsFast sys = true -> numa_requested sys = true -> NumCPUs sys <= CPU_SETSIZE ->
  num_partitions <= Z.of_nat (length (partition_to_nodes t)) ->
  Forall (fun w => w = 0) (partition_to_nodes t) ->
  CPU_SETSIZE + kNumaCpuFudge <= Z.of_nat (length (cpu_to_scaled_partition t)) ->
  (Z.to_nat nodes < fuel)%nat ->
  exists aware t',
    InitNumaTopology NodeToPartition kNumaCpuFudge num_partitions scale_by
      open_node_cpulist parse_fuel fuel sys t = Done (aware, t')
    /\ forall (p : nat) (w : Z),
         partition_to_nodes t' !! p = Some w ->
         forall i,
           Z.testbit w i = true
           <-> exists node,
                 0 <= node < nodes /\ node mod num_partitions = Z.of_nat p
                 /\ (i = node \/ (node = 31 /\ 31 <= i < 64)).
Proof.
  intros Hmod Hfudge Hnp Hnodes Hopen Habsent Hfast Hreq Hcpus Hp2n Hzeroed Hc2p Hfuel.
  set (files := fun node => File (cpulist_text (items node)) (chunks node)).
  set (cpus := fun node =>
                 match ParseCpulist file_read parse_fuel (files node) with
                 | Done set => set
                 | _ => CPU_ZERO
                 end).
  assert (Hparse : forall node, 0 <= node < nodes ->
            ParseCpulist file_read parse_fuel (files node) = Done (cpus node)).
  { intros node Hnode. destruct (Hopen node Hnode) as (_ & Hshort & Hpf).
    destruct (ParseCpulist_items (items node) (chunks node) parse_fuel Hshort Hpf)
      as (set & Hrun & _).
    unfold cpus, files. rewrite Hrun. reflexivity. }
  assert (Hpart0 : NodeToPartition 0 num_partitions = 0)
    by (rewrite Hmod by lia; apply Z.mod_0_l; lia).
  assert (Hne : partition_to_nodes t <> [])
    by (destruct (partition_to_nodes t); [cbn [length] in Hp2n; lia | discriminate]).
  destruct (InitNumaTopology_assigns_sets NodeToPartition kNumaCpuFudge num_partitions
              scale_by open_node_cpulist parse_fuel fuel sys t nodes files cpus)
    as (aware & t' & Hdone & _); auto.
  { intros node Hnode. rewrite Hmod by exact Hnode. apply Z.mod_pos_bound. lia. }
  { lia. }
  { intros node Hnode. apply Hopen. exact Hnode. }
  exists aware, t'. split; [exact Hdone |].
  destruct (InitNumaTopology_requested_nodes NodeToPartition kNumaCpuFudge
              num_partitions scale_by open_node_cpulist parse_fuel fuel sys t)
    as (t0 & Hrun & Ht0); [exact Hpart0 | exact Hnp | exact Hne | exact Hfast | exact Hreq |].
  rewrite Hrun in Hdone. clear Hrun. unfold InitNumaTopology_enumerate in Hdone.
  replace (NumCPUs sys <=? CPU_SETSIZE) with true in Hdone
    by (symmetry; apply Z.leb_le; exact Hcpus).
  intros p w Hw.
  destruct (InitNumaTopology_nodes_bits _ _ _ _ _ _ _ _ _ _ _ Hdone p w Hw)
    as (w0 & Hw0 & Hbits).
  (* the set of [p] before the enumeration: node 0 in partition 0 *)
  assert (Hbefore : forall i, Z.testbit w0 i = true <-> (p = 0%nat /\ i = 0)).
  { rewrite Ht0 in Hw0. unfold with_node0 in Hw0.
    destruct (partition_to_nodes t) as [| v rest] eqn:Ep2n; [congruence |].
    cbn [lookup list_lookup] in Hw0. cbn [partition_to_nodes] in Hw0.
    inversion Hzeroed as [| ? ? Hv Hrest]; subst.
    destruct p as [| p].
    - cbn in Hw0. injection Hw0 as <-. intros i.
      change (Z.lor 0 1) with 1. split.
      + intros H. split; [reflexivity |].
        destruct (Z.eq_dec i 0) as [-> | Hi]; [reflexivity |].
        destruct (Z.neg_nonneg_cases i) as [Hneg | Hpos];
          [rewrite Z.testbit_neg_r in H by exact Hneg; discriminate |].
        change 1 with (2 ^ 0) in H. rewrite Z.pow2_bits_eqb in H by lia.
        apply Z.eqb_eq in H. lia.
      + intros [_ ->]. reflexivity.
    - cbn in Hw0. rewrite Forall_lookup in Hrest. apply Hrest in Hw0. subst w0.
      intros i. rewrite Z.bits_0. split; [discriminate | intros [E _]; discriminate]. }
  intros i. rewrite Hbits, Hbefore. split.
  - intros [[-> ->] | (node & bit & Hnode & Hreach & Hpart & Hshl & Hbit)].
    + exists 0. split; [lia |]. split; [apply Z.mod_0_l; lia | auto].
    + assert (Hlt : node < nodes).
      { destruct (Z.lt_ge_cases node nodes) as [Hlt | Hge]; [exact Hlt |].
        destruct (Hreach nodes ltac:(lia)) as [g Hg]. congruence. }
      exists node. split; [lia |]. rewrite Hmod in Hpart by lia.
      pose proof (Z.mod_pos_bound node num_partitions ltac:(lia)).
      split; [lia |]. apply (one_shl_bits node bit); [lia | exact Hshl | exact Hbit].
  - intros (node & Hnode & Hpart & Hi). right.
    destruct (one_shl_bit node) as (bit & Hshl & _); [lia |].
    exists node, bit. split; [lia |].
    split; [intros j Hj; destruct (Hopen j ltac:(lia)) as (Hj' & _); eauto |].
    split; [rewrite Hmod by lia; lia |]. split; [exact Hshl |].
    apply (one_shl_bits node bit); [lia | exact Hshl | exact Hi].
Qed.

(** ** Instances *)

Lemma ParseCpulist_within_CPU_SETSIZE_witness :
  ParseCpulist file_read 10 (File (list_ascii_of_string "0-2") []) = Done 7
  /\ 0 <= 1 < CPU_SETSIZE /\ CPU_ISSET 1 7 = true.
Proof.
  assert (H : ParseCpulist file_read 10 (File (list_ascii_of_string "0-2") []) = Done 7)
    by reflexivity.
  split; [exact H |].
  exact (ParseCpulist_within_CPU_SETSIZE file_read 10 _ 7 H 1 eq_refl).
Defined.

Lemma ParseCpulist_trailing_white_space_witness :
  forallb is_space ["010"%char] = true
  /\ ParseCpulist file_read 20
       (File (cpulist_text [Range ["0"%char] ["3"%char]] ++ ["010"%char]) [2%nat])
     = ParseCpulist file_read 20 (File (cpulist_text [Range ["0"%char] ["3"%char]]) [])
  /\ ParseCpulist file_read 20 (File ["010"%char] [])
     = CheckFailed "absl::SimpleAtoi(current.substr(0, comma), &cpu)".
Proof.
  assert (H : forallb is_space ["010"%char] = true) by reflexivity.
  split; [exact H |].
  destruct (ParseCpulist_trailing_white_space ["010"%char] [2%nat] [] 20 H)
    as (Hsame & Halone).
  split.
  - apply (Hsame [Range ["0"%char] ["3"%char]] (Range ["0"%char] ["3"%char]));
      [short_items | reflexivity | cbn; lia | cbn; lia].
  - apply Halone; [discriminate | cbn; lia | cbn; lia].
Defined.

Lemma ParseCpulist_unfinished_range_witness :
  ParseCpulist file_read 20 (File (list_ascii_of_string "5,7-") [])
    = ParseCpulist file_read 20 (File (list_ascii_of_string "5") [])
  /\ ParseCpulist file_read 20 (File (list_ascii_of_string "5") []) = Done 32.
Proof.
  destruct (ParseCpulist_unfinished_range [Single ["5"%char]] ["7"%char] [] [] 20)
    as (Hsame & _); [short_items | short_numeral_tac | cbn; lia |].
  split; [exact Hsame | reflexivity].
Defined.

Lemma InitNumaTopology_false_leaves_cpus_witness :
  InitNumaTopology Z.modulo 2 2 1 (fun _ => OpenFailed ENOENT) 10 10
    (System (fun _ => Some "0"%string) true false 4)
    (Tables (replicate 8 0) [0; 0] kAdvisory)
    = Done (false, Tables (replicate 8 0) [1; 0] kAdvisory)
  /\ cpu_to_scaled_partition (Tables (replicate 8 0) [1; 0] kAdvisory)
     = cpu_to_scaled_partition (Tables (replicate 8 0) [0; 0] kAdvisory).
Proof.
  assert (H : InitNumaTopology Z.modulo 2 2 1 (fun _ => OpenFailed ENOENT) 10 10
                (System (fun _ => Some "0"%string) true false 4)
                (Tables (replicate 8 0) [0; 0] kAdvisory)
              = Done (false, Tables (replicate 8 0) [1; 0] kAdvisory)) by reflexivity.
  split; [exact H |].
  exact (InitNumaTopology_false_leaves_cpus Z.modulo 2 2 1 (fun _ => OpenFailed ENOENT)
           10 10 _ _ _ H).
Defined.

Lemma InitNumaTopology_true_only_if_witness :
  exists t',
    InitNumaTopology Z.modulo 2 3 5 (sysfs three_nodes) 100 4 numa_on fresh_tables
      = Done (true, t')
    /\ numa_requested numa_on = true
    /\ exists node f node_cpus cpu,
         0 <= node /\ sysfs three_nodes node = Opened f
         /\ node mod 3 <> 0
         /\ ParseCpulist file_read 100 f = Done node_cpus
         /\ 0 <= cpu < CPU_SETSIZE /\ CPU_ISSET cpu node_cpus = true.
Proof.
  eexists. split; [vm_compute; reflexivity |].
  destruct (InitNumaTopology_true_only_if Z.modulo 2 3 5 (sysfs three_nodes) 100 4
              numa_on fresh_tables _ ltac:(vm_compute; reflexivity))
    as (_ & _ & Hreq & _ & Hnode).
  split; [exact Hreq | exact Hnode].
Defined.

Lemma InitNumaTopology_returns_only_if_witness :
  exists aware t',
    InitNumaTopology Z.modulo 2 3 5 (sysfs three_nodes) 100 4 numa_on fresh_tables
      = Done (aware, t')
    /\ exists nodes,
         0 <= nodes /\ sysfs three_nodes nodes = OpenFailed ENOENT.
Proof.
  eexists _, _. split; [vm_compute; reflexivity |].
  destruct (InitNumaTopology_returns_only_if Z.modulo 2 3 5 (sysfs three_nodes) 100 4
              numa_on fresh_tables _ _ ltac:(vm_compute; reflexivity)
              ltac:(lia) eq_refl eq_refl)
    as (_ & nodes & Hnodes & Habsent & _).
  exists nodes. split; [exact Hnodes | exact Habsent].
Defined.

Lemma InitNumaTopology_aware_iff_witness :
  exists t',
    InitNumaTopology Z.modulo 2 3 5 (sysfs three_nodes) 100 4 numa_on fresh_tables
      = Done (true, t').
Proof.
  destruct (InitNumaTopology_aware_iff Z.modulo 2 3 5 (sysfs three_nodes)
              100 4 numa_on fresh_tables 3 three_nodes_items (fun _ => [1%nat]))
    as (aware & t' & Hrun & Hflag & _).
  - reflexivity.
  - lia.
  - lia.
  - lia.
  - intros node Hnode.
    assert (node = 0 \/ node = 1 \/ node = 2) as [-> | [-> | ->]] by lia;
      (split; [reflexivity | split; [short_items | vm_compute; lia]]).
  - reflexivity.
  - reflexivity.
  - reflexivity.
  - vm_compute. discriminate.
  - vm_compute. discriminate.
  - vm_compute. discriminate.
  - vm_compute. lia.
  - exists t'. rewrite Hrun. do 2 f_equal. apply Hflag.
    exists 1, 2. split; [lia |]. split; [vm_compute; discriminate |].
    split; [vm_compute; intuition discriminate |].
    exists (Range ["2"%char] ["3"%char]). split; [left; reflexivity |].
    vm_compute. intuition discriminate.
Defined.

Lemma InitNumaTopology_node_sets_witness :
  exists aware t',
    InitNumaTopology Z.modulo 2 3 5 (sysfs three_nodes) 100 4 numa_on fresh_tables
      = Done (aware, t')
    /\ forall w, partition_to_nodes t' !! 1%nat = Some w ->
         Z.testbit w 1 = true /\ Z.testbit w 2 = false.
Proof.
  destruct (InitNumaTopology_node_sets Z.modulo 2 3 5 (sysfs three_nodes)
              100 4 numa_on fresh_tables 3 three_nodes_items (fun _ => [1%nat]))
    as (aware & t' & Hrun & Hsets).
  - reflexivity.
  - lia.
  - lia.
  - lia.
  - intros node Hnode.
    assert (node = 0 \/ node = 1 \/ node = 2) as [-> | [-> | ->]] by lia;
      (split; [reflexivity | split; [short_items | vm_compute; lia]]).
  - reflexivity.
  - reflexivity.
  - reflexivity.
  - vm_compute. discriminate.
  - vm_compute. discriminate.
  - repeat constructor.
  - vm_compute. discriminate.
  - vm_compute. lia.
  - exists aware, t'. split; [exact Hrun |]. intros w Hw. split.
    + apply (Hsets 1%nat w Hw 1). exists 1. split; [lia |].
      split; [reflexivity | auto].
    + destruct (Z.testbit w 2) eqn:E; [| reflexivity].
      apply (Hsets 1%nat w Hw 2) in E as (node & Hnode & Hpart & [Hi | [_ Hi]]);
        [subst node; discriminate Hpart | lia].
Defined.

End NumaFacts.

Module StackTraceTableFacts.
Import StackTraceTable.

(** The samples of a table without error, bucket by bucket in the order of
    the visit. *)
Lemma Iterate_visits (estimated_bytes : Bucket -> bool -> Z) (t : table) :
  error_ t = false ->
  Iterate estimated_bytes t
    = map (emit estimated_bytes (unsample_ t)) (concat (table_ t)).
Proof.
  intros Herr. unfold Iterate. rewrite Herr.
  induction (table_ t) as [| chain rest IH]; [reflexivity |].
  cbn [Iterate_buckets concat]. rewrite map_app, IH. f_equal.
  induction chain as [| b next IHc]; [reflexivity |].
  cbn [Iterate_chain map]. rewrite IHc. reflexivity.
Qed.

Lemma emit_nearest_multiple (estimated_bytes : Bucket -> bool -> Z) (unsample : bool)
    (b : Bucket) :
  let size := allocated_size (trace b) in
  let bytes := estimated_bytes b unsample in
  let e := emit estimated_bytes unsample b in
  0 < size -> 0 <= bytes -> bytes + size / 2 < 2 ^ 63 ->
  sample_allocated_size e = size
  /\ sum e = count e * size
  /\ count e = (bytes + size / 2) / size
  /\ forall k, Z.abs (sum e - bytes) <= Z.abs (k * size - bytes).
Proof.
  cbv zeta. intros Hsize Hbytes Hmax.
  set (size := allocated_size (trace b)) in *.
  set (bytes := estimated_bytes b unsample) in *.
  change (2 ^ 63) with 9223372036854775808 in Hmax.
  assert (Hq : 0 <= (bytes + size / 2) / size
               /\ (bytes + size / 2) / size * size <= bytes + size / 2
               /\ bytes + size / 2 < ((bytes + size / 2) / size + 1) * size).
  { pose proof (Z.div_mod (bytes + size / 2) size ltac:(lia)).
    pose proof (Z.mod_pos_bound (bytes + size / 2) size Hsize).
    assert (0 <= size / 2) by (apply Z.div_pos; lia).
    split; [apply Z.div_pos; lia | nia]. }
  set (q := (bytes + size / 2) / size) in *.
  assert (Hhalf : 2 * (size / 2) <= size < 2 * (size / 2) + 2) by zlia.
  assert (Hcount : count (emit estimated_bytes unsample b) = q).
  { unfold emit; cbn [count]. fold size bytes. unfold uint64, int64.
    change (2 ^ 64) with 18446744073709551616. change (2 ^ 63) with 9223372036854775808.
    rewrite (Z.mod_small bytes) by lia.
    rewrite (Z.mod_small (bytes + size / 2)) by lia. fold q.
    rewrite (Z.mod_small q) by nia.
    replace (q <? 9223372036854775808) with true by (symmetry; apply Z.ltb_lt; nia).
    reflexivity. }
  assert (Hsum : sum (emit estimated_bytes unsample b) = q * size).
  { unfold emit; cbn [sum]. fold size bytes. unfold uint64, int64.
    change (2 ^ 64) with 18446744073709551616. change (2 ^ 63) with 9223372036854775808.
    rewrite (Z.mod_small bytes) by lia.
    rewrite (Z.mod_small (bytes + size / 2)) by lia. fold q.
    rewrite (Z.mod_small q) by nia.
    replace (q <? 9223372036854775808) with true by (symmetry; apply Z.ltb_lt; nia).
    rewrite (Z.mod_small q) by nia.
    rewrite !(Z.mod_small (q * size)) by nia.
    replace (q * size <? 9223372036854775808) with true by (symmetry; apply Z.ltb_lt; nia).
    reflexivity. }
  split; [reflexivity |]. rewrite Hsum, Hcount.
  split; [reflexivity |]. split; [reflexivity |].
  intros k.
  destruct (Z.lt_trichotomy k q) as [Hlt | [-> | Hgt]].
  - assert (k * size <= q * size - size) by nia. lia.
  - lia.
  - assert (q * size + size <= k * size) by nia. lia.
Qed.

(** C10.  When no error is recorded, [Iterate] hands [func] one sample per
    bucket, in the order of the visit, and for every bucket with a positive
    [allocated_size] whose byte estimate stays below [2^63] the sample has
    [sum = count * allocated_size], and [sum] is a multiple of
    [allocated_size] nearest to the byte estimate: no multiple is closer. *)
Theorem Iterate_sum_is_nearest_multiple
    (estimated_bytes : Bucket -> bool -> Z) (t : table) :
  error_ t = false ->
  (forall b, In b (concat (table_ t)) ->
     0 < allocated_size (trace b)
     /\ 0 <= estimated_bytes b (unsample_ t)
     /\ estimated_bytes b (unsample_ t) + allocated_size (trace b) / 2 < 2 ^ 63) ->
  Forall2
    (fun b e =>
       sample_allocated_size e = allocated_size (trace b)
       /\ sum e = count e * sample_allocated_size e
       /\ forall k,
            Z.abs (sum e - estimated_bytes b (unsample_ t))
              <= Z.abs (k * sample_allocated_size e - estimated_bytes b (unsample_ t)))
    (concat (table_ t)) (Iterate estimated_bytes t).
Proof.
  intros Herr Hrange. rewrite Iterate_visits by exact Herr.
  induction (concat (table_ t)) as [| b bs IH]; [constructor |].
  cbn [map]. constructor.
  - destruct (Hrange b (or_introl eq_refl)) as (Hsize & Hbytes & Hmax).
    destruct (emit_nearest_multiple estimated_bytes (unsample_ t) b Hsize Hbytes Hmax)
      as (Hsz & Hsum & _ & Hnear).
    rewrite Hsz. auto.
  - apply IH. intros b' Hb'. apply Hrange. right. exact Hb'.
Qed.

Lemma Iterate_sum_is_nearest_multiple_witness :
  error_ sample_table = false
  /\ map (fun e => (count e, sum e)) (Iterate sample_estimate sample_table)
     = [(21, 1008); (3, 12)]
  /\ Forall2
       (fun b e =>
          sample_allocated_size e = allocated_size (trace b)
          /\ sum e = count e * sample_allocated_size e
          /\ forall k,
               Z.abs (sum e - sample_estimate b (unsample_ sample_table))
                 <= Z.abs (k * sample_allocated_size e
                           - sample_estimate b (unsample_ sample_table)))
       (concat (table_ sample_table)) (Iterate sample_estimate sample_table).
Proof.
  split; [reflexivity |]. split; [reflexivity |].
  apply (Iterate_sum_is_nearest_multiple sample_estimate sample_table eq_refl).
  intros b [<- | [<- | []]]; vm_compute; intuition discriminate.
Defined.

End StackTraceTableFacts.

Module StackTraceTableAddFacts.
Import StackTraceTableAdd.

Section Facts.

Variable double : Type.
Variable add mul div : double -> double -> double.
Variable one_half : double.
Variable of_uintptr : Z -> double.
Variable to_uintptr : double -> Z.
Variable Hash : StackTrace -> Z.
Variable StackTrace_eq : StackTrace -> StackTrace -> bool.
Variable ProfileType : Type.
Variable num_buckets : Z -> Z.
Variable counter : Z -> Z.

Local Abbreviation AddTrace :=
  (AddTrace double add mul div one_half of_uintptr to_uintptr Hash StackTrace_eq
     ProfileType counter).
Local Abbreviation AddTrace_calls :=
  (AddTrace_calls double add mul div one_half of_uintptr to_uintptr Hash StackTrace_eq
     ProfileType counter).
Local Abbreviation merge_into :=
  (merge_into double add mul div one_half of_uintptr to_uintptr StackTrace_eq).
Local Abbreviation merged := (merged double add mul div one_half of_uintptr to_uintptr).
Local Abbreviation KeyEqual := (KeyEqual double StackTrace_eq).
Local Abbreviation StackTraceTable_new := (StackTraceTable_new double ProfileType num_buckets).
Local Abbreviation fresh := (fresh double mul of_uintptr Hash).

Lemma land_mask_range h mask : 0 <= mask -> 0 <= Z.land h mask <= mask.
Proof.
  intros Hm. split; [apply Z.land_nonneg; auto |].
  assert (Hdisj : Z.land (Z.land h mask) (Z.land (Z.lnot h) mask) = 0).
  { apply Z.bits_inj'. intros n Hn.
    rewrite !Z.land_spec, Z.lnot_spec, Z.bits_0 by lia.
    destruct (Z.testbit h n), (Z.testbit mask n); reflexivity. }
  assert (Hsum : Z.land h mask + Z.land (Z.lnot h) mask = mask).
  { rewrite Z.add_nocarry_lxor, Z.lxor_lor by exact Hdisj.
    apply Z.bits_inj'. intros n Hn.
    rewrite Z.lor_spec, !Z.land_spec, Z.lnot_spec by lia.
    destruct (Z.testbit h n), (Z.testbit mask n); reflexivity. }
  assert (0 <= Z.land (Z.lnot h) mask) by (apply Z.land_nonneg; auto).
  lia.
Qed.

Lemma merge_into_hashes chain h c t chain' :
  merge_into chain h c t = Some chain' ->
  length chain' = length chain
  /\ forall b', In b' chain' -> exists b, In b chain /\ hash b' = hash b.
Proof.
  revert chain'. induction chain as [| b next IH]; intros chain' H; [discriminate |].
  cbn [StackTraceTableAdd.merge_into] in H. destruct (KeyEqual b h t).
  - injection H as <-. split; [reflexivity |].
    intros b' [<- | Hin]; [exists b; split; [left |]; reflexivity |].
    exists b'. split; [right; exact Hin | reflexivity].
  - destruct (merge_into next h c t) as [next' |]; [| discriminate].
    injection H as <-. destruct (IH next' eq_refl) as (Hlen & Hall).
    split; [cbn [length]; rewrite Hlen; reflexivity |].
    intros b' [<- | Hin]; [exists b; split; [left |]; reflexivity |].
    destruct (Hall b' Hin) as (b0 & Hb0 & Hh). exists b0. split; [right |]; assumption.
Qed.

(** One call keeps the buckets placed. *)
Lemma AddTrace_placed (c : double) (t : StackTrace)
    (s : StackTraceTable double ProfileType) :
  placed s ->
  exists s',
    AddTrace c t s = Some s' /\ placed s'
    /\ bucket_mask_ s' = bucket_mask_ s /\ merge_ s' = merge_ s
    /\ error_ s' = error_ s /\ length (table_ s') = length (table_ s).
Proof.
  intros ((Hmask & Hlen) & Hplaced). unfold StackTraceTableAdd.AddTrace.
  destruct (error_ s) eqn:Herr.
  { exists s. repeat split; auto. }
  pose proof (land_mask_range (Hash t) (bucket_mask_ s) Hmask) as Hidx.
  set (idx := Z.to_nat (Z.land (Hash t) (bucket_mask_ s))).
  destruct (lookup_lt_is_Some_2 (table_ s) idx) as [chain Hchain]; [unfold idx; lia |].
  rewrite Hchain.
  destruct (if merge_ s then merge_into chain (Hash t) c t else None)
    as [chain' |] eqn:Hmerge.
  - assert (Hm : merge_into chain (Hash t) c t = Some chain')
      by (destruct (merge_ s); [exact Hmerge | discriminate]).
    apply merge_into_hashes in Hm as (_ & Hsame).
    eexists. split; [reflexivity |]. cbn [bucket_mask_ merge_ error_ table_].
    rewrite length_insert. split; [| auto]. unfold placed. cbn [bucket_mask_ table_].
    rewrite length_insert. split; [auto |].
    intros i ch b Hi Hb. destruct (Nat.eq_dec i idx) as [-> | Hne].
    + rewrite list_lookup_insert_eq in Hi by (apply lookup_lt_Some in Hchain; exact Hchain).
      injection Hi as <-. destruct (Hsame b Hb) as (b0 & Hb0 & ->).
      apply (Hplaced idx chain b0 Hchain Hb0).
    + rewrite list_lookup_insert_ne in Hi by congruence.
      apply (Hplaced i ch b Hi Hb).
  - eexists. split; [reflexivity |]. cbn [bucket_mask_ merge_ error_ table_].
    rewrite length_insert. split; [| auto]. unfold placed. cbn [bucket_mask_ table_].
    rewrite length_insert. split; [auto |].
    intros i ch b Hi Hb. destruct (Nat.eq_dec i idx) as [-> | Hne].
    + rewrite list_lookup_insert_eq in Hi by (apply lookup_lt_Some in Hchain; exact Hchain).
      injection Hi as <-. destruct Hb as [<- | Hb]; [reflexivity |].
      apply (Hplaced idx chain b Hchain Hb).
    + rewrite list_lookup_insert_ne in Hi by congruence.
      apply (Hplaced i ch b Hi Hb).
Qed.

(** X18.  Starting from the table the constructor builds, every run of
    [AddTrace] calls comes to an end without leaving the array of chains,
    and leaves every bucket in the chain that its hash selects under the
    mask, so that the walk of a later [AddTrace] looks where the bucket is. *)
Theorem AddTrace_keeps_buckets_placed
    (type : ProfileType) (period : Z) (merge unsample : bool)
    (calls : list (double * StackTrace)) :
  (forall mask, 0 <= mask -> mask < num_buckets mask) ->
  exists s,
    AddTrace_calls calls (StackTraceTable_new type period merge unsample) = Some s
    /\ placed s
    /\ bucket_mask_ s = (if merge then 16383 else 0)
    /\ Z.of_nat (length (table_ s)) = num_buckets (bucket_mask_ s).
Proof.
  intros Hnum.
  set (s0 := StackTraceTable_new type period merge unsample).
  assert (Hmask0 : bucket_mask_ s0 = if merge then 16383 else 0)
    by (destruct merge; reflexivity).
  assert (Hlen0 : Z.of_nat (length (table_ s0)) = num_buckets (bucket_mask_ s0)).
  { unfold s0, StackTraceTableAdd.StackTraceTable_new. cbn [table_ bucket_mask_].
    rewrite length_replicate.
    assert (0 <= (if merge then Z.shiftl 1 14 - 1 else 0))
      by (destruct merge; [change (Z.shiftl 1 14 - 1) with 16383 |]; lia).
    pose proof (Hnum _ H). lia. }
  assert (Hplaced0 : placed s0).
  { split.
    - rewrite Hlen0. rewrite Hmask0.
      split; [destruct merge; lia | apply Hnum; destruct merge; lia].
    - intros i chain b Hi Hb. unfold s0, StackTraceTableAdd.StackTraceTable_new in Hi.
      cbn [table_] in Hi. apply lookup_replicate in Hi as [-> _]. destruct Hb. }
  clearbody s0. revert s0 Hmask0 Hlen0 Hplaced0.
  induction calls as [| [c t] rest IH]; intros s0 Hmask0 Hlen0 Hplaced0.
  - exists s0. cbn. auto.
  - cbn [StackTraceTableAdd.AddTrace_calls].
    destruct (AddTrace_placed c t s0 Hplaced0)
      as (s1 & Hrun & Hplaced1 & Hmask1 & _ & _ & Hlen1).
    rewrite Hrun. apply IH; [congruence | rewrite Hlen1, Hmask1; exact Hlen0 | exact Hplaced1].
Qed.

Lemma AddTrace_calls_without_merge (calls : list (double * StackTrace)) :
  forall (s0 : StackTraceTable double ProfileType) (chain0 : list (Bucket double)),
    merge_ s0 = false -> error_ s0 = false -> bucket_mask_ s0 = 0 ->
    table_ s0 !! 0%nat = Some chain0 ->
    exists s,
      AddTrace_calls calls s0 = Some s
      /\ table_ s !! 0%nat = Some (rev (map fresh calls) ++ chain0)
      /\ merge_ s = false /\ error_ s = false.
Proof.
  induction calls as [| [c t] rest IH]; intros s0 chain0 Hm He Hmask Hchain.
  - exists s0. cbn. auto.
  - cbn [StackTraceTableAdd.AddTrace_calls]. unfold StackTraceTableAdd.AddTrace.
    rewrite He, Hmask, Z.land_0_r, Hm. change (Z.to_nat 0) with 0%nat. rewrite Hchain.
    match goal with |- context [AddTrace_calls rest ?s1] =>
      destruct (IH s1 (fresh (c, t) :: chain0)) as (s & Hrun & Hs & Hrest)
    end; cbn [table_ merge_ error_ bucket_mask_]; auto.
    + apply list_lookup_insert_eq. apply lookup_lt_Some in Hchain. exact Hchain.
    + exists s. split; [exact Hrun |]. split; [| exact Hrest].
      rewrite Hs. cbn [map rev]. rewrite <- app_assoc. reflexivity.
Qed.

(** X19.  A table built without merging keeps one bucket per sample: after
    a run of [AddTrace] calls its chain 0 holds, the latest first, a bucket
    for each call, with the trace and the count of the call; no sample is
    merged into another, equal traces included. *)
Theorem AddTrace_without_merge_keeps_every_sample
    (type : ProfileType) (period : Z) (unsample : bool)
    (calls : list (double * StackTrace)) :
  0 < num_buckets 0 ->
  exists s,
    AddTrace_calls calls (StackTraceTable_new type period false unsample) = Some s
    /\ table_ s !! 0%nat = Some (rev (map fresh calls))
    /\ merge_ s = false /\ error_ s = false.
Proof.
  intros Hnum.
  destruct (AddTrace_calls_without_merge calls
              (StackTraceTable_new type period false unsample) [])
    as (s & Hrun & Hs & Hrest); try reflexivity.
  - unfold StackTraceTableAdd.StackTraceTable_new. cbn [table_].
    apply lookup_replicate. split; [reflexivity | lia].
  - exists s. rewrite app_nil_r in Hs. auto.
Qed.

(** X20.  A trace added twice in a row to a merging table that did not hold
    it ends in one bucket: the first call puts a new bucket at the head of
    the chain, the second finds it (a trace being equal to itself) and adds
    its count and its weight to it; no other chain changes. *)
Theorem AddTrace_merges_repeated_trace
    (c1 c2 : double) (t : StackTrace) (s : StackTraceTable double ProfileType)
    (chain : list (Bucket double)) :
  let idx := Z.to_nat (Z.land (Hash t) (bucket_mask_ s)) in
  merge_ s = true -> error_ s = false -> StackTrace_eq t t = true ->
  table_ s !! idx = Some chain ->
  Forall (fun b => KeyEqual b (Hash t) t = false) chain ->
  exists s1 s2,
    AddTrace c1 t s = Some s1 /\ AddTrace c2 t s1 = Some s2
    /\ table_ s1 !! idx = Some (fresh (c1, t) :: chain)
    /\ table_ s2 !! idx = Some (merged (fresh (c1, t)) c2 t :: chain)
    /\ count (merged (fresh (c1, t)) c2 t) = add c1 c2
    /\ (forall j : nat, j <> idx -> table_ s2 !! j = table_ s !! j)
    /\ bucket_total_ s2 = bucket_total_ s1.
Proof.
  intros idx Hm He Hrefl Hchain Hnew.
  assert (Hmiss : merge_into chain (Hash t) c1 t = None).
  { clear Hchain. induction Hnew as [| b next Hb Hnext IH]; [reflexivity |].
    cbn [StackTraceTableAdd.merge_into]. rewrite Hb, IH. reflexivity. }
  assert (Hlt : (idx < length (table_ s))%nat) by (apply lookup_lt_Some in Hchain; exact Hchain).
  unfold StackTraceTableAdd.AddTrace at 1. rewrite He, Hm. fold idx. rewrite Hchain, Hmiss.
  eexists _, _. split; [reflexivity |].
  unfold StackTraceTableAdd.AddTrace.
  cbn [error_ merge_ bucket_mask_ table_ bucket_total_]. fold idx.
  rewrite list_lookup_insert_eq by exact Hlt.
  cbn [StackTraceTableAdd.merge_into]. unfold StackTraceTableAdd.KeyEqual at 1.
  cbn [hash trace]. rewrite Z.eqb_refl, Hrefl. cbn [andb].
  split; [reflexivity |]. cbn [table_ bucket_total_].
  split; [reflexivity |].
  split; [rewrite list_insert_insert_eq; apply list_lookup_insert_eq; exact Hlt |].
  split; [reflexivity |]. split; [| reflexivity].
  intros j Hj. rewrite !list_lookup_insert_ne by congruence. reflexivity.
Qed.

End Facts.

Lemma AddTrace_keeps_buckets_placed_witness :
  exists s,
    AddTrace_calls Z Z.add Z.mul Z.div 0 id id depth stack_eq unit id
      [(1, sample 3 10); (2, sample 5 10); (4, sample 3 30)]
      (StackTraceTable_new Z unit (fun mask => mask + 1) tt 1 true false) = Some s
    /\ placed s
    /\ map (fun b => (count b, weight (trace b))) (default [] (table_ s !! 3%nat))
       = [(5, 26)].
Proof.
  destruct (AddTrace_keeps_buckets_placed Z Z.add Z.mul Z.div 0 id id depth stack_eq
              unit (fun mask => mask + 1) id tt 1 true false
              [(1, sample 3 10); (2, sample 5 10); (4, sample 3 30)])
    as (s & Hrun & Hplaced & _); [intros; lia |].
  exists s. split; [exact Hrun |]. split; [exact Hplaced |].
  vm_compute in Hrun. injection Hrun as <-. reflexivity.
Defined.

Lemma AddTrace_without_merge_keeps_every_sample_witness :
  exists s,
    AddTrace_calls Z Z.add Z.mul Z.div 0 id id depth stack_eq unit id
      [(1, sample 3 10); (4, sample 3 30)]
      (StackTraceTable_new Z unit (fun mask => mask + 1) tt 1 false false) = Some s
    /\ map (fun b => (count b, weight (trace b))) (default [] (table_ s !! 0%nat))
       = [(4, 30); (1, 10)].
Proof.
  destruct (AddTrace_without_merge_keeps_every_sample Z Z.add Z.mul Z.div 0 id id depth
              stack_eq unit (fun mask => mask + 1) id tt 1 false
              [(1, sample 3 10); (4, sample 3 30)])
    as (s & Hrun & Hchain & _); [lia |].
  exists s. split; [exact Hrun |]. rewrite Hchain. reflexivity.
Defined.

Lemma AddTrace_merges_repeated_trace_witness :
  exists s1 s2,
    AddTrace Z Z.add Z.mul Z.div 0 id id depth stack_eq unit id 1 (sample 3 10)
      (StackTraceTable_new Z unit (fun mask => mask + 1) tt 1 true false) = Some s1
    /\ AddTrace Z Z.add Z.mul Z.div 0 id id depth stack_eq unit id 4 (sample 3 10) s1
       = Some s2
    /\ map (fun b => count b) (default [] (table_ s2 !! 3%nat)) = [5].
Proof.
  destruct (AddTrace_merges_repeated_trace Z Z.add Z.mul Z.div 0 id id depth stack_eq
              unit id 1 4 (sample 3 10)
              (StackTraceTable_new Z unit (fun mask => mask + 1) tt 1 true false) [])
    as (s1 & s2 & Hrun1 & Hrun2 & _ & Hchain & Hcount & _);
    [reflexivity | reflexivity | reflexivity | reflexivity | constructor |].
  exists s1, s2. split; [exact Hrun1 |]. split; [exact Hrun2 |].
  change (Z.to_nat _) with 3%nat in Hchain. rewrite Hchain. reflexivity.
Defined.

End StackTraceTableAddFacts.
